(** * Excel nickname filter: nickname parser, row classifier, column sizing

    A shallow embedding of [parseNicknameText] / [formatNicknamesAsText]
    (components/NicknameInput.tsx) and of [readNameFile],
    [filterWorkbookByNicknames] and the column auto-fit of
    [downloadExcelFile] (utils/excelUtils.ts), with the properties the
    specification states about them.

    Conventions of the embedding.
    - A JavaScript string is a [string] of the UTF-8 bytes of its text.
      [toLowerCase] folds A-Z only, [trim] strips the ASCII white space
      characters (code points 9-13 and 32); [length] counts UTF-16 code
      units, as the language does.
    - A JavaScript number is a [number]: NaN, an infinity, or a finite
      double carried as the rational it denotes.  Every conversion and
      every arithmetic operation that can leave the doubles rounds its
      exact result to the nearest double, ties to even, and overflows to
      an infinity ([Num.round]); [String] of a number writes the shortest
      decimal that reads back as the same double.  The sign of zero is
      not represented.  A number in a cell of a given workbook is taken as
      it is given; no statement needs it to be a double.
    - A thrown [Error] is the [Throw] constructor of [result].
    - A work sheet is the array of rows that [sheet_to_json] reads from it
      and [aoa_to_sheet] builds it from; the binary container is left to
      the libraries.
    - [ExcelUtils] gives the functions on values; [Store] gives
      [filterWorkbookByNicknames] once more over a store of objects, for
      the statement that it mutates nothing it was given. *)

From Stdlib Require Import ZArith QArith Qround Lqa Ascii String List Lia Bool.
From Stdlib Require Import DecimalString DecimalPos Sorting.Sorted Qabs Qpower.
From stdpp Require Import base strings gmap list.

Local Open Scope Z_scope.

(* ===================================================================== *)
(** ** JavaScript strings *)
(* ===================================================================== *)

Module Js.

Definition isWhiteSpace (c : ascii) : bool := Ascii.is_space c.

Fixpoint trimStart (s : string) : string :=
  match s with
  | EmptyString => EmptyString
  | String c s' => if isWhiteSpace c then trimStart s' else s
  end.

Fixpoint trimEnd (s : string) : string :=
  match s with
  | EmptyString => EmptyString
  | String c s' =>
      match trimEnd s' with
      | EmptyString => if isWhiteSpace c then EmptyString else String c EmptyString
      | t => String c t
      end
  end.

(** [s.trim()] *)
Definition trim (s : string) : string := trimEnd (trimStart s).

(** [s.length], the number of UTF-16 code units of the text that the
    bytes of [s] encode: one for a character of one to three bytes, two
    for a character of four bytes. *)
Definition codeUnits (c : ascii) : nat :=
  let n := nat_of_ascii c in
  if Nat.ltb n 128 then 1
  else if Nat.ltb n 192 then 0
  else if Nat.ltb n 240 then 1
  else 2.

Fixpoint length (s : string) : nat :=
  match s with
  | EmptyString => 0
  | String c s' => codeUnits c + length s'
  end.

(** [s.split(sep)] for a one-character separator. *)
Fixpoint split (sep : ascii) (s : string) : list string :=
  match s with
  | EmptyString => [EmptyString]
  | String c s' =>
      if Ascii.eqb c sep then EmptyString :: split sep s'
      else match split sep s' with
           | p :: ps => String c p :: ps
           | [] => [String c EmptyString]
           end
  end.

(** [s.includes(t)]: [t] occurs in [s] as a contiguous substring. *)
Fixpoint includes (s t : string) : bool :=
  String.prefix t s ||
  match s with
  | EmptyString => false
  | String _ s' => includes s' t
  end.

(** [s.replace(a, b)] with string patterns of one character: only the
    first occurrence is replaced. *)
Fixpoint replace (a b : ascii) (s : string) : string :=
  match s with
  | EmptyString => EmptyString
  | String c s' => if Ascii.eqb c a then String b s' else String c (replace a b s')
  end.

Definition lowerChar (c : ascii) : ascii :=
  let n := nat_of_ascii c in
  if (Nat.leb 65 n && Nat.leb n 90)%bool then ascii_of_nat (n + 32) else c.

(** [s.toLowerCase()] *)
Fixpoint toLowerCase (s : string) : string :=
  match s with
  | EmptyString => EmptyString
  | String c s' => String (lowerChar c) (toLowerCase s')
  end.

(** [parts.join(sep)] *)
Fixpoint join (sep : string) (parts : list string) : string :=
  match parts with
  | [] => EmptyString
  | [p] => p
  | p :: ps => p +:+ sep +:+ join sep ps
  end.

End Js.

(* ===================================================================== *)
(** ** JavaScript numbers *)
(* ===================================================================== *)

Inductive number : Type :=
  | NaN
  | Infinity (negative : bool)
  | Finite (q : Q).

Module Num.

Definition zero : number := Finite 0.
Definition ofZ (z : Z) : number := Finite (inject_Z z).

(** [2^e] and [10^e] for an exponent of either sign. *)
Definition pow2 (e : Z) : Q :=
  if 0 <=? e then inject_Z (2 ^ e) else 1 # Z.to_pos (2 ^ (- e)).

Definition pow10 (e : Z) : Q :=
  if 0 <=? e then inject_Z (10 ^ e) else 1 # Z.to_pos (10 ^ (- e)).

(** The integer [L] with [2^L <= q < 2^(L+1)], for a positive [q]. *)
Definition ilog2 (q : Q) : Z :=
  let e0 := Z.log2 (Qnum q) - Z.log2 (Zpos (Qden q)) in
  if Qle_bool (pow2 e0) q then e0 else e0 - 1.

(** The nearest integer, a tie going to the even one. *)
Definition nearestEven (q : Q) : Z :=
  let f := Qfloor q in
  match (q - inject_Z f ?= 1 # 2)%Q with
  | Lt => f
  | Gt => f + 1
  | Eq => if Z.even f then f else f + 1
  end.

(** The double nearest to a positive [q] (binary64: 53 bits of
    precision, least exponent -1074 for the subnormal range), an infinity
    from [2^1024] on. *)
Definition roundPos (q : Q) : number :=
  let e := Z.max (ilog2 q - 52) (-1074) in
  let r := (inject_Z (nearestEven (q / pow2 e)) * pow2 e)%Q in
  if Qle_bool (pow2 1024) r then Infinity false else Finite (Qred r).

(** [-x] *)
Definition neg (x : number) : number :=
  match x with
  | NaN => NaN
  | Infinity negative => Infinity (negb negative)
  | Finite q => Finite (- q)
  end.

(** The number that the exact value [q] becomes: round to nearest, ties
    to even. *)
Definition round (q : Q) : number :=
  match Qnum q with
  | Z0 => Finite 0
  | Zpos _ => roundPos q
  | Zneg _ => neg (roundPos (- q))
  end.

Definition isNaN (x : number) : bool :=
  match x with NaN => true | _ => false end.

Definition isFinite (x : number) : bool :=
  match x with Finite _ => true | _ => false end.

(** [x === y] on numbers. *)
Definition eqb (x y : number) : bool :=
  match x, y with
  | Finite p, Finite q => Qeq_bool p q
  | Infinity a, Infinity b => Bool.eqb a b
  | _, _ => false
  end.

(** [x < y] *)
Definition ltb (x y : number) : bool :=
  match x, y with
  | NaN, _ | _, NaN => false
  | Finite p, Finite q => negb (Qle_bool q p)
  | Finite _, Infinity neg => negb neg
  | Infinity neg, Finite _ => neg
  | Infinity a, Infinity b => a && negb b
  end.

(** [x >= y] *)
Definition geb (x y : number) : bool :=
  match x, y with
  | NaN, _ | _, NaN => false
  | Finite p, Finite q => Qle_bool q p
  | Finite _, Infinity neg => neg
  | Infinity neg, Finite _ => negb neg
  | Infinity a, Infinity b => negb a || b
  end.

(** [x > y] *)
Definition gtb (x y : number) : bool := ltb y x.

(** [x - y] *)
Definition sub (x y : number) : number :=
  match x, y with
  | NaN, _ | _, NaN => NaN
  | Finite p, Finite q => round (p - q)
  | Finite _, Infinity neg => Infinity (negb neg)
  | Infinity neg, Finite _ => Infinity neg
  | Infinity a, Infinity b => if Bool.eqb a b then NaN else Infinity a
  end.

(** [x * k] and [x / k] for a positive literal [k]. *)
Definition mulPos (x : number) (k : positive) : number :=
  match x with
  | Finite q => round (q * inject_Z (Zpos k))
  | other => other
  end.

Definition divPos (x : number) (k : positive) : number :=
  match x with
  | Finite q => round (q / inject_Z (Zpos k))
  | other => other
  end.

(** [Math.floor] and [Math.ceil] *)
Definition floor (x : number) : number :=
  match x with
  | Finite q => ofZ (Qfloor q)
  | other => other
  end.

Definition ceil (x : number) : number :=
  match x with
  | Finite q => ofZ (Qceiling q)
  | other => other
  end.

(** Truthiness of a number: [0] and [NaN] are falsy. *)
Definition truthy (x : number) : bool :=
  match x with
  | NaN => false
  | Infinity _ => true
  | Finite q => negb (Qeq_bool q 0)
  end.

(** An integer value. *)
Definition isInteger (x : number) : Prop :=
  exists z : Z, x = ofZ z.

End Num.

(* ===================================================================== *)
(** ** Conversions between strings and numbers *)
(* ===================================================================== *)

Module Conv.

Definition digitOf (c : ascii) : option Z :=
  match Ascii.is_nat c with
  | Some n => Some (Z.of_nat n)
  | None => None
  end.

(** Reads the longest run of decimal digits: its value continuing from
    [acc], the number of digits read, and the rest of the text. *)
Fixpoint readDigits (s : string) (acc : Z) (count : nat) : Z * nat * string :=
  match s with
  | EmptyString => (acc, count, s)
  | String c s' =>
      match digitOf c with
      | Some d => readDigits s' (10 * acc + d) (S count)
      | None => (acc, count, s)
      end
  end.

(** An optional sign: [true] for a minus. *)
Definition readSign (s : string) : bool * string :=
  match s with
  | String "-" s' => (true, s')
  | String "+" s' => (false, s')
  | _ => (false, s)
  end.

(** The exponent part [e[+-]digits]; absent (exponent 0, nothing
    consumed) unless at least one digit follows. *)
Definition readExponent (s : string) : Z * string :=
  match s with
  | String c s' =>
      if (Ascii.eqb c "e" || Ascii.eqb c "E")%bool then
        let '(neg, s1) := readSign s' in
        let '(e, n, rest) := readDigits s1 0 0 in
        match n with
        | O => (0, s)
        | S _ => (if neg then - e else e, rest)
        end
      else (0, s)
  | EmptyString => (0, s)
  end.

(** The value [m * 10^e] as a reduced fraction. *)
Definition scale10 (m e : Z) : Q :=
  if 0 <=? e then inject_Z (m * 10 ^ e)
  else Qred (Qmake m (Z.to_pos (10 ^ (- e)))).

(** The longest prefix that is an unsigned decimal literal
    ([digits], [digits.digits], [.digits], each with an optional
    exponent): its value and the rest of the text. *)
Definition readDecimal (s : string) : option (Q * string) :=
  let '(i, ni, s1) := readDigits s 0 0 in
  let '(m, nf, s2) :=
    match s1 with
    | String "." s1' =>
        let '(m, nf, s2) := readDigits s1' i 0 in
        match ni, nf with
        | O, O => (i, O, s1)
        | _, _ => (m, nf, s2)
        end
    | _ => (i, O, s1)
    end in
  match ni, nf with
  | O, O => None
  | _, _ =>
      let '(e, rest) := readExponent s2 in
      Some (scale10 m (e - Z.of_nat nf), rest)
  end.

Definition signed (neg : bool) (q : Q) : Q := if neg then Qopp q else q.

(** [parseFloat(s)]: leading white space is skipped, the longest prefix
    that is a decimal literal (or [Infinity]) is converted, the rest is
    ignored; NaN when there is no such prefix. *)
Definition parseFloat (s : string) : number :=
  let '(neg, s1) := readSign (Js.trimStart s) in
  if String.prefix "Infinity" s1 then Infinity neg
  else match readDecimal s1 with
       | Some (q, _) => Num.round (signed neg q)
       | None => NaN
       end.

(** The digit values of [0x], [0o] and [0b] literals. *)
Definition radixDigit (radix : Z) (c : ascii) : option Z :=
  let n := Z.of_nat (nat_of_ascii c) in
  let d := if (48 <=? n) && (n <=? 57) then n - 48
           else if (97 <=? n) && (n <=? 102) then n - 87
           else if (65 <=? n) && (n <=? 70) then n - 55
           else radix in
  if d <? radix then Some d else None.

Fixpoint readRadix (radix : Z) (s : string) (acc : Z) : option Z :=
  match s with
  | EmptyString => Some acc
  | String c s' =>
      match radixDigit radix c with
      | Some d => readRadix radix s' (radix * acc + d)
      | None => None
      end
  end.

(** The value of a text that is as a whole a hexadecimal, octal or
    binary integer literal. *)
Definition radixLiteral (t : string) : option Z :=
  match t with
  | String "0" (String p (String c rest)) =>
      let radix := if (Ascii.eqb p "x" || Ascii.eqb p "X")%bool then 16
                   else if (Ascii.eqb p "o" || Ascii.eqb p "O")%bool then 8
                   else if (Ascii.eqb p "b" || Ascii.eqb p "B")%bool then 2
                   else 0 in
      if radix =? 0 then None else readRadix radix (String c rest) 0
  | _ => None
  end.

(** [Number(s)] on a string: the trimmed text must be empty (giving 0),
    an integer literal with a radix prefix, or a decimal literal as a
    whole. *)
Definition stringToNumber (s : string) : number :=
  let t := Js.trim s in
  match t with
  | EmptyString => Num.zero
  | _ =>
    match radixLiteral t with
    | Some z => Num.round (inject_Z z)
    | None =>
        let '(neg, s1) := readSign t in
        if String.eqb s1 "Infinity" then Infinity neg
        else match readDecimal s1 with
             | Some (q, EmptyString) => Num.round (signed neg q)
             | _ => NaN
             end
    end
  end.

Definition natToString (n : Z) : string :=
  NilZero.string_of_int (Z.to_int n).

Definition digitChar (d : Z) : ascii := ascii_of_nat (48 + Z.to_nat d).

(** The last [width] decimal digits of [z], highest first. *)
Fixpoint fixedDigits (width : nat) (z : Z) : string :=
  match width with
  | O => EmptyString
  | S w => fixedDigits w (z / 10) +:+ String (digitChar (z mod 10)) EmptyString
  end.

(** [Number::toString] works with integers [n], [k], [s] such that
    [k >= 1], [10^(k-1) <= s < 10^k] and [s * 10^(n-k)] is the number,
    that is, rounds to it, with [k] as small as possible and, among
    several [s], the one closest to the number (the even one of two). *)

(** [s * 10^(n-k)] *)
Definition decimalValue (s n k : Z) : Q := (inject_Z s * Num.pow10 (n - k))%Q.

(** The [n] with [10^(n-1) <= x < 10^n], for a positive double [x]. *)
Definition decimalExponent (x : Q) : Z :=
  let t := (Num.ilog2 x * 30103) / 100000 in
  if Qle_bool (Num.pow10 (t + 1)) x then t + 2
  else if Qle_bool (Num.pow10 t) x then t + 1
  else t.

(** [(s, n)] has [k] digits and denotes [x]. *)
Definition acceptable (x : Q) (k : Z) (c : Z * Z) : bool :=
  (10 ^ (k - 1) <=? c.1) && (c.1 <? 10 ^ k) &&
  match Num.round (decimalValue c.1 c.2 k) with
  | Finite r => Qeq_bool r x
  | _ => false
  end.

(** The two decimals of [k] digits next to [x], below and above. *)
Definition candidates (x : Q) (n0 k : Z) : list (Z * Z) :=
  let lo := Qfloor (x / Num.pow10 (n0 - k)) in
  let hi := if lo + 1 =? 10 ^ k then (10 ^ (k - 1), n0 + 1) else (lo + 1, n0) in
  [(lo, n0); hi].

Definition distance (x : Q) (k : Z) (c : Z * Z) : Q :=
  Qabs (decimalValue c.1 c.2 k - x).

Definition closest (x : Q) (k : Z) (cs : list (Z * Z)) : option (Z * Z) :=
  match List.filter (acceptable x k) cs with
  | [] => None
  | [c] => Some c
  | c1 :: c2 :: _ =>
      match (distance x k c1 ?= distance x k c2)%Q with
      | Lt => Some c1
      | Gt => Some c2
      | Eq => if Z.even c1.1 then Some c1 else Some c2
      end
  end.

(** The least [k] from the given one on, below [k + fuel], for which a
    decimal of [k] digits denotes [x], with its [s] and [n]. *)
Fixpoint shortest (x : Q) (n0 k : Z) (fuel : nat) : option (Z * Z * Z) :=
  match fuel with
  | O => None
  | S fuel' =>
      match closest x k (candidates x n0 k) with
      | Some c => Some (c.1, c.2, k)
      | None => shortest x n0 (k + 1) fuel'
      end
  end.

(** [e+21], [e-7] *)
Definition exponentPart (e : Z) : string :=
  "e" +:+ (if e <? 0 then "-" else "+") +:+ natToString (Z.abs e).

(** The text for [s], [n], [k]: the digits with zeros appended, with a
    decimal point inside, with [0.] and zeros in front, or in exponent
    notation. *)
Definition layout (s n k : Z) : string :=
  if (k <=? n) && (n <=? 21) then
    fixedDigits (Z.to_nat n) (s * 10 ^ (n - k))
  else if (0 <? n) && (n <=? 21) then
    fixedDigits (Z.to_nat n) (s / 10 ^ (k - n)) +:+ "." +:+
    fixedDigits (Z.to_nat (k - n)) s
  else if (-6 <? n) && (n <=? 0) then
    "0." +:+ fixedDigits (Z.to_nat (k - n)) s
  else if k =? 1 then
    fixedDigits 1 s +:+ exponentPart (n - 1)
  else
    fixedDigits 1 (s / 10 ^ (k - 1)) +:+ "." +:+ fixedDigits (Z.to_nat (k - 1)) s +:+
    exponentPart (n - 1).

(** The exact decimal expansion of a fraction with a power of two as
    denominator, [num / 2^j = (num * 5^j) * 10^(-j)]. *)
Definition exactText (x : Q) : string :=
  let j := Z.log2 (Zpos (Qden x)) in
  natToString (Qnum x * 5 ^ j) +:+ (if j =? 0 then "" else "e-" +:+ natToString j).

(** The text of a positive double.  Seventeen digits denote every
    double, so the search does not fail on one; the exact expansion
    stands for that case. *)
Definition positiveToString (x : Q) : string :=
  match shortest x (decimalExponent x) 1 17 with
  | Some (s, n, k) => layout s n k
  | None => exactText x
  end.

(** [String(x)] on a number. *)
Definition numberToString (x : number) : string :=
  match x with
  | NaN => "NaN"
  | Infinity neg => if neg then "-Infinity" else "Infinity"
  | Finite q =>
      match Num.round q with
      | NaN => "NaN"
      | Infinity neg => if neg then "-Infinity" else "Infinity"
      | Finite r =>
          match Qnum r with
          | Z0 => "0"
          | Zpos _ => positiveToString r
          | Zneg _ => "-" +:+ positiveToString (- r)
          end
      end
  end.

End Conv.

(* ===================================================================== *)
(** ** types.ts and components/NicknameInput.tsx *)
(* ===================================================================== *)

(** [interface NicknameWithLine { nickname: string; line?: number }];
    [None] is [undefined]. *)
Record NicknameWithLine : Type := mkNickname {
  nickname : string;
  line : option number
}.

Module NicknameInput.

Definition nonEmpty (s : string) : bool :=
  match s with EmptyString => false | _ => true end.

(** [const [nickname, lineStr] = line.split('/').map(part => part.trim())]:
    the first two parts of the split, [None] where the array is too
    short. *)
Definition splitParts (line : string) : option string * option string :=
  let parts := map Js.trim (Js.split "/" line) in
  (parts !! 0%nat, parts !! 1%nat).

(** The body of [lines.forEach(line => ...)]: the array [nicknames]
    after the entry for [ln], if any, has been pushed. *)
Definition parseLine (nicknames : list NicknameWithLine) (ln : string)
  : list NicknameWithLine :=
  if Js.includes ln "/" then
    match splitParts ln with
    | (Some nickname, Some lineStr) =>
        let normalizedLineStr := Js.replace "," "." lineStr in
        let lineValue := Conv.parseFloat normalizedLineStr in
        if nonEmpty nickname && negb (Num.isNaN lineValue) then
          nicknames ++ [mkNickname nickname (Some (Num.mulPos lineValue 1000))]
        else if nonEmpty nickname then
          nicknames ++ [mkNickname nickname None]
        else nicknames
    | _ => nicknames
    end
  else
    nicknames ++ [mkNickname ln None].

Definition textLines (text : string) : list string :=
  List.filter (fun l => Nat.ltb 0 (String.length l))
              (map Js.trim (Js.split "010" text)).

Definition parseNicknameText (text : string) : list NicknameWithLine :=
  fold_left parseLine (textLines text) [].

Definition formatEntry (n : NicknameWithLine) : string :=
  match line n with
  | Some l => nickname n +:+ "/" +:+ Conv.numberToString (Num.divPos l 1000)
  | None => nickname n
  end.

Definition newline : string := String "010" EmptyString.

Definition formatNicknamesAsText (nicknames : list NicknameWithLine) : string :=
  Js.join newline (map formatEntry nicknames).

End NicknameInput.


(* ===================================================================== *)
(** ** Cell values, sheets and workbooks *)
(* ===================================================================== *)

(** The values a cell of [any[][]] holds: a blank cell read with
    [defval: ''] is [VString ""]; an index past the end of a row gives
    [VUndefined]. *)
Inductive value : Type :=
  | VUndefined
  | VString (s : string)
  | VNumber (n : number)
  | VBoolean (b : bool).

Definition Row : Type := list value.

(** A work sheet, seen through [XLSX.utils.sheet_to_json(ws, { header: 1,
    defval: '' })] and built by [XLSX.utils.aoa_to_sheet]: its rows of
    cells. *)
Definition WorkSheet : Type := list Row.

(** [XLSX.WorkBook]: the ordered sheet names and the sheets by name. *)
Record WorkBook : Type := mkWorkBook {
  SheetNames : list string;
  Sheets : gmap string WorkSheet
}.

(** The outcome of a call: a returned value or a thrown [Error]. *)
Inductive result (A : Type) : Type :=
  | Ok (a : A)
  | Throw (message : string).
Arguments Ok {A} a.
Arguments Throw {A} message.

Module Val.

(** [row[i]] *)
Definition cell (row : Row) (i : nat) : value := nth i row VUndefined.

(** Truthiness, as in [v ? a : b] and [v || w]. *)
Definition truthy (v : value) : bool :=
  match v with
  | VUndefined => false
  | VString s => NicknameInput.nonEmpty s
  | VNumber n => Num.truthy n
  | VBoolean b => b
  end.

(** [String(v)] *)
Definition toString (v : value) : string :=
  match v with
  | VUndefined => "undefined"
  | VString s => s
  | VNumber n => Conv.numberToString n
  | VBoolean b => if b then "true" else "false"
  end.

(** [Number(v)] *)
Definition toNumber (v : value) : number :=
  match v with
  | VUndefined => NaN
  | VString s => Conv.stringToNumber s
  | VNumber n => n
  | VBoolean b => if b then Num.ofZ 1 else Num.zero
  end.

(** [a || b] on values. *)
Definition or (a b : value) : value := if truthy a then a else b.

(** [names.includes(name)] *)
Definition includes (names : list string) (name : string) : bool :=
  existsb (String.eqb name) names.

End Val.

(** [Array.prototype.sort(compareFn)].  The sort is stable (ECMAScript
    2019); it is written here as an insertion sort: going from the last
    element to the first, an element is put in front of the elements
    already placed and moves right past those that [compareFn] orders
    before it (a positive result).  A NaN result counts as 0.  For a
    consistent [compareFn] every stable sort gives this order
    ([sorted_stable_unique] below); for an inconsistent one (keys that
    are NaN) the language leaves the order to the implementation, and
    this is one such order: of a list sorted with NaN among its keys only
    what holds of every order, that it is a permutation of the input, is
    used below. *)
Module ArraySort.
Section Sort.
Context {A : Type} (compareFn : A -> A -> number).

Definition after (x y : A) : bool := Num.gtb (compareFn x y) Num.zero.

Fixpoint insert (x : A) (l : list A) : list A :=
  match l with
  | [] => [x]
  | y :: ys => if after x y then y :: insert x ys else x :: l
  end.

Definition sort (l : list A) : list A := fold_right insert [] l.
End Sort.
End ArraySort.

(* ===================================================================== *)
(** ** utils/excelUtils.ts *)
(* ===================================================================== *)

Module ExcelUtils.

Definition quote : string := String (ascii_of_nat 34) EmptyString.

(** [XLSX.utils.book_new()] *)
Definition book_new : WorkBook := mkWorkBook [] ∅.

(** [XLSX.utils.book_append_sheet(wb, ws, name)] *)
Definition book_append_sheet (wb : WorkBook) (ws : WorkSheet) (name : string) : WorkBook :=
  mkWorkBook (SheetNames wb ++ [name]) (<[name := ws]> (Sheets wb)).

(** [XLSX.utils.sheet_to_json(workbook.Sheets[name], { header: 1, defval: '' })];
    a sheet that is listed but missing reads as no rows. *)
Definition sheet_to_json (wb : WorkBook) (name : string) : list Row :=
  default [] (Sheets wb !! name).

(** [XLSX.utils.aoa_to_sheet(data)] *)
Definition aoa_to_sheet (data : list Row) : WorkSheet := data.

(** *** readNameFile *)

Definition nameSheetName : string := "Player overview".

Definition nameSheetNotFound : string :=
  "Sheet " +:+ quote +:+ nameSheetName +:+ quote +:+ " not found in the name file.".

(** [XLSX.utils.sheet_to_json(worksheet)]: the first row gives the keys,
    every later row becomes an object holding its non-blank cells.  The
    renaming of repeated and blank header cells is not represented. *)
Definition rowObject (header row : Row) : gmap string value :=
  fold_left
    (fun obj kv =>
       match kv.2 with
       | VUndefined | VString EmptyString => obj
       | v => <[Val.toString kv.1 := v]> obj
       end)
    (combine header row) ∅.

Definition sheet_to_json_objects (ws : WorkSheet) : list (gmap string value) :=
  match ws with
  | [] => []
  | header :: rows => map (rowObject header) rows
  end.

(** [row[key]] on a row object. *)
Definition field (row : gmap string value) (key : string) : value :=
  default VUndefined (row !! key).

(** The body of [jsonData.forEach((row) => ...)]. *)
Definition addName (nameMapping : gmap string string) (row : gmap string value)
  : gmap string string :=
  let nick := Val.or (Val.or (field row "Nick") (field row "nick")) (field row "NICK") in
  let name := Val.or (Val.or (field row "Name") (field row "name")) (field row "NAME") in
  if Val.truthy nick && Val.truthy name then
    <[Js.toLowerCase (Val.toString nick) := Val.toString name]> nameMapping
  else nameMapping.

(** [readNameFile], from the workbook that [readExcelFile] resolved to. *)
Definition readNameFile (workbook : WorkBook) : result (gmap string string) :=
  if negb (Val.includes (SheetNames workbook) nameSheetName) then
    Throw nameSheetNotFound
  else
    let jsonData := sheet_to_json_objects (sheet_to_json workbook nameSheetName) in
    Ok (fold_left addName jsonData ∅).

(** *** filterWorkbookByNicknames *)

Definition targetSheetName : string := "Club Member Balance".

Definition targetSheetNotFound : string :=
  "Sheet " +:+ quote +:+ targetSheetName +:+ quote +:+ " not found in the uploaded file.".

(** [row[10] ? String(row[10]).toLowerCase() : ''] *)
Definition columnK (row : Row) : string :=
  if Val.truthy (Val.cell row 10) then Js.toLowerCase (Val.toString (Val.cell row 10))
  else "".

(** [row[11] !== undefined ? row[11] : 0] *)
Definition columnL (row : Row) : value :=
  match Val.cell row 11 with
  | VUndefined => VNumber Num.zero
  | v => v
  end.

(** [nicknames.find(nicknameObj =>
      columnK.includes(nicknameObj.nickname.toLowerCase()))] *)
Definition matchingNickname (nicknames : list NicknameWithLine) (row : Row)
  : option NicknameWithLine :=
  List.find (fun nicknameObj => Js.includes (columnK row) (Js.toLowerCase (nickname nicknameObj)))
            nicknames.

(** [nameMapping.get(a) || nameMapping.get(b) || ''] *)
Definition orString (a : option string) (b : string) : string :=
  match a with
  | Some s => if NicknameInput.nonEmpty s then s else b
  | None => b
  end.

Definition realName (nameMapping : gmap string string) (row : Row) (m : NicknameWithLine)
  : string :=
  let actualNickname := Val.toString (Val.cell row 10) in
  orString (nameMapping !! Js.toLowerCase actualNickname)
           (orString (nameMapping !! Js.toLowerCase (nickname m)) "").

(** [profitLoss >= 0 ? Math.floor(profitLoss) : Math.ceil(profitLoss)] *)
Definition roundTowardZero (profitLoss : number) : number :=
  if Num.geb profitLoss Num.zero then Num.floor profitLoss else Num.ceil profitLoss.

(** The value of [profitLoss] before it is rounded. *)
Definition rawProfitLoss (row : Row) (m : NicknameWithLine) : number :=
  match line m with
  | Some l => Num.sub (Val.toNumber (columnL row)) l
  | None => Val.toNumber (columnL row)
  end.

Definition profitLoss (row : Row) (m : NicknameWithLine) : number :=
  roundTowardZero (rawProfitLoss row m).

Definition negativeMessage (profitLoss : number) : string :=
  "Hei🙂 Saldo er " +:+ Conv.numberToString profitLoss +:+ ", mer info kommer".

Definition positiveMessage (profitLoss : number) : string :=
  "Hei🙂 Saldo er " +:+ Conv.numberToString profitLoss +:+ ", hva vil du gjøre?".

Definition message (profitLoss : number) : string :=
  if Num.ltb profitLoss Num.zero then negativeMessage profitLoss
  else positiveMessage profitLoss.

Definition blank : value := VString "".

(** [[row[10], realName, lineAmount, columnL, hasLineValue, profitLoss,
      '', '', '', '', '', message]] *)
Definition rowData (nameMapping : gmap string string) (row : Row) (m : NicknameWithLine)
  : Row :=
  let hasLineValue := match line m with Some _ => "Yes" | None => "No" end in
  let lineAmount := match line m with Some l => VNumber l | None => blank end in
  [ Val.cell row 10; VString (realName nameMapping row m); lineAmount; columnL row;
    VString hasLineValue; VNumber (profitLoss row m);
    blank; blank; blank; blank; blank; VString (message (profitLoss row m)) ].

(** The body of [dataWithoutFirstThreeRows.forEach((row) => ...)] on the
    pair [(positiveData, negativeData)]. *)
Definition classifyRow (nicknames : list NicknameWithLine)
    (nameMapping : gmap string string)
    (buckets : list Row * list Row) (row : Row) : list Row * list Row :=
  match matchingNickname nicknames row with
  | Some m =>
      if Num.geb (profitLoss row m) Num.zero
      then (buckets.1 ++ [rowData nameMapping row m], buckets.2)
      else (buckets.1, buckets.2 ++ [rowData nameMapping row m])
  | None => buckets
  end.

(** [(a, b) => b[5] - a[5]] *)
Definition byProfitLoss (a b : Row) : number :=
  Num.sub (Val.toNumber (Val.cell b 5)) (Val.toNumber (Val.cell a 5)).

Definition headers : Row :=
  map VString ["Nickname"; "Name"; "Line Amount"; "Chips"; "Has Line"; "Profit/Loss";
               "Pm"; "uttak sum"; "ruller"; "Claima chips"; "satt opp"; "Message"].

Definition transferTableHeaders : Row :=
  map VString ["Avsender"; "sum"; "Mottaker"; "bekreftet"; "purra"].

(** [Array(10).fill(['', '', '', '', ''])] *)
Definition emptyTransferRows : list Row :=
  replicate 10 [blank; blank; blank; blank; blank].

Definition combinedData (positiveData negativeData : list Row) : list Row :=
  [headers] ++ positiveData ++ [[]; []] ++ [headers] ++ negativeData ++
  [[]; []; []; []; []; []; []; []; []; []] ++
  [transferTableHeaders] ++ emptyTransferRows ++ [[]; []] ++
  [transferTableHeaders] ++ map (fun _ => [blank; blank; blank; blank; blank]) emptyTransferRows ++
  [[]; []] ++
  [transferTableHeaders] ++ map (fun _ => [blank; blank; blank; blank; blank]) emptyTransferRows.

(** [positiveData] and [negativeData] when the [forEach] has run. *)
Definition classified (nicknames : list NicknameWithLine) (nameMapping : gmap string string)
    (jsonData : list Row) : list Row * list Row :=
  fold_left (classifyRow nicknames nameMapping) (drop 3 jsonData) ([], []).

Definition filterWorkbookByNicknames (workbook : WorkBook)
    (nicknames : list NicknameWithLine) (nameMapping : gmap string string)
  : result WorkBook :=
  let newWorkbook := book_new in
  if negb (Val.includes (SheetNames workbook) targetSheetName) then
    Throw targetSheetNotFound
  else
    let jsonData := sheet_to_json workbook targetSheetName in
    match nicknames with
    | [] => Ok (book_append_sheet newWorkbook (aoa_to_sheet []) targetSheetName)
    | _ =>
        let buckets := classified nicknames nameMapping jsonData in
        let positiveData := ArraySort.sort byProfitLoss buckets.1 in
        let negativeData := ArraySort.sort byProfitLoss buckets.2 in
        Ok (book_append_sheet newWorkbook
              (aoa_to_sheet (combinedData positiveData negativeData)) targetSheetName)
    end.

(** *** downloadExcelFile: the column auto-fit *)

(** [cell.value ? String(cell.value).length : 10] *)
Definition columnLength (v : value) : nat :=
  if Val.truthy v then Js.length (Val.toString v) else 10%nat.

(** [maxLength] after [column.eachCell({ includeEmpty: true }, ...)] has
    visited the cells of a column. *)
Definition maxLength (cells : list value) : nat :=
  fold_left (fun maxLength v =>
               if Nat.ltb maxLength (columnLength v) then columnLength v else maxLength)
            cells 0%nat.

(** [column.width = maxLength < 10 ? 10 : maxLength + 2] *)
Definition columnWidth (cells : list value) : nat :=
  if Nat.ltb (maxLength cells) 10 then 10%nat else (maxLength cells + 2)%nat.

(** The cells of column [j] of the written sheet, one per row; a row
    without a value there holds an empty cell. *)
Definition columnCells (data : list Row) (j : nat) : list value :=
  map (fun row => Val.cell row j) data.

(** The styling loop touches [Math.max(excelRow.cellCount, 20)] cells of
    every row, so the sheet has at least 20 columns once it has a row. *)
Definition columnCount (data : list Row) : nat :=
  fold_right (fun row n => Nat.max (Nat.max (length row) 20) n) 0%nat data.

Definition columnWidths (data : list Row) : list nat :=
  map (fun j => columnWidth (columnCells data j)) (seq 0 (columnCount data)).

End ExcelUtils.

(* ===================================================================== *)
(** ** [filterWorkbookByNicknames] over a store of objects *)
(* ===================================================================== *)

(** The function once more, statement by statement, with its arguments
    and local arrays as objects of a store, so that what it mutates
    ([push], [sort], [book_append_sheet]) is visible.  A workbook, an
    array of rows, an entry array and a [Map] are one object each; rows
    and cells are held by value in the array that contains them. *)
Module Store.

Inductive object : Type :=
  | OWorkBook (wb : WorkBook)
  | OSheet (ws : WorkSheet)
  | ORows (rows : list Row)
  | ONicknames (entries : list NicknameWithLine)
  | ONameMap (mapping : gmap string string).

Abbreviation loc := positive.
Abbreviation store := (gmap positive object).

(** A computation on the store: its outcome and the store it leaves. *)
Definition M (A : Type) : Type := store -> result A * store.

Definition ret {A : Type} (a : A) : M A := fun s => (Ok a, s).

Definition throw {A : Type} (message : string) : M A := fun s => (Throw message, s).

Definition bind {A B : Type} (m : M A) (k : A -> M B) : M B :=
  fun s =>
    match m s with
    | (Ok a, s') => k a s'
    | (Throw message, s') => (Throw message, s')
    end.

Notation "'let!' x ':=' m 'in' k" := (bind m (fun x => k))
  (at level 10, x name, m at level 200, k at level 200).
Notation "'do!' m 'in' k" := (bind m (fun _ => k))
  (at level 10, m at level 200, k at level 200).

(** A new object, at a location the store does not use yet. *)
Definition alloc (o : object) : M loc :=
  fun s => let l := fresh (dom s) in (Ok l, <[l := o]> s).

Definition typeError : string := "TypeError".

Definition load (l : loc) : M object :=
  fun s =>
    match s !! l with
    | Some o => (Ok o, s)
    | None => (Throw typeError, s)
    end.

(** The object at [l] is replaced: a mutation. *)
Definition write (l : loc) (o : object) : M unit :=
  fun s => (Ok tt, <[l := o]> s).

Definition loadWorkBook (l : loc) : M WorkBook :=
  let! o := load l in match o with OWorkBook wb => ret wb | _ => throw typeError end.

Definition loadSheet (l : loc) : M WorkSheet :=
  let! o := load l in match o with OSheet ws => ret ws | _ => throw typeError end.

Definition loadRows (l : loc) : M (list Row) :=
  let! o := load l in match o with ORows rows => ret rows | _ => throw typeError end.

Definition loadNicknames (l : loc) : M (list NicknameWithLine) :=
  let! o := load l in match o with ONicknames entries => ret entries | _ => throw typeError end.

Definition loadNameMap (l : loc) : M (gmap string string) :=
  let! o := load l in match o with ONameMap mapping => ret mapping | _ => throw typeError end.

(** [array.push(row)] *)
Definition push (array : loc) (row : Row) : M unit :=
  let! rows := loadRows array in write array (ORows (rows ++ [row])).

(** [array.sort(compareFn)], in place. *)
Definition sort (array : loc) (compareFn : Row -> Row -> number) : M unit :=
  let! rows := loadRows array in write array (ORows (ArraySort.sort compareFn rows)).

(** [XLSX.utils.book_append_sheet(wb, ws, name)]: [wb] is mutated. *)
Definition book_append_sheet (wb ws : loc) (name : string) : M unit :=
  let! book := loadWorkBook wb in
  let! sheet := loadSheet ws in
  write wb (OWorkBook (ExcelUtils.book_append_sheet book sheet name)).

(** [rows.forEach(body)] *)
Fixpoint forEach {A : Type} (rows : list A) (body : A -> M unit) : M unit :=
  match rows with
  | [] => ret tt
  | row :: rest => do! body row in forEach rest body
  end.

(** The body of the scan over [dataWithoutFirstThreeRows]. *)
Definition classifyRow (nicknames nameMapping positiveData negativeData : loc) (row : Row)
  : M unit :=
  let! entries := loadNicknames nicknames in
  match ExcelUtils.matchingNickname entries row with
  | Some m =>
      let! mapping := loadNameMap nameMapping in
      let rowData := ExcelUtils.rowData mapping row m in
      if Num.geb (ExcelUtils.profitLoss row m) Num.zero
      then push positiveData rowData
      else push negativeData rowData
  | None => ret tt
  end.

Definition filterWorkbookByNicknames (workbook nicknames nameMapping : loc) : M loc :=
  let! newWorkbook := alloc (OWorkBook ExcelUtils.book_new) in
  let! wb := loadWorkBook workbook in
  if negb (Val.includes (SheetNames wb) ExcelUtils.targetSheetName) then
    throw ExcelUtils.targetSheetNotFound
  else
    let! jsonData := alloc (ORows (ExcelUtils.sheet_to_json wb ExcelUtils.targetSheetName)) in
    let! entries := loadNicknames nicknames in
    match entries with
    | [] =>
        let! emptySheet := alloc (OSheet (ExcelUtils.aoa_to_sheet [])) in
        do! book_append_sheet newWorkbook emptySheet ExcelUtils.targetSheetName in
        ret newWorkbook
    | _ =>
        let! rows := loadRows jsonData in
        let! dataWithoutFirstThreeRows := alloc (ORows (drop 3 rows)) in
        let! positiveData := alloc (ORows []) in
        let! negativeData := alloc (ORows []) in
        let! scanned := loadRows dataWithoutFirstThreeRows in
        do! forEach scanned (classifyRow nicknames nameMapping positiveData negativeData) in
        do! sort positiveData ExcelUtils.byProfitLoss in
        do! sort negativeData ExcelUtils.byProfitLoss in
        let! positive := loadRows positiveData in
        let! negative := loadRows negativeData in
        let! combinedData := alloc (ORows (ExcelUtils.combinedData positive negative)) in
        let! combined := loadRows combinedData in
        let! newWorksheet := alloc (OSheet (ExcelUtils.aoa_to_sheet combined)) in
        do! book_append_sheet newWorkbook newWorksheet ExcelUtils.targetSheetName in
        ret newWorkbook
    end.

End Store.

(* ===================================================================== *)
(** ** Vocabulary of the properties *)
(* ===================================================================== *)

Import NicknameInput ExcelUtils.

(** *** Texts *)

(** The character [c] occurs in [s]. *)
Fixpoint hasChar (c : ascii) (s : string) : bool :=
  match s with
  | EmptyString => false
  | String x s' => Ascii.eqb x c || hasChar c s'
  end.

(** The text of [s] before its first [c], all of [s] if there is none. *)
Fixpoint upTo (c : ascii) (s : string) : string :=
  match s with
  | EmptyString => EmptyString
  | String x s' => if Ascii.eqb x c then EmptyString else String x (upTo c s')
  end.

(** Nothing but white space. *)
Fixpoint allWhite (s : string) : bool :=
  match s with
  | EmptyString => true
  | String c s' => Js.isWhiteSpace c && allWhite s'
  end.

(** Every character of [s] passes the test [p]. *)
Fixpoint allChars (p : ascii -> bool) (s : string) : bool :=
  match s with
  | EmptyString => true
  | String c s' => p c && allChars p s'
  end.

(** Neither white space nor a slash nor a comma. *)
Definition plainChar (c : ascii) : bool :=
  negb (Js.isWhiteSpace c) && negb (Ascii.eqb c "/") && negb (Ascii.eqb c ",").

Definition isDigit (c : ascii) : bool :=
  match Conv.digitOf c with Some _ => true | None => false end.

(** A character at which reading a number stops: white space or a
    slash. *)
Definition isStopper (c : ascii) : bool := Js.isWhiteSpace c || Ascii.eqb c "/".

(** The text is empty or begins with such a character. *)
Definition stops (v : string) : bool :=
  match v with
  | EmptyString => true
  | String c _ => isStopper c
  end.

(** [t] occurs in [s] as a contiguous substring. *)
Definition isSubstring (t s : string) : Prop := exists a b, s = a +:+ t +:+ b.

(** *** Numbers as text *)

(** The value of a run of decimal digits read after [acc]. *)
Fixpoint uintValue (d : Decimal.uint) (acc : Z) : Z :=
  match d with
  | Decimal.Nil => acc
  | Decimal.D0 l => uintValue l (10 * acc + 0)
  | Decimal.D1 l => uintValue l (10 * acc + 1)
  | Decimal.D2 l => uintValue l (10 * acc + 2)
  | Decimal.D3 l => uintValue l (10 * acc + 3)
  | Decimal.D4 l => uintValue l (10 * acc + 4)
  | Decimal.D5 l => uintValue l (10 * acc + 5)
  | Decimal.D6 l => uintValue l (10 * acc + 6)
  | Decimal.D7 l => uintValue l (10 * acc + 7)
  | Decimal.D8 l => uintValue l (10 * acc + 8)
  | Decimal.D9 l => uintValue l (10 * acc + 9)
  end.

(** The decimal digits of a natural number. *)
Definition digitsOf (n : Z) : Decimal.uint :=
  match n with
  | Zpos p => Pos.to_uint p
  | _ => Decimal.D0 Decimal.Nil
  end.

(** The texts that [Number::toString] writes for a positive number:
    [w1 + 1] digits, then possibly a point and [w2 + 1] digits, then
    possibly an exponent. *)
Definition decimalText (w1 : nat) (z1 : Z) (frac : option (nat * Z)) (ex : option Z) : string :=
  Conv.fixedDigits (S w1) z1 +:+
  (match frac with
   | Some (w2, z2) => String "." (Conv.fixedDigits (S w2) z2)
   | None => ""
   end +:+
   match ex with
   | Some e => Conv.exponentPart e
   | None => ""
   end).

(** Following the specification: the decimal value of a line spec, the
    trimmed text with its first comma replaced by a period, read as a
    decimal number. *)
Definition parseDecimal (s : string) : number :=
  Conv.parseFloat (Js.replace "," "." (Js.trim s)).

(** *** Entries *)

(** What [parseLine] pushes for a line, as a list of no or one entry. *)
Definition entryOf (ln : string) : list NicknameWithLine := parseLine [] ln.

(** A nickname as the parser produces them: not empty, no white space
    at either end, no slash and no line break. *)
Definition cleanNickname (n : string) : Prop :=
  nonEmpty n = true /\ Js.trimStart n = n /\ Js.trimEnd n = n /\
  hasChar "/" n = false /\ hasChar "010" n = false.

(** A line that is absent or a number other than NaN. *)
Definition numericLine (l : option number) : Prop :=
  match l with
  | Some x => Num.isNaN x = false
  | None => True
  end.

(** The line that comes back when [x] is written by the formatter and
    read by the parser: [x / 1000], then [* 1000], each a double. *)
Definition rewritten (x : number) : number := Num.mulPos (Num.divPos x 1000) 1000.

(** The entry that comes back: the same nickname, the line rewritten. *)
Definition readBack (e : NicknameWithLine) : NicknameWithLine :=
  mkNickname (nickname e) (rewritten <$> line e).

(** A line that is absent, infinite, or a whole multiple of 1000 of
    magnitude at most [2^53]. *)
Definition evenLine (l : option number) : Prop :=
  match l with
  | None => True
  | Some NaN => False
  | Some (Infinity _) => True
  | Some (Finite q) => exists k : Z, q = inject_Z (1000 * k) /\ Z.abs (1000 * k) <= 2 ^ 53
  end.

(** [q'] is [q] up to the precision of a double, two roundings apart:
    within the fraction [2^-51] of [q]. *)
Definition withinPrecision (q' q : Q) : Prop :=
  (Qabs (q' - q) <= Qabs q * Num.pow2 (-51))%Q.

(** *** Matching and buckets *)

(** Following the specification: the lowercased text of the cell at
    column index 10, and the match rule, the entry's lowercased nickname
    is a substring of that text. *)
Definition columnText (row : Row) : string :=
  Js.toLowerCase (Val.toString (Val.cell row 10)).

Definition textMatches (row : Row) (n : NicknameWithLine) : Prop :=
  isSubstring (Js.toLowerCase (nickname n)) (columnText row).

(** The output row of a source row, if it has one. *)
Definition outputRow (nicknames : list NicknameWithLine) (nameMapping : gmap string string)
    (row : Row) : option Row :=
  rowData nameMapping row <$> matchingNickname nicknames row.

(** The output rows in the order in which the scan meets their source
    rows. *)
Definition matchedRows (nicknames : list NicknameWithLine)
    (nameMapping : gmap string string) (data : list Row) : list Row :=
  omap (outputRow nicknames nameMapping) data.

(** The profit/loss an output row carries. *)
Definition profitOf (r : Row) : number := Val.toNumber (Val.cell r 5).

Definition nonNegative (r : Row) : bool := Num.geb (profitOf r) Num.zero.

(** A number that, when finite, is an integer, as a rounded profit/loss
    is. *)
Definition wholeKey (x : number) : Prop := Num.isFinite x = true -> Num.isInteger x.

(** [(a, b) => key(b) - key(a)] *)
Definition descending {A : Type} (key : A -> number) (a b : A) : number :=
  Num.sub (key b) (key a).

(** [x] may stand before [y] in a list sorted highest first. *)
Definition notBelow {A : Type} (key : A -> number) (x y : A) : Prop :=
  Num.geb (key x) (key y) = true.

(** The elements whose key equals [v], in list order. *)
Definition withKey {A : Type} (key : A -> number) (v : number) (l : list A) : list A :=
  List.filter (fun x => Num.eqb (key x) v) l.

(** [positiveData] and [negativeData] after the two [sort] calls. *)
Definition sortedPositive (nicknames : list NicknameWithLine)
    (nameMapping : gmap string string) (jsonData : list Row) : list Row :=
  ArraySort.sort byProfitLoss (classified nicknames nameMapping jsonData).1.

Definition sortedNegative (nicknames : list NicknameWithLine)
    (nameMapping : gmap string string) (jsonData : list Row) : list Row :=
  ArraySort.sort byProfitLoss (classified nicknames nameMapping jsonData).2.

(** *** The written sheet *)

(** The sheet written under the target name, when the call returns. *)
Definition writtenSheet (r : result WorkBook) : option WorkSheet :=
  match r with
  | Ok out => Sheets out !! targetSheetName
  | Throw _ => None
  end.

Definition blankRow5 : Row := [blank; blank; blank; blank; blank].

(** One transfer sub-table: its header row and ten blank data rows. *)
Definition transferTable : list Row := transferTableHeaders :: replicate 10 blankRow5.

(** The main table: header, positive rows, two blank rows, header again,
    negative rows. *)
Definition mainTable (positiveData negativeData : list Row) : list Row :=
  headers :: positiveData ++ [[]; []] ++ headers :: negativeData.

(** A five-column row whose first cell reads Avsender. *)
Definition isTransferHeader (r : Row) : bool :=
  Nat.eqb (length r) 5 &&
  match r with
  | VString s :: _ => String.eqb s "Avsender"
  | _ => false
  end.

(** *** Sample data *)

(** A row with the given cells in columns K and L, and a
    workbook whose target sheet has three header rows and then [rows]. *)
Definition rowKL (k l : value) : Row := replicate 10 blank ++ [k; l].

Definition bookOf (rows : list Row) : WorkBook :=
  mkWorkBook [targetSheetName] {[ targetSheetName := [[]; []; []] ++ rows ]}.

(** *** Computations on the store *)

(** [Q] holds of the outcome of [m] run on [s] and of the store it
    leaves. *)
Definition wp {A : Type} (m : Store.M A) (s : gmap positive Store.object)
    (Q : result A -> gmap positive Store.object -> Prop) : Prop :=
  Q (m s).1 (m s).2.

(* ===================================================================== *)
(** ** The conversions and the two components on examples *)
(* ===================================================================== *)


(* ===================================================================== *)
(** ** utils/excelUtils.ts: the styling loop of [downloadExcelFile] *)
(* ===================================================================== *)

(** [data] is the first sheet of the workbook as [sheet_to_json] reads
    it; row and column numbers of the written sheet are those of [data],
    columns counted from 1 as [colNumber] is. *)
Module Download.

(** [const sheetName = workbook.SheetNames[0]] and the rows that
    [sheet_to_json] reads from that sheet; a workbook without sheets
    reads as no rows. *)
Definition data (workbook : WorkBook) : list Row :=
  match SheetNames workbook with
  | sheetName :: _ => ExcelUtils.sheet_to_json workbook sheetName
  | [] => []
  end.

(** [row.length > 0 && row[0] === text] *)
Definition startsWith (row : Row) (text : string) : bool :=
  match row with
  | VString s :: _ => String.eqb s text
  | _ => false
  end.

(** [rowIndex === 0 || (row.length > 0 && row[0] === 'Nickname') ||
     (row.length > 0 && row[0] === 'Avsender')] *)
Definition isHeaderRow (rowIndex : nat) (row : Row) : bool :=
  Nat.eqb rowIndex 0 || startsWith row "Nickname" || startsWith row "Avsender".

(** [data.forEach((r, idx) => { if (r.length > 0 && r[0] === 'Avsender')
     transferTableIndices.push(idx) })], for the rows from [idx] on. *)
Fixpoint indicesFrom (idx : nat) (data : list Row) : list nat :=
  match data with
  | [] => []
  | r :: rest =>
      if startsWith r "Avsender" then idx :: indicesFrom (S idx) rest
      else indicesFrom (S idx) rest
  end.

Definition transferTableIndices (data : list Row) : list nat := indicesFrom 0 data.

(** [transferTableIndices.forEach(startIdx => { if (rowIndex >= startIdx
     && rowIndex < startIdx + 11) isTransferTableRow = true })] *)
Definition isTransferTableRow (transferTableIndices : list nat) (rowIndex : nat) : bool :=
  fold_left
    (fun isTransferTableRow startIdx =>
       if Nat.leb startIdx rowIndex && Nat.ltb rowIndex (startIdx + 11) then true
       else isTransferTableRow)
    transferTableIndices false.

(** [transferTableIndices.length > 0 ? transferTableIndices[0] : -1] *)
Definition firstTransferTableIndex (transferTableIndices : list nat) : Z :=
  match transferTableIndices with
  | first :: _ => Z.of_nat first
  | [] => -1
  end.

(** The second [forEach] over the table starts: a row from
    [startIdx + 11] up to the next start sets the flag. *)
Fixpoint betweenTables (transferTableIndices : list nat) (rowIndex : nat)
    (isSeparatorRow : bool) : bool :=
  match transferTableIndices with
  | startIdx :: (nextTableStart :: _) as rest =>
      betweenTables rest rowIndex
        (if Nat.leb (startIdx + 11) rowIndex && Nat.ltb rowIndex nextTableStart then true
         else isSeparatorRow)
  | _ => isSeparatorRow
  end.

Definition isSeparatorRow (transferTableIndices : list nat) (rowIndex : nat) : bool :=
  let first := firstTransferTableIndex transferTableIndices in
  betweenTables transferTableIndices rowIndex
    (negb (first =? -1) && (first - 2 <=? Z.of_nat rowIndex) && (Z.of_nat rowIndex <? first)).

Definition mainTableColumnCount : nat := 12.
Definition transferTableColumnCount : nat := 5.

(** What the loop leaves on a cell: a thin border on all four sides or
    none, the bold header font, the solid header fill. *)
Record CellStyle : Type := mkStyle {
  thinBorder : bool;
  boldFont : bool;
  solidFill : bool
}.

(** [cell.border = {}; cell.fill = null] *)
Definition cleared : CellStyle := mkStyle false false false.

(** The thin border, with font and fill on a header row. *)
Definition bordered (isHeaderRow : bool) : CellStyle := mkStyle true isHeaderRow isHeaderRow.

(** The chain of [if]s in the loop over [colNumber]. *)
Definition cellStyle (isSeparatorRow isTransferTableRow isHeaderRow : bool) (colNumber : nat)
  : CellStyle :=
  if isSeparatorRow then cleared
  else if isTransferTableRow && Nat.leb colNumber transferTableColumnCount then
    bordered isHeaderRow
  else if isTransferTableRow && Nat.ltb transferTableColumnCount colNumber then cleared
  else if negb isSeparatorRow && negb isTransferTableRow
          && Nat.leb colNumber mainTableColumnCount then
    bordered isHeaderRow
  else if negb isSeparatorRow && negb isTransferTableRow
          && Nat.ltb mainTableColumnCount colNumber then cleared
  else mkStyle false false false.

(** The style of the cell in row [rowIndex] (from 0), column [colNumber]
    (from 1). *)
Definition styleAt (data : list Row) (rowIndex colNumber : nat) : CellStyle :=
  let row := nth rowIndex data [] in
  let indices := transferTableIndices data in
  cellStyle (isSeparatorRow indices rowIndex) (isTransferTableRow indices rowIndex)
            (isHeaderRow rowIndex row) colNumber.

(** What the browser is handed when the function returns: the name of
    the file, the rows of its one sheet and the widths of its columns;
    the style of a cell is [styleAt] of the rows. *)
Record File : Type := mkFile {
  filename : string;
  sheet : list Row;
  widths : list nat
}.

(** The error of [excelWorksheet.columns.forEach] when the sheet has no
    column. *)
Definition columnsNull : string := "TypeError: excelWorksheet.columns is null".

(** [downloadExcelFile(workbook, filename)].  The columns of the ExcelJS
    sheet come into being with the cells that the styling loop touches,
    at least 20 in every row; without a row there is no cell,
    [excelWorksheet.columns] is [null] and the auto-fit throws before
    anything is written. *)
Definition downloadExcelFile (workbook : WorkBook) (filename : string) : result File :=
  match data workbook with
  | [] => Throw columnsNull
  | rows => Ok (mkFile filename rows (ExcelUtils.columnWidths rows))
  end.

End Download.

(* ===================================================================== *)
(** ** App.tsx: the handlers of the application state *)
(* ===================================================================== *)

(** The [useState] cells of [App] as one record, each handler as the
    state it leaves.  Reading a file is asynchronous: the part of
    [handleFileUpload] before the [await] and the part after it are two
    steps, the second with the outcome of [readExcelFile].  Alerts and
    console output are left out. *)
Module App.

Record State : Type := mkState {
  file : option string;
  workbook : option WorkBook;
  nameMapping : gmap string string;
  filteredWorkbook : option WorkBook;
  isProcessing : bool;
  isFiltered : bool;
  nicknames : list NicknameWithLine
}.

Definition initial : State := mkState None None ∅ None false false [].

Definition setFile (v : option string) (s : State) : State :=
  mkState v (workbook s) (nameMapping s) (filteredWorkbook s) (isProcessing s)
          (isFiltered s) (nicknames s).

Definition setWorkbook (v : option WorkBook) (s : State) : State :=
  mkState (file s) v (nameMapping s) (filteredWorkbook s) (isProcessing s)
          (isFiltered s) (nicknames s).

Definition setNameMapping (v : gmap string string) (s : State) : State :=
  mkState (file s) (workbook s) v (filteredWorkbook s) (isProcessing s)
          (isFiltered s) (nicknames s).

Definition setFilteredWorkbook (v : option WorkBook) (s : State) : State :=
  mkState (file s) (workbook s) (nameMapping s) v (isProcessing s)
          (isFiltered s) (nicknames s).

Definition setIsProcessing (v : bool) (s : State) : State :=
  mkState (file s) (workbook s) (nameMapping s) (filteredWorkbook s) v
          (isFiltered s) (nicknames s).

Definition setIsFiltered (v : bool) (s : State) : State :=
  mkState (file s) (workbook s) (nameMapping s) (filteredWorkbook s) (isProcessing s)
          v (nicknames s).

Definition setNicknames (v : list NicknameWithLine) (s : State) : State :=
  mkState (file s) (workbook s) (nameMapping s) (filteredWorkbook s) (isProcessing s)
          (isFiltered s) v.

(** [handleFileUpload] up to the [await]: the file name is [uploadedFile]. *)
Definition handleFileUploadStart (uploadedFile : string) (s : State) : State :=
  setFilteredWorkbook None (setIsFiltered false (setFile (Some uploadedFile) s)).

(** [handleFileUpload] after the [await], with what [readExcelFile]
    resolved to or that it rejected. *)
Definition handleFileUploadDone (read : result WorkBook) (s : State) : State :=
  match read with
  | Ok wb => setWorkbook (Some wb) s
  | Throw _ => s
  end.

(** The name file, loaded on mount or chosen by the user:
    [setNameMapping(await readNameFile(file))] inside [try]. *)
Definition handleNameFile (read : result WorkBook) (s : State) : State :=
  match read with
  | Ok wb =>
      match ExcelUtils.readNameFile wb with
      | Ok mapping => setNameMapping mapping s
      | Throw _ => s
      end
  | Throw _ => s
  end.

(** [NicknameInput]'s [handleTextChange], as far as [App] sees it:
    [onNicknamesChange(parseNicknameText(newText))]. *)
Definition handleTextChange (newText : string) (s : State) : State :=
  setNicknames (NicknameInput.parseNicknameText newText) s.

Definition handleFilter (s : State) : State :=
  match workbook s with
  | None => s
  | Some wb =>
      let s1 := setIsProcessing true s in
      let s2 :=
        match ExcelUtils.filterWorkbookByNicknames wb (nicknames s1) (nameMapping s1) with
        | Ok filtered => setIsFiltered true (setFilteredWorkbook (Some filtered) s1)
        | Throw _ => s1
        end in
      setIsProcessing false s2
  end.

(** The button Filter Again. *)
Definition filterAgain (s : State) : State :=
  setFilteredWorkbook None (setIsFiltered false s).

Definition matchesExcelSuffix (rest : string) : bool :=
  String.eqb (Js.toLowerCase rest) ".xlsx" || String.eqb (Js.toLowerCase rest) ".xls".

(** [name.replace(/\.xlsx?$/i, '')]: the text from the first position at
    which the pattern matches up to the end is removed. *)
Fixpoint stripExcelSuffix (name : string) : string :=
  if matchesExcelSuffix name then EmptyString
  else match name with
       | EmptyString => EmptyString
       | String c rest => String c (stripExcelSuffix rest)
       end.

(** [file?.name.replace(/\.xlsx?$/i, '') || 'filtered'] *)
Definition originalName (file : option string) : string :=
  match file with
  | Some name =>
      match stripExcelSuffix name with
      | EmptyString => "filtered"
      | base => base
      end
  | None => "filtered"
  end.

(** [handleDownload]: nothing without a filtered workbook, else the
    outcome of [downloadExcelFile] on it, the file that is offered or the
    error that is thrown. *)
Definition handleDownload (s : State) : option (result Download.File) :=
  match filteredWorkbook s with
  | None => None
  | Some wb =>
      Some (Download.downloadExcelFile wb (originalName (file s) +:+ "_filtered.xlsx"))
  end.

Inductive action : Type :=
  | FileChosen (uploadedFile : string)
  | FileRead (read : result WorkBook)
  | NameFileRead (read : result WorkBook)
  | TextChanged (newText : string)
  | FilterClicked
  | FilterAgainClicked.

Definition step (s : State) (a : action) : State :=
  match a with
  | FileChosen uploadedFile => handleFileUploadStart uploadedFile s
  | FileRead read => handleFileUploadDone read s
  | NameFileRead read => handleNameFile read s
  | TextChanged newText => handleTextChange newText s
  | FilterClicked => handleFilter s
  | FilterAgainClicked => filterAgain s
  end.

(** The state after a sequence of events, from the initial state. *)
Definition run (events : list action) : State := fold_left step events initial.

End App.

(* ===================================================================== *)
(** ** Vocabulary for the name file, the styles and the application *)
(* ===================================================================== *)

(** *** Parsed text *)

Definition hasLine (e : NicknameWithLine) : bool :=
  match line e with
  | Some _ => true
  | None => false
  end.

(** The text before the first slash of a line is not blank. *)
Definition namesPlayer (ln : string) : bool := negb (allWhite (upTo "/" ln)).

(** The same nickname, and a line on both sides or on neither. *)
Definition samePlayer (a b : NicknameWithLine) : Prop :=
  nickname a = nickname b /\ hasLine a = hasLine b.

(** *** The name file *)

(** [row['Nick'] || row['nick'] || row['NICK']], and the same for the
    name. *)
Definition nickOf (row : gmap string value) : value :=
  Val.or (Val.or (field row "Nick") (field row "nick")) (field row "NICK").

Definition nameOf (row : gmap string value) : value :=
  Val.or (Val.or (field row "Name") (field row "name")) (field row "NAME").

(** The row has both a nick and a name. *)
Definition namesNick (row : gmap string value) : bool :=
  Val.truthy (nickOf row) && Val.truthy (nameOf row).

(** The key under which the name of the row is stored. *)
Definition nickKey (row : gmap string value) : string :=
  Js.toLowerCase (Val.toString (nickOf row)).

(** The rows that store a name under the key [k], in sheet order. *)
Definition rowsFor (k : string) (jsonData : list (gmap string value))
  : list (gmap string value) :=
  List.filter (fun row => namesNick row && String.eqb (nickKey row) k) jsonData.

(** The row objects of the name sheet. *)
Definition nameRows (workbook : WorkBook) : list (gmap string value) :=
  sheet_to_json_objects (sheet_to_json workbook nameSheetName).

(** A name file with two rows for the same nick in different case, a
    row without a name and a row without a nick. *)
Definition nameBook : WorkBook :=
  mkWorkBook [nameSheetName]
    {[ nameSheetName :=
         [ [VString "Nick"; VString "Name"];
           [VString "Gus"; VString "Gustav"];
           [VString "febe"; VString ""];
           [VString ""; VString "Nobody"];
           [VString "GUS"; VString "Gustavo"] ] ]}.

(** *** Entries in lower case *)

(** The entry with its nickname in lower case. *)
Definition lowerEntry (e : NicknameWithLine) : NicknameWithLine :=
  mkNickname (Js.toLowerCase (nickname e)) (line e).

(** *** The styled sheet *)

(** The row index of the first transfer header in a sheet with
    [matched] data rows; the other two follow 13 and 26 rows later. *)
Definition firstTable (matched : nat) : nat := 14 + matched.

(** The rows of the three transfer tables, headers included. *)
Definition inTransferTable (matched rowIndex : nat) : Prop :=
  (firstTable matched <= rowIndex < firstTable matched + 11)%nat \/
  (firstTable matched + 13 <= rowIndex < firstTable matched + 24)%nat \/
  (firstTable matched + 26 <= rowIndex < firstTable matched + 37)%nat.

(** No cell of column K in the rows reads Avsender. *)
Definition noTransferName (rows : list Row) : Prop :=
  Forall (fun row => Val.cell row 10 <> VString "Avsender") rows.

(** The rows below the main table: ten blank rows and the three
    transfer tables with two blank rows between them. *)
Definition belowMain : list Row :=
  replicate 10 [] ++ transferTable ++ [[]; []] ++ transferTable ++ [[]; []] ++ transferTable.

(** The two rows above each of the three transfer tables. *)
Definition aboveTransferTable (matched rowIndex : nat) : Prop :=
  (firstTable matched <= rowIndex + 2 /\ rowIndex < firstTable matched)%nat \/
  (firstTable matched + 11 <= rowIndex < firstTable matched + 13)%nat \/
  (firstTable matched + 24 <= rowIndex < firstTable matched + 26)%nat.

(** The header rows of the three transfer tables. *)
Definition transferHeaderRow (matched rowIndex : nat) : Prop :=
  rowIndex = firstTable matched \/ rowIndex = (firstTable matched + 13)%nat \/
  rowIndex = (firstTable matched + 26)%nat.

(** *** The application *)

(** What holds of the state of [App] between two events. *)
Definition consistent (s : App.State) : Prop :=
  App.isProcessing s = false /\
  (App.isFiltered s = true <-> is_Some (App.filteredWorkbook s)) /\
  (forall out, App.filteredWorkbook s = Some out -> SheetNames out = [targetSheetName]) /\
  Forall (fun e => cleanNickname (nickname e) /\ numericLine (line e)) (App.nicknames s).

(** A workbook with the target sheet loaded from the file a.xlsx, and
    the nickname gus typed. *)
Definition loadedState : App.State :=
  App.run [App.FileChosen "a.xlsx";
           App.FileRead (Ok (bookOf [rowKL (VString "Gus") (VNumber (Finite (7 # 1)))]));
           App.TextChanged "gus"].
Example parseFloat_5 : Conv.parseFloat "5" = Finite (5 # 1).
Proof. by vm_compute. Qed.

(** 4.728 is not a double; the text reads as the double next to it. *)
Example parseFloat_4_728 :
  Conv.parseFloat "4.728" = Finite (2661627379775963 # 562949953421312) /\
  Conv.parseFloat "4.728" = Num.round (591 # 125).
Proof. split; by vm_compute. Qed.

Example parseFloat_prefix : Conv.parseFloat " 12.5e1abc" = Finite (125 # 1).
Proof. by vm_compute. Qed.

Example parseFloat_garbage : Conv.parseFloat "garbage" = NaN.
Proof. reflexivity. Qed.

Example parseFloat_dot : Conv.parseFloat "." = NaN.
Proof. reflexivity. Qed.

Example parseFloat_neg : Conv.parseFloat "-.5" = Finite (-1 # 2).
Proof. by vm_compute. Qed.

Example parseFloat_overflow : Conv.parseFloat "1e400" = Infinity false.
Proof. by vm_compute. Qed.

Example stringToNumber_blank : Conv.stringToNumber "" = Finite 0.
Proof. reflexivity. Qed.

Example stringToNumber_text : Conv.stringToNumber "abc" = NaN.
Proof. reflexivity. Qed.

Example stringToNumber_trailing : Conv.stringToNumber "12abc" = NaN.
Proof. reflexivity. Qed.

Example stringToNumber_radix :
  Conv.stringToNumber "0x1F" = Finite (31 # 1) /\
  Conv.stringToNumber " 0b101 " = Finite (5 # 1) /\
  Conv.stringToNumber "0o17" = Finite (15 # 1) /\
  Conv.stringToNumber "0x" = NaN /\ Conv.stringToNumber "-0x10" = NaN.
Proof. repeat split; by vm_compute. Qed.

(** The product of two doubles is rounded: 2.01 * 1000 is not 2010. *)
Example product_is_rounded :
  Num.mulPos (Conv.parseFloat "2.01") 1000
    = Finite (8840073487319039 # 4398046511104) /\
  Conv.numberToString (Num.mulPos (Conv.parseFloat "2.01") 1000) = "2009.9999999999998" /\
  Num.eqb (Num.mulPos (Conv.parseFloat "2.01") 1000) (Finite (2010 # 1)) = false.
Proof. repeat split; by vm_compute. Qed.

Example numberToString_int : Conv.numberToString (Finite (-272 # 1)) = "-272".
Proof. by vm_compute. Qed.

Example numberToString_frac :
  Conv.numberToString (Conv.parseFloat "4.728") = "4.728" /\
  Conv.numberToString (Finite (1 # 10)) = "0.1" /\
  Conv.numberToString (Num.sub (Conv.parseFloat "0.3") (Conv.parseFloat "0.1"))
    = "0.19999999999999998".
Proof. repeat split; by vm_compute. Qed.

Example numberToString_zero : Conv.numberToString (Finite 0) = "0".
Proof. reflexivity. Qed.

Example numberToString_exponent :
  Conv.numberToString (Finite (inject_Z (10 ^ 21))) = "1e+21" /\
  Conv.numberToString (Finite (inject_Z (10 ^ 20))) = "100000000000000000000" /\
  Conv.numberToString (Finite (1 # 1000000)) = "0.000001" /\
  Conv.numberToString (Finite (15 # 100000000)) = "1.5e-7" /\
  Conv.numberToString (Finite (Num.pow2 (-1074))) = "5e-324" /\
  Conv.numberToString (Finite (inject_Z 9007199254740993)) = "9007199254740992".
Proof. repeat split; by vm_compute. Qed.

Example parse_doc_examples :
  NicknameInput.parseNicknameText
    ("gus" +:+ NicknameInput.newline +:+ "gus/5" +:+ NicknameInput.newline +:+
     " gus / 4,5 " +:+ NicknameInput.newline +:+ NicknameInput.newline +:+ "n/garbage")
  = [ mkNickname "gus" None;
      mkNickname "gus" (Some (Finite (5000 # 1)));
      mkNickname "gus" (Some (Finite (4500 # 1)));
      mkNickname "n" None ].
Proof. by vm_compute. Qed.

Example parse_empty : NicknameInput.parseNicknameText "" = [].
Proof. reflexivity. Qed.

Example format_5000 :
  NicknameInput.formatNicknamesAsText [mkNickname "gus" (Some (Finite (5000 # 1)))] = "gus/5".
Proof. reflexivity. Qed.

Example format_4728 :
  NicknameInput.formatNicknamesAsText [mkNickname "gus" (Some (Finite (4728 # 1)))] = "gus/4.728".
Proof. reflexivity. Qed.

Example substring_match_positive :
  classifyRow [mkNickname "gus" None] ∅ ([], [])
              (rowKL (VString "gustav99") (VNumber (Finite (5000 # 1))))
  = ([[VString "gustav99"; VString ""; VString ""; VNumber (Finite (5000 # 1));
       VString "No"; VNumber (Finite (5000 # 1));
       VString ""; VString ""; VString ""; VString ""; VString "";
       VString "Hei🙂 Saldo er 5000, hva vil du gjøre?"]], []).
Proof. reflexivity. Qed.

Example name_resolution_fallback :
  realName {[ "gus" := "Gustav A" ]} (rowKL (VString "GUS77") (VString ""))
           (mkNickname "Gus" None) = "Gustav A"
  /\ realName {[ "gus77" := "Gustav B"; "gus" := "Gustav A" ]}
              (rowKL (VString "GUS77") (VString "")) (mkNickname "Gus" None) = "Gustav B".
Proof. split; reflexivity. Qed.

Example truncation_toward_zero :
  roundTowardZero (Finite (7 # 2)) = Finite (3 # 1) /\
  roundTowardZero (Finite (-7 # 2)) = Finite (-3 # 1) /\
  roundTowardZero NaN = NaN.
Proof. repeat split. Qed.

Example column_K_of_zero :
  columnK (rowKL (VNumber (Finite 0)) (VString "")) = "" /\
  columnK (rowKL (VNumber (Finite (7 # 1))) (VString "")) = "7".
Proof. split; reflexivity. Qed.

(** The message has 35 code units: the emoji counts two, the letter
    outside ASCII one. *)
Example message_length :
  columnLength (VString "Hei🙂 Saldo er 7, hva vil du gjøre?") = 35%nat /\
  columnWidth [VString "Hei🙂 Saldo er 7, hva vil du gjøre?"; blank] = 37%nat.
Proof. split; reflexivity. Qed.

(* ===================================================================== *)
(** ** Facts about the string operations *)
(* ===================================================================== *)

Section StringFacts.

Lemma app_cons (c : ascii) (a b : string) : String c a +:+ b = String c (a +:+ b).
Proof. reflexivity. Qed.

Lemma app_empty_l (b : string) : "" +:+ b = b.
Proof. reflexivity. Qed.

Lemma app_empty_r (a : string) : a +:+ "" = a.
Proof. induction a as [|c a IH]; [reflexivity|]. rewrite app_cons. by f_equal. Qed.

Lemma app_assoc_str (a b c : string) : (a +:+ b) +:+ c = a +:+ (b +:+ c).
Proof.
  induction a as [|x a IH]; [reflexivity|]. rewrite !app_cons. by f_equal.
Qed.

Lemma app_eq_empty (a b : string) : a +:+ b = "" -> a = "" /\ b = "".
Proof. destruct a; [rewrite app_empty_l; auto | rewrite app_cons; discriminate]. Qed.

Lemma prefix_empty (s : string) : String.prefix "" s = true.
Proof. by destruct s. Qed.

Lemma prefix_spec (t s : string) :
  String.prefix t s = true <-> exists b, s = t +:+ b.
Proof.
  revert s. induction t as [|c t IH]; intros s.
  - rewrite prefix_empty. split; [intros _; exists s; reflexivity | reflexivity].
  - destruct s as [|x s]; simpl.
    + split; [discriminate | intros [b Hb]; rewrite app_cons in Hb; discriminate].
    + destruct (ascii_dec c x) as [->|Hne].
      * rewrite IH. split; intros [b Hb]; exists b.
        -- rewrite app_cons. by f_equal.
        -- rewrite app_cons in Hb. by injection Hb.
      * split; [discriminate|]. intros [b Hb]. rewrite app_cons in Hb.
        injection Hb as Hx _. congruence.
Qed.

(** [includes] is the substring test. *)
Lemma includes_spec (s t : string) :
  Js.includes s t = true <-> exists a b, s = a +:+ t +:+ b.
Proof.
  induction s as [|c s IH].
  - cbn [Js.includes]. rewrite orb_false_r, prefix_spec. split.
    + intros [b Hb]. exists "", b. exact Hb.
    + intros (a & b & Hab). symmetry in Hab.
      apply app_eq_empty in Hab as [-> Hab]. apply app_eq_empty in Hab as [-> ->].
      exists "". reflexivity.
  - cbn [Js.includes]. rewrite orb_true_iff, prefix_spec, IH. split.
    + intros [[b Hb] | (a & b & Hab)].
      * exists "", b. exact Hb.
      * exists (String c a), b. rewrite app_cons. by f_equal.
    + intros (a & b & Hab). destruct a as [|x a].
      * left. exists b. exact Hab.
      * right. rewrite app_cons in Hab. injection Hab as _ Hab. by exists a, b.
Qed.

Lemma includes_char (c : ascii) (s : string) :
  Js.includes s (String c "") = hasChar c s.
Proof.
  induction s as [|x s IH]; [reflexivity|].
  cbn [Js.includes hasChar String.prefix]. rewrite IH.
  destruct (ascii_dec c x) as [->|Hne].
  - rewrite Ascii.eqb_refl. by rewrite prefix_empty.
  - destruct (Ascii.eqb_spec x c); [congruence | reflexivity].
Qed.

Lemma hasChar_app (c : ascii) (a b : string) :
  hasChar c (a +:+ b) = hasChar c a || hasChar c b.
Proof.
  induction a as [|x a IH]; [reflexivity|].
  rewrite app_cons. simpl. rewrite IH. by rewrite orb_assoc.
Qed.

Lemma upTo_none (c : ascii) (s : string) : hasChar c s = false -> upTo c s = s.
Proof.
  induction s as [|x s IH]; [reflexivity|]. simpl.
  destruct (Ascii.eqb x c); [discriminate|]. intros H. by rewrite IH.
Qed.

Lemma split_head (c : ascii) (s : string) :
  exists rest, Js.split c s = upTo c s :: rest.
Proof.
  induction s as [|x s [rest IH]]; [by exists []|]. simpl.
  destruct (Ascii.eqb x c); [by eexists|]. rewrite IH. by eexists.
Qed.

Lemma split_no_sep (c : ascii) (s : string) :
  hasChar c s = false -> Js.split c s = [s].
Proof.
  induction s as [|x s IH]; [reflexivity|]. simpl.
  destruct (Ascii.eqb x c); [discriminate|]. intros H. by rewrite IH.
Qed.

(** Splitting at the first separator. *)
Lemma split_app (c : ascii) (a r : string) :
  hasChar c a = false ->
  Js.split c (a +:+ String c r) = a :: Js.split c r.
Proof.
  induction a as [|x a IH]; intros Ha.
  - rewrite app_empty_l. simpl. by rewrite Ascii.eqb_refl.
  - rewrite app_cons. simpl in *. destruct (Ascii.eqb x c); [discriminate|].
    by rewrite IH.
Qed.

End StringFacts.

(* ===================================================================== *)
(** ** Facts about trimming *)
(* ===================================================================== *)

Section TrimFacts.

Lemma trimStart_empty (s : string) : Js.trimStart s = "" <-> allWhite s = true.
Proof.
  induction s as [|c s IH]; [done|]. simpl.
  destruct (Js.isWhiteSpace c); simpl; [exact IH | split; discriminate].
Qed.

Lemma trimEnd_empty (s : string) : Js.trimEnd s = "" <-> allWhite s = true.
Proof.
  induction s as [|c s IH]; [done|]. simpl.
  destruct (Js.trimEnd s) eqn:E.
  - destruct (Js.isWhiteSpace c); simpl.
    + split; [intros _; by apply IH | done].
    + split; discriminate.
  - split; [discriminate|]. intros [_ H]%andb_true_iff. apply IH in H. discriminate.
Qed.

Lemma trimEnd_cons (c : ascii) (s : string) :
  Js.trimEnd (String c s) =
  if allWhite s then (if Js.isWhiteSpace c then "" else String c "")
  else String c (Js.trimEnd s).
Proof.
  simpl. destruct (allWhite s) eqn:E.
  - apply trimEnd_empty in E. by rewrite E.
  - destruct (Js.trimEnd s) eqn:E'; [|done].
    apply trimEnd_empty in E'. congruence.
Qed.

Lemma allWhite_app (a b : string) : allWhite (a +:+ b) = allWhite a && allWhite b.
Proof.
  induction a as [|c a IH]; [done|]. rewrite app_cons. simpl.
  by rewrite IH, andb_assoc.
Qed.

Lemma trim_white (s : string) : allWhite s = true -> Js.trim s = "".
Proof.
  intros H. unfold Js.trim. apply trimStart_empty in H. by rewrite H.
Qed.

Lemma trim_empty (s : string) : Js.trim s = "" <-> allWhite s = true.
Proof.
  split; [|apply trim_white]. unfold Js.trim. intros H.
  apply trimEnd_empty in H. induction s as [|c s IH]; [done|].
  simpl in *. destruct (Js.isWhiteSpace c) eqn:E; simpl; [auto|].
  simpl in H. by rewrite E in H.
Qed.

Lemma trimStart_app (a b : string) :
  allWhite a = false -> Js.trimStart (a +:+ b) = Js.trimStart a +:+ b.
Proof.
  induction a as [|c a IH]; [done|]. rewrite app_cons. simpl.
  destruct (Js.isWhiteSpace c); simpl; [exact IH | by rewrite app_cons].
Qed.

Lemma trimStart_white_app (a b : string) :
  allWhite a = true -> Js.trimStart (a +:+ b) = Js.trimStart b.
Proof.
  induction a as [|c a IH]; [done|]. rewrite app_cons. simpl.
  destruct (Js.isWhiteSpace c); simpl; [exact IH | discriminate].
Qed.

Lemma trimEnd_app (a b : string) :
  allWhite b = false -> Js.trimEnd (a +:+ b) = a +:+ Js.trimEnd b.
Proof.
  intros Hb. induction a as [|c a IH]; [done|].
  rewrite app_cons, trimEnd_cons, allWhite_app, Hb, andb_false_r, IH.
  by rewrite app_cons.
Qed.

Lemma trimStart_idem (s : string) : Js.trimStart (Js.trimStart s) = Js.trimStart s.
Proof.
  induction s as [|c s IH]; [done|]. simpl.
  destruct (Js.isWhiteSpace c) eqn:E; [exact IH|]. simpl. by rewrite E.
Qed.

Lemma trimEnd_allWhite (s : string) : allWhite (Js.trimEnd s) = allWhite s.
Proof.
  induction s as [|c s IH]; [done|]. rewrite trimEnd_cons. simpl.
  destruct (allWhite s) eqn:E.
  - destruct (Js.isWhiteSpace c) eqn:Ec; simpl; by rewrite ?Ec.
  - simpl. by rewrite IH, !andb_false_r.
Qed.

Lemma trimEnd_idem (s : string) : Js.trimEnd (Js.trimEnd s) = Js.trimEnd s.
Proof.
  induction s as [|c s IH]; [done|]. rewrite trimEnd_cons.
  destruct (allWhite s) eqn:E.
  - destruct (Js.isWhiteSpace c) eqn:Ec; simpl; by rewrite ?Ec.
  - rewrite trimEnd_cons, trimEnd_allWhite, E. by rewrite IH.
Qed.

Lemma trimStart_trimEnd (s : string) :
  Js.trimStart (Js.trimEnd s) = Js.trimEnd (Js.trimStart s).
Proof.
  induction s as [|c s IH]; [done|]. rewrite trimEnd_cons.
  destruct (allWhite s) eqn:E.
  - cbn [Js.trimStart]. destruct (Js.isWhiteSpace c) eqn:Ec.
    + apply trimStart_empty in E. by rewrite E.
    + cbn [Js.trimStart Js.trimEnd]. apply trimEnd_empty in E. by rewrite E, !Ec.
  - cbn [Js.trimStart]. destruct (Js.isWhiteSpace c) eqn:Ec; [exact IH|].
    by rewrite trimEnd_cons, E.
Qed.

Lemma trim_trimStart (s : string) : Js.trim (Js.trimStart s) = Js.trim s.
Proof. unfold Js.trim. by rewrite trimStart_idem. Qed.

Lemma trim_trimEnd (s : string) : Js.trim (Js.trimEnd s) = Js.trim s.
Proof. unfold Js.trim. by rewrite trimStart_trimEnd, trimEnd_idem. Qed.

Lemma hasChar_trimStart (c : ascii) (s : string) :
  hasChar c s = false -> hasChar c (Js.trimStart s) = false.
Proof.
  induction s as [|x s IH]; [done|]. simpl.
  destruct (Js.isWhiteSpace x); [|done].
  intros [_ H]%orb_false_elim. auto.
Qed.

Lemma hasChar_trimEnd (c : ascii) (s : string) :
  hasChar c s = false -> hasChar c (Js.trimEnd s) = false.
Proof.
  induction s as [|x s IH]; [done|]. rewrite trimEnd_cons. simpl.
  intros [Hx H]%orb_false_elim.
  destruct (allWhite s).
  - destruct (Js.isWhiteSpace x); simpl; by rewrite ?Hx.
  - simpl. rewrite Hx. auto.
Qed.

(** Trimming a line around a separator that is not white space. *)
Lemma trim_around (c : ascii) (a b : string) :
  Js.isWhiteSpace c = false ->
  Js.trim (a +:+ String c b) =
  Js.trimStart a +:+ String c (Js.trimEnd b).
Proof.
  intros Hc. unfold Js.trim.
  assert (Hcb : allWhite (String c b) = false) by (simpl; by rewrite Hc).
  assert (Hend : Js.trimEnd (String c b) = String c (Js.trimEnd b)).
  { rewrite trimEnd_cons, Hc. destruct (allWhite b) eqn:E; [|done].
    apply trimEnd_empty in E. by rewrite E. }
  destruct (allWhite a) eqn:Ea.
  - rewrite trimStart_white_app by done. apply trimStart_empty in Ea as Ea'.
    rewrite Ea', app_empty_l. cbn [Js.trimStart]. by rewrite Hc, Hend.
  - rewrite trimStart_app by done. by rewrite trimEnd_app, Hend.
Qed.

End TrimFacts.

(* ===================================================================== *)
(** ** The nickname parser *)
(* ===================================================================== *)

Section ParserFacts.

Lemma slash_not_white : Js.isWhiteSpace "/" = false.
Proof. reflexivity. Qed.

Lemma app_slash (a r : string) : a +:+ "/" +:+ r = a +:+ String "/" r.
Proof. reflexivity. Qed.

Lemma includes_slash (a r : string) : Js.includes (a +:+ String "/" r) "/" = true.
Proof.
  change "/"%string with (String "/" ""). rewrite includes_char, hasChar_app.
  simpl. by rewrite orb_true_r.
Qed.

(** The two fields [parseLine] reads from a line with a slash. *)
Lemma splitParts_fields (a r : string) :
  hasChar "/" a = false ->
  splitParts (a +:+ String "/" r) = (Some (Js.trim a), Some (Js.trim (upTo "/" r))).
Proof.
  intros Ha. unfold splitParts. rewrite split_app by done.
  destruct (split_head "/" r) as [rest ->]. reflexivity.
Qed.

Lemma first_occurrence (c : ascii) (s : string) :
  hasChar c s = true -> exists a r, s = a +:+ String c r /\ hasChar c a = false.
Proof.
  induction s as [|x s IH]; [done|]. simpl.
  destruct (Ascii.eqb_spec x c) as [->|Hne]; simpl.
  - intros _. by exists "", s.
  - intros (a & r & -> & Ha)%IH. exists (String x a), r. split; [done|].
    simpl. destruct (Ascii.eqb_spec x c); [done|]. by rewrite Ha.
Qed.

(** A line with a slash always has the two fields: the last case of the
    [match] in [parseLine] is never taken. *)
Lemma splitParts_total (ln : string) :
  Js.includes ln "/" = true ->
  exists nick lineStr, splitParts ln = (Some nick, Some lineStr).
Proof.
  change "/"%string with (String "/" ""). rewrite includes_char.
  intros (a & r & -> & Ha)%first_occurrence.
  rewrite splitParts_fields by done. by eexists _, _.
Qed.

Lemma parseLine_fields (nicknames : list NicknameWithLine) (a r : string) :
  hasChar "/" a = false ->
  parseLine nicknames (a +:+ String "/" r) =
  let lineValue := Conv.parseFloat (Js.replace "," "." (Js.trim (upTo "/" r))) in
  if nonEmpty (Js.trim a) && negb (Num.isNaN lineValue) then
    nicknames ++ [mkNickname (Js.trim a) (Some (Num.mulPos lineValue 1000))]
  else if nonEmpty (Js.trim a) then nicknames ++ [mkNickname (Js.trim a) None]
  else nicknames.
Proof.
  intros Ha. unfold parseLine. by rewrite includes_slash, splitParts_fields.
Qed.

Lemma parseLine_plain (nicknames : list NicknameWithLine) (ln : string) :
  hasChar "/" ln = false ->
  parseLine nicknames ln = nicknames ++ [mkNickname ln None].
Proof.
  intros H. unfold parseLine. change "/"%string with (String "/" "").
  by rewrite includes_char, H.
Qed.

Lemma nonEmpty_length (s : string) : Nat.ltb 0 (String.length s) = nonEmpty s.
Proof. by destruct s. Qed.

Lemma nonEmpty_white (s : string) : allWhite s = false -> nonEmpty (Js.trim s) = true.
Proof.
  intros H. destruct (Js.trim s) eqn:E; [|done].
  apply trim_empty in E. congruence.
Qed.

(** A text without a line break is one line. *)
Lemma textLines_single (text : string) :
  hasChar "010" text = false ->
  textLines text = if nonEmpty (Js.trim text) then [Js.trim text] else [].
Proof.
  intros H. unfold textLines. rewrite split_no_sep by done. simpl.
  by rewrite nonEmpty_length.
Qed.

Lemma parseLine_push (nicknames : list NicknameWithLine) (ln : string) :
  parseLine nicknames ln = nicknames ++ entryOf ln.
Proof.
  unfold entryOf, parseLine.
  destruct (Js.includes ln "/"); [|done].
  destruct (splitParts ln) as [[nick|] [lineStr|]]; rewrite ?app_nil_r; try done.
  repeat case_match; by rewrite ?app_nil_r.
Qed.

Lemma parseNicknameText_concat (text : string) :
  parseNicknameText text = concat (map entryOf (textLines text)).
Proof.
  unfold parseNicknameText.
  enough (H : forall l acc, fold_left parseLine l acc = acc ++ concat (map entryOf l))
    by apply H.
  induction l as [|ln l IH]; intros acc; simpl.
  - by rewrite app_nil_r.
  - by rewrite IH, parseLine_push, app_assoc.
Qed.

End ParserFacts.

(* ===================================================================== *)
(** ** Rounding to a double *)
(* ===================================================================== *)

Section PowersOfTwo.

Lemma inv_inject_pos (p : positive) : (1 # p == / inject_Z (Zpos p))%Q.
Proof. reflexivity. Qed.

Lemma pow2_power (e : Z) : (Num.pow2 e == 2 ^ e)%Q.
Proof.
  unfold Num.pow2. destruct (Z.leb_spec 0 e) as [H|H].
  - by rewrite Zpower_Qpower.
  - replace e with (- - e) at 2 by lia. rewrite Qpower_opp.
    rewrite <- (Zpower_Qpower 2 (- e)) by lia.
    assert (0 < 2 ^ (- e)) as Hp by (apply Z.pow_pos_nonneg; lia).
    destruct (2 ^ (- e)) as [|p|p] eqn:E; try lia. reflexivity.
Qed.

Lemma pow10_power (e : Z) : (Num.pow10 e == 10 ^ e)%Q.
Proof.
  unfold Num.pow10. destruct (Z.leb_spec 0 e) as [H|H].
  - by rewrite Zpower_Qpower.
  - replace e with (- - e) at 2 by lia. rewrite Qpower_opp.
    rewrite <- (Zpower_Qpower 10 (- e)) by lia.
    assert (0 < 10 ^ (- e)) as Hp by (apply Z.pow_pos_nonneg; lia).
    destruct (10 ^ (- e)) as [|p|p] eqn:E; try lia. reflexivity.
Qed.

Lemma pow2_pos (e : Z) : (0 < Num.pow2 e)%Q.
Proof. rewrite pow2_power. by apply Qpower_0_lt. Qed.

Lemma pow10_pos (e : Z) : (0 < Num.pow10 e)%Q.
Proof. rewrite pow10_power. by apply Qpower_0_lt. Qed.

Lemma pow2_add (a b : Z) : (Num.pow2 (a + b) == Num.pow2 a * Num.pow2 b)%Q.
Proof. rewrite !pow2_power. by apply Qpower_plus. Qed.

Lemma pow10_add (a b : Z) : (Num.pow10 (a + b) == Num.pow10 a * Num.pow10 b)%Q.
Proof. rewrite !pow10_power. by apply Qpower_plus. Qed.

Lemma pow2_le (a b : Z) : a <= b -> (Num.pow2 a <= Num.pow2 b)%Q.
Proof. intros H. rewrite !pow2_power. by apply Qpower_le_compat_l. Qed.

Lemma pow2_lt (a b : Z) : a < b -> (Num.pow2 a < Num.pow2 b)%Q.
Proof. intros H. rewrite !pow2_power. by apply Qpower_lt_compat_l. Qed.

Lemma pow2_lt_inv (a b : Z) : (Num.pow2 a < Num.pow2 b)%Q -> a < b.
Proof. rewrite !pow2_power. intros H. by apply (Qpower_lt_compat_l_inv 2). Qed.

Lemma pow2_succ (a : Z) : (Num.pow2 (a + 1) == 2 * Num.pow2 a)%Q.
Proof. rewrite pow2_add. change (Num.pow2 1) with 2%Q. ring. Qed.

Lemma pow2_inject (a : Z) : 0 <= a -> Num.pow2 a = inject_Z (2 ^ a).
Proof. intros H. unfold Num.pow2. by destruct (Z.leb_spec 0 a); [|lia]. Qed.

End PowersOfTwo.

Section BinaryLogarithm.

Lemma ilog2_bounds (q : Q) :
  (0 < q)%Q ->
  let e0 := Z.log2 (Qnum q) - Z.log2 (Zpos (Qden q)) in
  (Num.pow2 (e0 - 1) <= q)%Q /\ (q < Num.pow2 (e0 + 1))%Q.
Proof.
  destruct q as [n d]. intros Hq e0. subst e0. cbn [Qnum Qden].
  assert (0 < n) as Hn by (unfold Qlt in Hq; cbn in Hq; lia).
  set (a := Z.log2 n). set (b := Z.log2 (Zpos d)).
  assert (0 <= a) as Ha by apply Z.log2_nonneg.
  assert (0 <= b) as Hb by apply Z.log2_nonneg.
  destruct (Z.log2_spec n Hn) as [Hn1 Hn2]. fold a in Hn1, Hn2.
  destruct (Z.log2_spec (Zpos d) eq_refl) as [Hd1 Hd2]. fold b in Hd1, Hd2.
  assert (n # d == inject_Z n / inject_Z (Zpos d))%Q as Hq' by apply Qmake_Qdiv.
  assert (0 < inject_Z (Zpos d))%Q as HD by reflexivity.
  assert (inject_Z (2 ^ a) <= inject_Z n)%Q as HN1 by (by rewrite <- Zle_Qle).
  assert (inject_Z n < inject_Z (2 ^ Z.succ a))%Q as HN2 by (by rewrite <- Zlt_Qlt).
  assert (inject_Z (2 ^ b) <= inject_Z (Zpos d))%Q as HD1 by (by rewrite <- Zle_Qle).
  assert (inject_Z (Zpos d) < inject_Z (2 ^ Z.succ b))%Q as HD2 by (by rewrite <- Zlt_Qlt).
  rewrite <- !pow2_inject in HN1, HN2, HD1, HD2 by lia.
  set (D := inject_Z (Zpos d)) in *. set (N := inject_Z n) in *.
  assert ((n # d) * D == N)%Q as Hmul by (rewrite Hq'; field; lra).
  assert (Num.pow2 (a - b - 1) * Num.pow2 (Z.succ b) == Num.pow2 a)%Q as E1
    by (rewrite <- pow2_add; f_equiv; lia).
  assert (Num.pow2 (a - b + 1) * Num.pow2 b == Num.pow2 (Z.succ a))%Q as E2
    by (rewrite <- pow2_add; f_equiv; lia).
  pose proof (pow2_pos (a - b - 1)) as P1. pose proof (pow2_pos (a - b + 1)) as P2.
  pose proof (pow2_pos b) as P3. pose proof (pow2_pos (Z.succ b)) as P4.
  revert Hq Hmul HN1 HN2 HD1 HD2 E1 E2 P1 P2 P3 P4.
  generalize (Num.pow2 (a - b - 1)) (Num.pow2 (a - b + 1)) (Num.pow2 a)
    (Num.pow2 (Z.succ a)) (Num.pow2 b) (Num.pow2 (Z.succ b)) (n # d).
  intros X1 X2 A A' B B' q. intros. split; nra.
Qed.

Lemma ilog2_spec (q : Q) :
  (0 < q)%Q -> (Num.pow2 (Num.ilog2 q) <= q)%Q /\ (q < Num.pow2 (Num.ilog2 q + 1))%Q.
Proof.
  intros Hq. destruct (ilog2_bounds q Hq) as [H1 H2]. unfold Num.ilog2. cbv zeta.
  set (e0 := Z.log2 (Qnum q) - Z.log2 (Zpos (Qden q))) in *.
  destruct (Qle_bool (Num.pow2 e0) q) eqn:E.
  - apply Qle_bool_iff in E. by split.
  - split; [done|]. replace (e0 - 1 + 1) with e0 by lia.
    apply Qnot_le_lt. intros H. apply Qle_bool_iff in H. congruence.
Qed.

Lemma ilog2_unique (q : Q) (L : Z) :
  (Num.pow2 L <= q)%Q -> (q < Num.pow2 (L + 1))%Q -> Num.ilog2 q = L.
Proof.
  intros H1 H2.
  assert (0 < q)%Q as Hq by (pose proof (pow2_pos L); lra).
  destruct (ilog2_spec q Hq) as [H3 H4].
  assert (L < Num.ilog2 q + 1) by (apply pow2_lt_inv; lra).
  assert (Num.ilog2 q < L + 1) by (apply pow2_lt_inv; lra).
  lia.
Qed.

Lemma ilog2_comp (p q : Q) : (0 < p)%Q -> (p == q)%Q -> Num.ilog2 p = Num.ilog2 q.
Proof.
  intros Hp E. destruct (ilog2_spec p Hp) as [H1 H2].
  symmetry. apply ilog2_unique; by rewrite <- E.
Qed.

End BinaryLogarithm.

Section NearestInteger.

Lemma nearestEven_spec (q : Q) :
  (q - (1 # 2) <= inject_Z (Num.nearestEven q))%Q /\
  (inject_Z (Num.nearestEven q) <= q + (1 # 2))%Q.
Proof.
  unfold Num.nearestEven. cbv zeta.
  pose proof (Qfloor_le q) as H1. pose proof (Qlt_floor q) as H2.
  rewrite inject_Z_plus in H2. change (inject_Z 1) with 1%Q in H2.
  set (f := inject_Z (Qfloor q)) in *.
  destruct (Qcompare_spec (q - f) (1 # 2)) as [E|E|E].
  - destruct (Z.even (Qfloor q)); [fold f; lra|].
    rewrite inject_Z_plus. change (inject_Z 1) with 1%Q. fold f. lra.
  - fold f. lra.
  - rewrite inject_Z_plus. change (inject_Z 1) with 1%Q. fold f. lra.
Qed.

Lemma nearestEven_comp (p q : Q) : (p == q)%Q -> Num.nearestEven p = Num.nearestEven q.
Proof.
  intros E. unfold Num.nearestEven. cbv zeta.
  rewrite (Qfloor_comp _ _ E).
  assert (p - inject_Z (Qfloor q) == q - inject_Z (Qfloor q))%Q as E' by (by rewrite E).
  by rewrite (Qcompare_comp _ _ E' (1 # 2) (1 # 2) (Qeq_refl _)).
Qed.

Lemma nearestEven_int (z : Z) : Num.nearestEven (inject_Z z) = z.
Proof.
  unfold Num.nearestEven. cbv zeta. rewrite Qfloor_Z.
  assert ((inject_Z z - inject_Z z ?= 1 # 2)%Q = Lt) as ->; [|done].
  rewrite <- Qlt_alt. lra.
Qed.

Lemma nearestEven_exact (q : Q) (z : Z) : (q == inject_Z z)%Q -> Num.nearestEven q = z.
Proof. intros E. by rewrite (nearestEven_comp _ _ E), nearestEven_int. Qed.

Lemma nearestEven_nonneg (q : Q) : (0 <= q)%Q -> 0 <= Num.nearestEven q.
Proof.
  intros H. destruct (nearestEven_spec q) as [H1 _].
  assert (-1 < Num.nearestEven q); [|lia].
  rewrite Zlt_Qlt. change (inject_Z (-1)) with (-1)%Q. lra.
Qed.

End NearestInteger.

Section RoundFacts.

Lemma neg_neg (x : number) : Num.neg (Num.neg x) = x.
Proof.
  destruct x as [|b|[n d]]; cbn; [done|by rewrite negb_involutive|].
  unfold Qopp. cbn. by rewrite Z.opp_involutive.
Qed.

Lemma roundPos_not_NaN (q : Q) : Num.isNaN (Num.roundPos q) = false.
Proof. unfold Num.roundPos. cbv zeta. by destruct (Qle_bool _ _). Qed.

Lemma neg_not_NaN (x : number) : Num.isNaN (Num.neg x) = Num.isNaN x.
Proof. by destruct x. Qed.

Lemma round_not_NaN (q : Q) : Num.isNaN (Num.round q) = false.
Proof.
  unfold Num.round. destruct (Qnum q); [done|apply roundPos_not_NaN|].
  rewrite neg_not_NaN. apply roundPos_not_NaN.
Qed.

Lemma round_opp (q : Q) : Num.round (- q) = Num.neg (Num.round q).
Proof.
  destruct q as [[|n|n] d]; unfold Num.round; cbn [Qnum Qopp Z.opp]; [done|done|].
  by rewrite neg_neg.
Qed.

Lemma roundPos_comp (p q : Q) :
  (0 < p)%Q -> (p == q)%Q -> Num.roundPos p = Num.roundPos q.
Proof.
  intros Hp E. unfold Num.roundPos. cbv zeta.
  rewrite (ilog2_comp p q Hp E).
  set (e := Z.max (Num.ilog2 q - 52) (-1074)).
  assert (p / Num.pow2 e == q / Num.pow2 e)%Q as E' by (by rewrite E).
  by rewrite (nearestEven_comp _ _ E').
Qed.

Lemma Qnum_sign (q : Q) :
  match Qnum q with
  | Z0 => (q == 0)%Q
  | Zpos _ => (0 < q)%Q
  | Zneg _ => (q < 0)%Q
  end.
Proof. destruct q as [[|n|n] d]; cbn; [reflexivity| |]; unfold Qlt; cbn; lia. Qed.

Lemma round_comp (p q : Q) : (p == q)%Q -> Num.round p = Num.round q.
Proof.
  intros E. unfold Num.round.
  pose proof (Qnum_sign p) as Hp. pose proof (Qnum_sign q) as Hq.
  destruct (Qnum p), (Qnum q); try done; try (exfalso; lra).
  - by apply roundPos_comp.
  - f_equal. apply roundPos_comp; [lra|]. by rewrite E.
Qed.

Lemma round_zero : Num.round 0 = Finite 0.
Proof. reflexivity. Qed.

Lemma round_pos (q : Q) : (0 < q)%Q -> Num.round q = Num.roundPos q.
Proof.
  intros H. unfold Num.round. pose proof (Qnum_sign q) as Hq.
  destruct (Qnum q); [exfalso; lra|done|exfalso; lra].
Qed.

End RoundFacts.

Section RoundValue.

Lemma pow2_le_inv (a b : Z) : (Num.pow2 a <= Num.pow2 b)%Q -> a <= b.
Proof. rewrite !pow2_power. intros H. by apply (Qpower_le_compat_l_inv 2). Qed.

Lemma Qred_inject_Z (z : Z) : Qred (inject_Z z) = inject_Z z.
Proof.
  unfold inject_Z, Qred.
  pose proof (Z.ggcd_gcd z 1) as Hg. pose proof (Z.ggcd_correct_divisors z 1) as Hd.
  destruct (Z.ggcd z 1) as [g [n d]]. cbn in Hg, Hd. rewrite Z.gcd_1_r in Hg. subst g.
  destruct Hd as [-> Hd]. assert (d = 1) as -> by lia.
  by rewrite Z.mul_1_l.
Qed.

(** What [roundPos] computes: the unit [2^e] of the last place and the
    integer [m] of units. *)
Lemma roundPos_unfold (q : Q) :
  let e := Z.max (Num.ilog2 q - 52) (-1074) in
  let m := Num.nearestEven (q / Num.pow2 e) in
  Num.roundPos q =
  if Qle_bool (Num.pow2 1024) (inject_Z m * Num.pow2 e)
  then Infinity false else Finite (Qred (inject_Z m * Num.pow2 e)).
Proof. reflexivity. Qed.

(** A positive value below [2^1024] that is a whole number of units of
    its last place is a double: it rounds to itself. *)
Lemma round_exact (q : Q) (m : Z) :
  (0 < q)%Q -> (q < Num.pow2 1024)%Q ->
  (q / Num.pow2 (Z.max (Num.ilog2 q - 52) (-1074)) == inject_Z m)%Q ->
  Num.round q = Finite (Qred q).
Proof.
  intros Hq Hmax Hm. rewrite round_pos by done. rewrite roundPos_unfold. cbv zeta.
  set (e := Z.max (Num.ilog2 q - 52) (-1074)) in *.
  rewrite (nearestEven_exact _ _ Hm).
  pose proof (pow2_pos e) as He.
  assert (inject_Z m * Num.pow2 e == q)%Q as E by (rewrite <- Hm; field; lra).
  destruct (Qle_bool (Num.pow2 1024) (inject_Z m * Num.pow2 e)) eqn:Ho.
  - apply Qle_bool_iff in Ho. rewrite E in Ho. lra.
  - f_equal. by apply Qred_complete.
Qed.

Lemma ilog2_inject (z : Z) : 0 < z -> Num.ilog2 (inject_Z z) = Z.log2 z.
Proof.
  intros Hz. destruct (Z.log2_spec z Hz) as [H1 H2].
  pose proof (Z.log2_nonneg z) as H0.
  apply ilog2_unique.
  - rewrite pow2_inject by done. by rewrite <- Zle_Qle.
  - rewrite pow2_inject by lia. rewrite <- Zlt_Qlt.
    by replace (Z.log2 z + 1) with (Z.succ (Z.log2 z)) by lia.
Qed.

(** Integers up to [2^53] are doubles. *)
Lemma round_int_pos (z : Z) :
  0 < z <= 2 ^ 53 -> Num.round (inject_Z z) = Finite (inject_Z z).
Proof.
  intros [Hz Hmax].
  assert (Z.log2 z <= 53) as HL.
  { change 53 with (Z.log2 (2 ^ 53)). by apply Z.log2_le_mono. }
  pose proof (Z.log2_nonneg z) as H0.
  destruct (Z.log2_spec z Hz) as [H1 H2].
  assert (0 < inject_Z z)%Q as Hq
    by (change 0%Q with (inject_Z 0); by rewrite <- Zlt_Qlt).
  assert (inject_Z z < Num.pow2 1024)%Q as Ho.
  { rewrite pow2_inject by lia. rewrite <- Zlt_Qlt.
    eapply Z.le_lt_trans; [exact Hmax|]. by apply Z.pow_lt_mono_r. }
  destruct (Z.eq_dec (Z.log2 z) 53) as [E|E].
  - assert (z = 2 ^ 53) as ->.
    { rewrite E in H1. lia. }
    rewrite <- Qred_inject_Z at 2.
    apply (round_exact _ (2 ^ 52)); [done|done|].
    rewrite ilog2_inject by done. by vm_compute.
  - rewrite <- Qred_inject_Z at 2.
    apply (round_exact _ (z * 2 ^ (52 - Z.log2 z))); [done|done|].
    rewrite ilog2_inject by done.
    replace (Z.max (Z.log2 z - 52) (-1074)) with (- (52 - Z.log2 z)) by lia.
    rewrite inject_Z_mult, <- pow2_inject by lia.
    pose proof (pow2_add (52 - Z.log2 z) (- (52 - Z.log2 z))) as Hp.
    replace (52 - Z.log2 z + - (52 - Z.log2 z)) with 0 in Hp by lia.
    change (Num.pow2 0) with 1%Q in Hp.
    pose proof (pow2_pos (- (52 - Z.log2 z))) as P1.
    pose proof (pow2_pos (52 - Z.log2 z)) as P2.
    revert Hp P1 P2. generalize (Num.pow2 (52 - Z.log2 z)) (Num.pow2 (- (52 - Z.log2 z))).
    intros A B Hp P1 P2.
    transitivity (inject_Z z * (A * B) / B)%Q; [rewrite <- Hp; field; lra|field; lra].
Qed.

Lemma round_int (z : Z) :
  - 2 ^ 53 <= z <= 2 ^ 53 -> Num.round (inject_Z z) = Finite (inject_Z z).
Proof.
  intros H. destruct (Z.lt_trichotomy z 0) as [Hz|[->|Hz]].
  - replace (inject_Z z) with (- inject_Z (- z))%Q
      by (unfold inject_Z, Qopp; cbn; by rewrite Z.opp_involutive).
    rewrite round_opp, round_int_pos by lia. reflexivity.
  - reflexivity.
  - apply round_int_pos. lia.
Qed.

End RoundValue.

Section RoundError.

(** The integer of units that [roundPos] takes is within a half of the
    exact number of units, which is at least 1 from the least positive
    double on and below [2^53]. *)
Lemma roundPos_units (q : Q) :
  (0 < q)%Q ->
  let e := Z.max (Num.ilog2 q - 52) (-1074) in
  let m := Num.nearestEven (q / Num.pow2 e) in
  (q - Num.pow2 e * (1 # 2) <= inject_Z m * Num.pow2 e)%Q /\
  (inject_Z m * Num.pow2 e <= q + Num.pow2 e * (1 # 2))%Q /\
  (q < Num.pow2 e * Num.pow2 53)%Q /\
  (e = Num.ilog2 q - 52 -> (Num.pow2 e * Num.pow2 52 <= q)%Q) /\
  0 <= m <= 2 ^ 53.
Proof.
  intros Hq e m. destruct (ilog2_spec q Hq) as [H1 H2].
  pose proof (pow2_pos e) as He.
  destruct (nearestEven_spec (q / Num.pow2 e)) as [M1 M2]. fold m in M1, M2.
  assert (q / Num.pow2 e * Num.pow2 e == q)%Q as Hx by (field; lra).
  assert (q < Num.pow2 e * Num.pow2 53)%Q as Hup.
  { rewrite <- pow2_add. eapply Qlt_le_trans; [exact H2|]. apply pow2_le. lia. }
  assert (e = Num.ilog2 q - 52 -> (Num.pow2 e * Num.pow2 52 <= q)%Q) as Hlow.
  { intros E. rewrite <- pow2_add. by replace (e + 52) with (Num.ilog2 q) by lia. }
  assert (0 <= m) as Hm0.
  { apply nearestEven_nonneg. apply Qle_shift_div_l; lra. }
  assert (m <= 2 ^ 53) as Hm1.
  { assert (m < 2 ^ 53 + 1); [|lia]. rewrite Zlt_Qlt.
    eapply Qle_lt_trans; [exact M2|].
    rewrite inject_Z_plus. change (inject_Z 1) with 1%Q.
    rewrite <- pow2_inject by lia.
    assert (q / Num.pow2 e < Num.pow2 53)%Q; [|lra].
    apply Qlt_shift_div_r; lra. }
  revert Hup Hlow Hx M1 M2 He. generalize (q / Num.pow2 e)%Q. intros x.
  generalize (inject_Z m) (Num.pow2 e). intros M U Hup Hlow Hx M1 M2 HU.
  assert (0 <= (M - x + (1 # 2)) * U)%Q as P1 by (apply Qmult_le_0_compat; lra).
  assert (0 <= (x + (1 # 2) - M) * U)%Q as P2 by (apply Qmult_le_0_compat; lra).
  repeat split; try done; lra.
Qed.

(** In the range of the normal doubles the rounding error is at most
    the fraction [2^-53] of the value. *)
Lemma round_err_pos (q : Q) :
  (Num.pow2 (-1022) <= q)%Q -> (q <= Num.pow2 1023)%Q ->
  exists r, Num.round q = Finite r /\ Qred r = r /\
            (q - q * Num.pow2 (-53) <= r)%Q /\ (r <= q + q * Num.pow2 (-53))%Q.
Proof.
  intros Hlo Hhi.
  assert (0 < q)%Q as Hq by (pose proof (pow2_pos (-1022)); lra).
  destruct (ilog2_spec q Hq) as [H1 H2].
  assert (-1022 <= Num.ilog2 q).
  { assert (-1022 < Num.ilog2 q + 1); [|lia]. apply pow2_lt_inv. lra. }
  destruct (roundPos_units q Hq) as (R1 & R2 & R3 & R4 & R5).
  rewrite round_pos, roundPos_unfold by done. cbv zeta in *.
  set (e := Z.max (Num.ilog2 q - 52) (-1074)) in *.
  assert (e = Num.ilog2 q - 52) as E by lia. specialize (R4 E).
  set (R := (inject_Z (Num.nearestEven (q / Num.pow2 e)) * Num.pow2 e)%Q) in *.
  pose proof (pow2_pos e) as He.
  assert (Num.pow2 e * (1 # 2) <= q * Num.pow2 (-53))%Q as Hu.
  { revert R4 He. generalize (Num.pow2 e). intros U R4 HU.
    change (Num.pow2 52) with (4503599627370496 # 1) in R4.
    change (Num.pow2 (-53)) with (1 # 9007199254740992). lra. }
  assert (R < Num.pow2 1024)%Q as Ho.
  { assert (R <= q + q * Num.pow2 (-53))%Q as Hr by lra.
    eapply Qle_lt_trans; [exact Hr|].
    assert (q + q * Num.pow2 (-53) <= Num.pow2 1023 + Num.pow2 1023 * Num.pow2 (-53))%Q as Hs.
    { change (Num.pow2 (-53)) with (1 # 9007199254740992). lra. }
    eapply Qle_lt_trans; [exact Hs|]. by vm_compute. }
  destruct (Qle_bool (Num.pow2 1024) R) eqn:Hb.
  { apply Qle_bool_iff in Hb. lra. }
  exists (Qred R). split; [done|]. split; [apply Qred_complete, Qred_correct|].
  rewrite Qred_correct. split; lra.
Qed.

(** From the least positive double on, a positive value stays
    positive. *)
Lemma round_sign_pos (q : Q) :
  (Num.pow2 (-1074) <= q)%Q ->
  match Num.round q with
  | Finite r => (0 < r)%Q
  | Infinity negative => negative = false
  | NaN => False
  end.
Proof.
  intros Hlo.
  assert (0 < q)%Q as Hq by (pose proof (pow2_pos (-1074)); lra).
  destruct (ilog2_spec q Hq) as [H1 H2].
  destruct (roundPos_units q Hq) as (R1 & R2 & R3 & R4 & R5).
  rewrite round_pos, roundPos_unfold by done. cbv zeta in *.
  set (e := Z.max (Num.ilog2 q - 52) (-1074)) in *.
  set (m := Num.nearestEven (q / Num.pow2 e)) in *.
  pose proof (pow2_pos e) as He.
  assert (Num.pow2 e <= q)%Q as Hu.
  { destruct (Z.max_spec (Num.ilog2 q - 52) (-1074)) as [[_ E]|[_ E]]; fold e in E; rewrite E.
    - done.
    - eapply Qle_trans; [|exact H1]. apply pow2_le. lia. }
  destruct (Qle_bool _ _); [done|]. rewrite Qred_correct.
  assert (0 < m); [|apply Qmult_lt_0_compat; [|done];
                    change 0%Q with (inject_Z 0); by rewrite <- Zlt_Qlt].
  assert (0 < inject_Z m)%Q as Hm;
    [|change 0%Q with (inject_Z 0) in Hm; by rewrite <- Zlt_Qlt in Hm].
  revert R1 He Hu. generalize (inject_Z m) (Num.pow2 e). intros M U R1 HU Hu. nra.
Qed.

End RoundError.

Section Doubles.

(** The payload of a rounded value is a reduced fraction. *)
Lemma round_canonical (q r : Q) : Num.round q = Finite r -> Qred r = r.
Proof.
  unfold Num.round, Num.roundPos. cbv zeta.
  destruct (Qnum q); [by intros [= <-]| |];
    destruct (Qle_bool _ _); try done; cbn [Num.neg]; intros [= <-].
  - apply Qred_complete, Qred_correct.
  - rewrite Qred_opp. f_equal. apply Qred_complete, Qred_correct.
Qed.

Lemma canonical_eq (p q : Q) : Qred p = p -> Qred q = q -> (p == q)%Q -> p = q.
Proof. intros Hp Hq E. rewrite <- Hp, <- Hq. by apply Qred_complete. Qed.

(** A positive value that rounds to a finite one: the units taken. *)
Lemma roundPos_finite (q r : Q) :
  (0 < q)%Q -> Num.round q = Finite r ->
  let e := Z.max (Num.ilog2 q - 52) (-1074) in
  let m := Num.nearestEven (q / Num.pow2 e) in
  r = Qred (inject_Z m * Num.pow2 e) /\
  (inject_Z m * Num.pow2 e < Num.pow2 1024)%Q /\
  0 <= m <= 2 ^ 53 /\
  (m < 2 ^ 52 -> e = -1074).
Proof.
  intros Hq. rewrite round_pos, roundPos_unfold by done. cbv zeta.
  destruct (roundPos_units q Hq) as (R1 & R2 & R3 & R4 & R5). cbv zeta in *.
  set (e := Z.max (Num.ilog2 q - 52) (-1074)) in *.
  set (m := Num.nearestEven (q / Num.pow2 e)) in *.
  destruct (Qle_bool _ _) eqn:Hb; [done|]. intros [= <-].
  split; [done|]. split.
  { apply Qnot_le_lt. intros H. apply Qle_bool_iff in H. congruence. }
  split; [done|]. intros Hm.
  destruct (Z.max_spec (Num.ilog2 q - 52) (-1074)) as [[_ E]|[_ E]]; fold e in E; [done|].
  specialize (R4 E). exfalso.
  assert (2 ^ 52 - 1 < m); [|lia]. rewrite Zlt_Qlt.
  pose proof (pow2_pos e) as He.
  assert (inject_Z (2 ^ 52 - 1) = Num.pow2 52 - 1)%Q as -> by reflexivity.
  revert R1 R4 He. generalize (inject_Z m) (Num.pow2 e).
  intros M U R1 R4 HU.
  assert (0 < (M - (Num.pow2 52 - 1)) * U)%Q as P; [|].
  { change (Num.pow2 52) with (4503599627370496 # 1) in *. lra. }
  apply Qnot_le_lt. intros Hle.
  assert ((M - (Num.pow2 52 - 1)) * U <= 0)%Q; [|lra].
  assert (0 <= (Num.pow2 52 - 1 - M) * U)%Q by (apply Qmult_le_0_compat; lra).
  lra.
Qed.

(** A value that was rounded rounds to itself. *)
Lemma round_idem_pos (q r : Q) :
  (0 < q)%Q -> Num.round q = Finite r -> Num.round r = Finite r.
Proof.
  intros Hq Hr. pose proof (round_canonical _ _ Hr) as Hc.
  destruct (roundPos_finite q r Hq Hr) as (E & Hmax & Hm & Hsub). cbv zeta in *.
  set (e := Z.max (Num.ilog2 q - 52) (-1074)) in *.
  set (m := Num.nearestEven (q / Num.pow2 e)) in *.
  assert (-1074 <= e) as He by lia.
  assert (r == inject_Z m * Num.pow2 e)%Q as Er by (rewrite E; apply Qred_correct).
  pose proof (pow2_pos e) as HU.
  destruct (Z.eq_dec m 0) as [Hz|Hz].
  { assert (r = 0%Q) as ->; [|done].
    apply canonical_eq; [done|done|]. rewrite Er, Hz. ring. }
  assert (0 < m) as Hpos by lia.
  assert (0 < r)%Q as Hrpos.
  { rewrite Er. apply Qmult_lt_0_compat; [|done].
    change 0%Q with (inject_Z 0). by rewrite <- Zlt_Qlt. }
  destruct (Z.log2_spec m Hpos) as [L1 L2].
  pose proof (Z.log2_nonneg m) as L0.
  set (a := Z.log2 m) in *.
  assert (a <= 53) as Ha.
  { destruct (Z.le_gt_cases a 53) as [|Hgt]; [done|].
    assert (2 ^ 54 <= 2 ^ a) by (apply Z.pow_le_mono_r; lia). lia. }
  assert (Num.ilog2 r = a + e) as Hlog.
  { apply ilog2_unique.
    - rewrite Er, pow2_add, (pow2_inject a) by done.
      apply Qmult_le_compat_r; [|lra]. by rewrite <- Zle_Qle.
    - rewrite Er. replace (a + e + 1) with ((a + 1) + e) by lia.
      rewrite pow2_add, (pow2_inject (a + 1)) by lia.
      apply Qmult_lt_compat_r; [done|]. rewrite <- Zlt_Qlt.
      by replace (a + 1) with (Z.succ a) by lia. }
  assert (exists m', r / Num.pow2 (Z.max (Num.ilog2 r - 52) (-1074)) == inject_Z m')%Q
    as [m' Hm'].
  { rewrite Hlog. destruct (Z.eq_dec a 53) as [Ea|Na].
    - assert (m = 2 ^ 53) as Em.
      { assert (2 ^ 53 <= m); [|lia]. by rewrite Ea in L1. }
      exists (2 ^ 52). rewrite Z.max_l by lia.
      replace (a + e - 52) with (1 + e) by lia.
      rewrite Er, Em, pow2_add.
      change (Num.pow2 1) with 2%Q. change (inject_Z (2 ^ 53)) with (2 * inject_Z (2 ^ 52))%Q.
      field. lra.
    - exists m. assert (Z.max (a + e - 52) (-1074) = e) as ->.
      { destruct (Z.eq_dec a 52) as [->|Nb]; [lia|].
        assert (m < 2 ^ 52) as Hlt.
        { eapply Z.lt_le_trans; [exact L2|].
          replace (Z.succ a) with (a + 1) by lia. apply Z.pow_le_mono_r; lia. }
        rewrite (Hsub Hlt). lia. }
      rewrite Er. field. lra. }
  assert (r < Num.pow2 1024)%Q as Hlt by (by rewrite Er).
  rewrite (round_exact r m' Hrpos Hlt Hm'). by rewrite Hc.
Qed.

Lemma neg_Finite (x : number) (r : Q) :
  Num.neg x = Finite r -> x = Finite (- r).
Proof.
  destruct x as [| |q]; try done. cbn [Num.neg]. intros [= <-].
  destruct q as [n d]. unfold Qopp. cbn. by rewrite Z.opp_involutive.
Qed.

Lemma Qopp_opp (q : Q) : (- - q)%Q = q.
Proof. destruct q as [n d]. unfold Qopp. cbn. by rewrite Z.opp_involutive. Qed.

Lemma round_idem (q r : Q) : Num.round q = Finite r -> Num.round r = Finite r.
Proof.
  intros Hr. destruct (Qlt_le_dec 0 q) as [Hq|Hq].
  { by apply (round_idem_pos q). }
  destruct (Qlt_le_dec q 0) as [Hn|Hn].
  - rewrite <- (Qopp_opp q), round_opp in Hr. apply neg_Finite in Hr.
    apply round_idem_pos in Hr; [|lra].
    rewrite <- (Qopp_opp r), round_opp, Hr. cbn [Num.neg]. by rewrite Qopp_opp.
  - assert (q == 0)%Q as E by lra. rewrite (round_comp _ _ E) in Hr.
    by injection Hr as <-.
Qed.

End Doubles.

Section Dyadic.

(** A positive divisor of a power of two is the power of two of its own
    binary logarithm. *)
Lemma divisor_pow2 (k : Z) :
  0 <= k -> forall d, 0 < d -> (d | 2 ^ k) -> d = 2 ^ Z.log2 d.
Proof.
  intros Hk. pattern k. apply natlike_ind; [| |exact Hk]; clear k Hk.
  - intros d Hd Hdiv. change (2 ^ 0) with 1 in Hdiv.
    apply Z.divide_1_r_nonneg in Hdiv as ->; [done|lia].
  - intros k Hk IH d Hd Hdiv. rewrite Z.pow_succ_r in Hdiv by done.
    destruct (Z.even d) eqn:Ev.
    + apply Z.even_spec in Ev as [d' ->].
      assert (0 < d') as Hd' by lia.
      assert ((d' | 2 ^ k)) as Hdiv'.
      { destruct Hdiv as [c Hc]. exists c. nia. }
      rewrite Z.log2_double by done. rewrite Z.pow_succ_r by apply Z.log2_nonneg.
      f_equal. by apply IH.
    + apply IH; [done|]. apply Z.gauss with 2; [done|].
      apply Z.gcd_unique; [lia|apply Z.divide_1_l|apply Z.divide_1_l|].
      intros c Hc1 Hc2.
      destruct (Z.eq_dec c 0) as [->|Hc0].
      { apply Z.divide_0_l in Hc2. lia. }
      assert (Z.abs c <= 2) as Hle.
      { apply Z.divide_pos_le; [lia|]. by apply Z.divide_abs_l. }
      assert (Z.abs c <> 2) as Hne.
      { intros E. apply Z.divide_abs_l in Hc1. rewrite E in Hc1.
        destruct Hc1 as [x ->]. rewrite Z.mul_comm, Z.even_mul in Ev. done. }
      assert (Z.abs c = 1) as Hc by lia.
      apply Z.divide_abs_l. rewrite Hc. reflexivity.
Qed.

Lemma Qred_den_divides (n : Z) (d : positive) :
  (Zpos (Qden (Qred (n # d))) | Zpos d).
Proof.
  unfold Qred. pose proof (Z.ggcd_gcd n (Zpos d)) as Hg.
  pose proof (Z.ggcd_correct_divisors n (Zpos d)) as Hc.
  destruct (Z.ggcd n (Zpos d)) as [g [n' d']]. cbn [fst snd] in *.
  destruct Hc as [_ Hd]. cbn [Qden].
  assert (0 <= g) as Hg0 by (rewrite Hg; apply Z.gcd_nonneg).
  assert (0 < d') as Hd' by nia.
  rewrite Z2Pos.id by done. exists g. lia.
Qed.

Lemma pow2_den (e : Z) : exists k, 0 <= k /\ Zpos (Qden (Num.pow2 e)) = 2 ^ k.
Proof.
  unfold Num.pow2. destruct (Z.leb_spec 0 e).
  - by exists 0.
  - exists (- e). split; [lia|]. cbn [Qden]. rewrite Z2Pos.id; [done|].
    apply Z.pow_pos_nonneg; lia.
Qed.

(** The denominator of a double is a power of two. *)
Lemma round_dyadic (q r : Q) :
  Num.round q = Finite r -> Zpos (Qden r) = 2 ^ Z.log2 (Zpos (Qden r)).
Proof.
  assert (forall m e, Zpos (Qden (Qred (inject_Z m * Num.pow2 e)))
                      = 2 ^ Z.log2 (Zpos (Qden (Qred (inject_Z m * Num.pow2 e))))) as H.
  { intros m e. destruct (pow2_den e) as (k & Hk & Ek).
    apply (divisor_pow2 k Hk); [done|].
    unfold Qmult, inject_Z. cbn [Qnum Qden]. rewrite <- Ek.
    change (1 * Qden (Num.pow2 e))%positive with (Qden (Num.pow2 e)).
    apply Qred_den_divides. }
  unfold Num.round, Num.roundPos. cbv zeta.
  destruct (Qnum q); [by intros [= <-]| |];
    destruct (Qle_bool _ _); try done; cbn [Num.neg]; intros [= <-].
  - apply H.
  - cbn [Qopp Qden]. apply H.
Qed.

End Dyadic.

(* ===================================================================== *)
(** ** The row classifier *)
(* ===================================================================== *)

Section ClassifierFacts.

Lemma find_first {A : Type} (p : A -> bool) (l : list A) (m : A) :
  List.find p l = Some m <->
  exists before after, l = before ++ m :: after /\ p m = true /\
                       forall x, In x before -> p x = false.
Proof.
  induction l as [|y l IH]; simpl.
  - split; [discriminate|]. intros (b & a & H & _). by destruct b.
  - destruct (p y) eqn:Ey.
    + split.
      * intros [= ->]. exists [], l. repeat split; [done|]. intros x [].
      * intros (b & a & H & Hm & Hb). destruct b as [|z b].
        -- simpl in H. by injection H as ->.
        -- simpl in H. injection H as -> _. rewrite Hb in Ey by (by left). discriminate.
    + rewrite IH. split.
      * intros (b & a & -> & Hm & Hb). exists (y :: b), a. repeat split; [done|].
        intros x [<-|Hx]; auto.
      * intros (b & a & H & Hm & Hb). destruct b as [|z b].
        -- simpl in H. injection H as -> _. congruence.
        -- simpl in H. injection H as -> ->. exists b, a. repeat split; [done|].
           intros x Hx. apply Hb. by right.
Qed.

Lemma find_nothing {A : Type} (p : A -> bool) (l : list A) :
  List.find p l = None <-> forall x, In x l -> p x = false.
Proof.
  induction l as [|y l IH]; simpl.
  - split; [intros _ x [] | done].
  - destruct (p y) eqn:Ey.
    + split; [discriminate|]. intros H. rewrite H in Ey by (by left). discriminate.
    + rewrite IH. split.
      * intros H x [<-|Hx]; auto.
      * intros H x Hx. apply H. by right.
Qed.

(** For a row whose cell 10 is truthy the text the code searches is the
    lowercased text of the cell. *)
Lemma columnK_truthy (row : Row) :
  Val.truthy (Val.cell row 10) = true -> columnK row = columnText row.
Proof. unfold columnK, columnText. by intros ->. Qed.

Lemma columnK_falsy (row : Row) :
  Val.truthy (Val.cell row 10) = false -> columnK row = "".
Proof. unfold columnK. by intros ->. Qed.

Lemma textMatches_test (row : Row) (n : NicknameWithLine) :
  Val.truthy (Val.cell row 10) = true ->
  Js.includes (columnK row) (Js.toLowerCase (nickname n)) = true <-> textMatches row n.
Proof. intros H. rewrite (columnK_truthy row H). apply includes_spec. Qed.

Lemma textMatches_test_false (row : Row) (n : NicknameWithLine) :
  Val.truthy (Val.cell row 10) = true ->
  Js.includes (columnK row) (Js.toLowerCase (nickname n)) = false <-> ~ textMatches row n.
Proof.
  intros H. rewrite <- (textMatches_test row n H). by destruct (Js.includes _ _).
Qed.

(** The empty text contains the empty text only. *)
Lemma includes_nothing (t : string) : Js.includes "" t = true <-> t = "".
Proof. destruct t; [done|]. by split. Qed.

Lemma toLowerCase_empty (s : string) : Js.toLowerCase s = "" <-> s = "".
Proof. by destruct s. Qed.

Lemma emptyMatches_test (row : Row) (n : NicknameWithLine) :
  Val.truthy (Val.cell row 10) = false ->
  Js.includes (columnK row) (Js.toLowerCase (nickname n)) = true <-> nickname n = "".
Proof.
  intros H. by rewrite (columnK_falsy row H), includes_nothing, toLowerCase_empty.
Qed.

Lemma emptyMatches_test_false (row : Row) (n : NicknameWithLine) :
  Val.truthy (Val.cell row 10) = false ->
  Js.includes (columnK row) (Js.toLowerCase (nickname n)) = false <-> nickname n <> "".
Proof.
  intros H. rewrite <- (emptyMatches_test row n H). by destruct (Js.includes _ _).
Qed.

Lemma classifyRow_matched nicknames nameMapping buckets row m :
  matchingNickname nicknames row = Some m ->
  classifyRow nicknames nameMapping buckets row =
  if nonNegative (rowData nameMapping row m)
  then (buckets.1 ++ [rowData nameMapping row m], buckets.2)
  else (buckets.1, buckets.2 ++ [rowData nameMapping row m]).
Proof. intros H. unfold classifyRow. by rewrite H. Qed.

Lemma classifyRow_unmatched nicknames nameMapping buckets row :
  matchingNickname nicknames row = None ->
  classifyRow nicknames nameMapping buckets row = buckets.
Proof. intros H. unfold classifyRow. by rewrite H. Qed.

Lemma matchedRows_cons nicknames nameMapping row data :
  matchedRows nicknames nameMapping (row :: data) =
  match matchingNickname nicknames row with
  | Some m => rowData nameMapping row m :: matchedRows nicknames nameMapping data
  | None => matchedRows nicknames nameMapping data
  end.
Proof.
  unfold matchedRows, outputRow. cbn [omap list_omap].
  by destruct (matchingNickname nicknames row).
Qed.

(** The two arrays after the scan: the output rows, split by the sign
    test, each in scan order. *)
Lemma classify_fold nicknames nameMapping data buckets :
  fold_left (classifyRow nicknames nameMapping) data buckets =
  (buckets.1 ++ List.filter nonNegative (matchedRows nicknames nameMapping data),
   buckets.2 ++ List.filter (fun r => negb (nonNegative r))
                            (matchedRows nicknames nameMapping data)).
Proof.
  revert buckets. induction data as [|row data IH]; intros [p n].
  - cbn. by rewrite !app_nil_r.
  - cbn [fold_left]. rewrite IH, matchedRows_cons.
    destruct (matchingNickname nicknames row) as [m|] eqn:E.
    + rewrite (classifyRow_matched _ _ _ _ _ E). cbn [List.filter].
      destruct (nonNegative (rowData nameMapping row m)); cbn [negb fst snd];
        by rewrite <- ?app_assoc.
    + by rewrite (classifyRow_unmatched _ _ _ _ E).
Qed.

Lemma classified_spec nicknames nameMapping jsonData :
  classified nicknames nameMapping jsonData =
  (List.filter nonNegative (matchedRows nicknames nameMapping (drop 3 jsonData)),
   List.filter (fun r => negb (nonNegative r))
               (matchedRows nicknames nameMapping (drop 3 jsonData))).
Proof. unfold classified. by rewrite classify_fold. Qed.

Lemma filter_split_perm {A : Type} (p : A -> bool) (l : list A) :
  List.filter p l ++ List.filter (fun x => negb (p x)) l ≡ₚ l.
Proof.
  induction l as [|x l IH]; [done|]. simpl. destruct (p x); simpl.
  - by rewrite IH.
  - by rewrite <- Permutation_middle, IH.
Qed.

End ClassifierFacts.

Section MatchClaim.

(** C1 (as stated, refuted): the cell at index 10 holds the number 0
    and the one entry has the nickname 0.  The lowercased nickname is a
    substring of the lowercased text of the cell, yet the row is not
    matched: the code takes the text of a falsy cell to be empty. *)
Lemma C1_zero_cell_counterexample :
  columnText (rowKL (VNumber (Finite 0)) (VNumber (Finite (7 # 1)))) = "0" /\
  textMatches (rowKL (VNumber (Finite 0)) (VNumber (Finite (7 # 1)))) (mkNickname "0" None) /\
  matchingNickname [mkNickname "0" None]
                   (rowKL (VNumber (Finite 0)) (VNumber (Finite (7 # 1)))) = None /\
  classifyRow [mkNickname "0" None] ∅ ([], [])
              (rowKL (VNumber (Finite 0)) (VNumber (Finite (7 # 1)))) = ([], []).
Proof.
  split; [by vm_compute|]. split; [by exists "", ""|]. split; by vm_compute.
Qed.

(** C1 (amended): a source row (one left after the three skipped rows)
    whose cell at index 10 is truthy is matched to the first entry, in
    entry order, whose lowercased nickname is a substring of the
    lowercased text of that cell; no entry qualifying, the row is
    unmatched.  A row whose cell at index 10 is falsy (absent, empty, 0,
    NaN, false) is searched as the empty text and is matched by the first
    entry with an empty nickname only.  An unmatched row adds nothing to
    either bucket, a matched row adds exactly its one output row, and the
    buckets hold the output rows of the matched rows and nothing else.
    With the entries a, ab in that order a row whose cell reads abc is
    matched to a; with the entries gsu, gus a cell reading GUS99 is
    matched to gus, and with the entries gsu, GUS a cell reading gus99 to
    GUS. *)
Theorem C1_first_substring_match
    (nicknames : list NicknameWithLine) (nameMapping : gmap string string) :
  (forall row m,
     Val.truthy (Val.cell row 10) = true ->
     (matchingNickname nicknames row = Some m <->
      exists before after,
        nicknames = before ++ m :: after /\
        isSubstring (Js.toLowerCase (nickname m))
                    (Js.toLowerCase (Val.toString (Val.cell row 10))) /\
        forall x, In x before ->
                  ~ isSubstring (Js.toLowerCase (nickname x))
                                (Js.toLowerCase (Val.toString (Val.cell row 10))))) /\
  (forall row,
     Val.truthy (Val.cell row 10) = true ->
     (matchingNickname nicknames row = None <->
      forall x, In x nicknames -> ~ textMatches row x)) /\
  (forall row m,
     Val.truthy (Val.cell row 10) = false ->
     (matchingNickname nicknames row = Some m <->
      exists before after,
        nicknames = before ++ m :: after /\ nickname m = "" /\
        forall x, In x before -> nickname x <> "")) /\
  (forall buckets row,
     matchingNickname nicknames row = None ->
     classifyRow nicknames nameMapping buckets row = buckets) /\
  (forall buckets row m,
     matchingNickname nicknames row = Some m ->
     classifyRow nicknames nameMapping buckets row =
       (buckets.1 ++ [rowData nameMapping row m], buckets.2) \/
     classifyRow nicknames nameMapping buckets row =
       (buckets.1, buckets.2 ++ [rowData nameMapping row m])) /\
  (forall jsonData,
     (classified nicknames nameMapping jsonData).1 ++
     (classified nicknames nameMapping jsonData).2
     ≡ₚ matchedRows nicknames nameMapping (drop 3 jsonData)) /\
  (forall row,
     Val.cell row 10 = VString "abc" ->
     matchingNickname [mkNickname "a" None; mkNickname "ab" None] row =
       Some (mkNickname "a" None)) /\
  (forall row,
     Val.cell row 10 = VString "GUS99" ->
     matchingNickname [mkNickname "gsu" None; mkNickname "gus" None] row =
       Some (mkNickname "gus" None)) /\
  (forall row,
     Val.cell row 10 = VString "gus99" ->
     matchingNickname [mkNickname "gsu" None; mkNickname "GUS" None] row =
       Some (mkNickname "GUS" None)).
Proof.
  split; [|split; [|split; [|split; [|split; [|split; [|split; [|split]]]]]]].
  - intros row m Ht. fold (columnText row). split.
    + intros H. apply find_first in H as (b & a & -> & Hm & Hb).
      exists b, a. split; [done|]. split; [by apply (textMatches_test row m Ht)|].
      intros x Hx. apply (textMatches_test_false row x Ht). by apply Hb.
    + intros (b & a & -> & Hm & Hb). apply find_first. exists b, a.
      split; [done|]. split; [by apply (textMatches_test row m Ht)|].
      intros x Hx. apply (textMatches_test_false row x Ht). by apply Hb.
  - intros row Ht. split.
    + intros H x Hx. apply (textMatches_test_false row x Ht).
      by apply (proj1 (find_nothing _ _) H).
    + intros H. apply find_nothing. intros x Hx.
      apply (textMatches_test_false row x Ht). by apply H.
  - intros row m Hf. split.
    + intros H. apply find_first in H as (b & a & -> & Hm & Hb).
      exists b, a. split; [done|]. split; [by apply (emptyMatches_test row m Hf)|].
      intros x Hx. apply (emptyMatches_test_false row x Hf). by apply Hb.
    + intros (b & a & -> & Hm & Hb). apply find_first. exists b, a.
      split; [done|]. split; [by apply (emptyMatches_test row m Hf)|].
      intros x Hx. apply (emptyMatches_test_false row x Hf). by apply Hb.
  - intros. by apply classifyRow_unmatched.
  - intros buckets row m H. rewrite (classifyRow_matched _ _ _ _ _ H).
    destruct (nonNegative _); auto.
  - intros. rewrite classified_spec. apply filter_split_perm.
  - intros row H. unfold matchingNickname, columnK. by rewrite H.
  - intros row H. unfold matchingNickname, columnK. by rewrite H.
  - intros row H. unfold matchingNickname, columnK. by rewrite H.
Qed.

Lemma C1_first_substring_match_witness :
  matchingNickname [mkNickname "ab" None; mkNickname "A" None; mkNickname "a" None]
                   (rowKL (VString "xAy") (VNumber (Finite (7 # 1))))
  = Some (mkNickname "A" None).
Proof.
  apply (proj1 (C1_first_substring_match
                  [mkNickname "ab" None; mkNickname "A" None; mkNickname "a" None] ∅)
               (rowKL (VString "xAy") (VNumber (Finite (7 # 1)))) (mkNickname "A" None)
               eq_refl).
  exists [mkNickname "ab" None], [mkNickname "a" None].
  split; [reflexivity|]. split; [by exists "x", "y"|].
  intros x [<-|[]]. intros Hs. apply (proj2 (includes_spec _ _)) in Hs.
  vm_compute in Hs. discriminate.
Defined.

End MatchClaim.

(* ===================================================================== *)
(** ** Sorting by a numeric key, highest first *)
(* ===================================================================== *)

Section NumberOrder.

Lemma Qle_bool_true (p q : Q) : Qle_bool p q = true <-> (p <= q)%Q.
Proof. apply Qle_bool_iff. Qed.

Lemma Qle_bool_false (p q : Q) : Qle_bool p q = false <-> (q < p)%Q.
Proof.
  destruct (Qle_bool p q) eqn:E.
  - apply Qle_bool_iff in E. split; [discriminate | lra].
  - split; [intros _ | done]. apply Qnot_le_lt. intros H.
    apply Qle_bool_iff in H. congruence.
Qed.

Lemma opp_inject_Z (z : Z) : inject_Z z = (- inject_Z (- z))%Q.
Proof. unfold inject_Z, Qopp. cbn. by rewrite Z.opp_involutive. Qed.

(** Rounding an integer keeps its sign. *)
Lemma round_int_sign (d : Z) :
  Num.gtb (Num.round (inject_Z d)) Num.zero = (0 <? d).
Proof.
  assert (forall z, 0 < z ->
            match Num.round (inject_Z z) with
            | Finite r => (0 < r)%Q
            | Infinity negative => negative = false
            | NaN => False
            end) as Hpos.
  { intros z Hz. apply round_sign_pos.
    apply Qle_trans with (inject_Z 1); [by vm_compute|]. rewrite <- Zle_Qle. lia. }
  destruct (Z.ltb_spec 0 d) as [Hd|Hd].
  - specialize (Hpos d Hd). destruct (Num.round (inject_Z d)) as [|negative|r]; [done| |].
    + by subst negative.
    + cbn. apply negb_true_iff, Qle_bool_false. done.
  - destruct (Z.eq_dec d 0) as [->|Hne]; [done|].
    rewrite opp_inject_Z, round_opp. specialize (Hpos (- d) ltac:(lia)).
    destruct (Num.round (inject_Z (- d))) as [|negative|r]; [done| |].
    + by subst negative.
    + cbn. apply negb_false_iff, Qle_bool_true. lra.
Qed.

Lemma whole_Finite (q : Q) : wholeKey (Finite q) -> exists z, q = inject_Z z.
Proof. intros H. destruct (H eq_refl) as [z [= ->]]. by exists z. Qed.

(** [b - a > 0] is [a < b] for whole numbers: their difference is
    rounded, and does not vanish unless it is zero. *)
Lemma gtb_sub (a b : number) :
  wholeKey a -> wholeKey b -> Num.gtb (Num.sub b a) Num.zero = Num.ltb a b.
Proof.
  destruct a as [|[]|p], b as [|[]|q]; try reflexivity.
  intros [zp ->]%whole_Finite [zq ->]%whole_Finite.
  unfold Num.sub.
  assert (inject_Z zq - inject_Z zp == inject_Z (zq - zp))%Q as E.
  { unfold Zminus. rewrite inject_Z_plus, inject_Z_opp. ring. }
  rewrite (round_comp _ _ E), round_int_sign. unfold Num.ltb.
  destruct (Z.ltb_spec 0 (zq - zp)).
  - symmetry. apply negb_true_iff, Qle_bool_false. rewrite <- Zlt_Qlt. lia.
  - symmetry. apply negb_false_iff, Qle_bool_true. rewrite <- Zle_Qle. lia.
Qed.

Lemma ltb_geb (a b : number) : Num.ltb a b = true -> Num.geb b a = true.
Proof.
  destruct a as [|[]|p], b as [|[]|q]; try done. simpl.
  intros H. apply negb_true_iff, Qle_bool_false in H. apply Qle_bool_true. lra.
Qed.

Lemma not_ltb_geb (a b : number) :
  Num.isNaN a = false -> Num.isNaN b = false ->
  Num.ltb a b = false -> Num.geb a b = true.
Proof.
  destruct a as [|[]|p], b as [|[]|q]; try done. simpl.
  intros _ _ H. by apply negb_false_iff in H.
Qed.

Lemma geb_trans (a b c : number) :
  Num.geb a b = true -> Num.geb b c = true -> Num.geb a c = true.
Proof.
  destruct a as [|[]|p], b as [|[]|q], c as [|[]|r]; try done. simpl.
  rewrite !Qle_bool_true. lra.
Qed.

Lemma geb_not_NaN (a b : number) : Num.geb a b = true -> Num.isNaN a = false.
Proof. by destruct a as [|[]|p], b as [|[]|q]. Qed.

Lemma ltb_not_eqb (a b v : number) :
  Num.ltb a b = true -> Num.eqb a v = true -> Num.eqb b v = false.
Proof.
  destruct a as [|[]|p], b as [|[]|q], v as [|[]|r]; try done. simpl.
  intros H1 H2. apply negb_true_iff, Qle_bool_false in H1. apply Qeq_bool_iff in H2.
  destruct (Qeq_bool q r) eqn:E; [|done]. apply Qeq_bool_iff in E. lra.
Qed.

Lemma geb_antisym (a b : number) :
  Num.geb a b = true -> Num.geb b a = true -> Num.eqb a b = true.
Proof.
  destruct a as [|[]|p], b as [|[]|q]; try done. simpl.
  rewrite !Qle_bool_true. intros H1 H2. apply Qeq_bool_iff. lra.
Qed.

Lemma eqb_refl (a : number) : Num.isNaN a = false -> Num.eqb a a = true.
Proof. destruct a as [|[]|p]; try done. intros _. by apply Qeq_bool_iff. Qed.

End NumberOrder.

Section SortFacts.
Context {A : Type} (key : A -> number).

Local Abbreviation sort := (ArraySort.sort (descending key)).
Local Abbreviation insert := (ArraySort.insert (descending key)).

Lemma after_ltb (x y : A) :
  wholeKey (key x) -> wholeKey (key y) ->
  ArraySort.after (descending key) x y = Num.ltb (key x) (key y).
Proof. intros Hx Hy. unfold ArraySort.after, descending. by apply gtb_sub. Qed.

Lemma insert_perm (x : A) (l : list A) : insert x l ≡ₚ x :: l.
Proof.
  induction l as [|y l IH]; [done|]. simpl.
  destruct (ArraySort.after (descending key) x y); [|done].
  rewrite IH. apply Permutation_swap.
Qed.

Lemma sort_perm (l : list A) : sort l ≡ₚ l.
Proof.
  induction l as [|x l IH]; [done|]. simpl.
  fold (sort l). by rewrite insert_perm, IH.
Qed.

Lemma insert_sorted (x : A) (l : list A) :
  wholeKey (key x) -> Forall (fun y => wholeKey (key y)) l ->
  Num.isNaN (key x) = false ->
  Forall (fun y => Num.isNaN (key y) = false) l ->
  StronglySorted (notBelow key) l ->
  StronglySorted (notBelow key) (insert x l).
Proof.
  intros Wx Wl Hx Hl Hs. induction Hs as [|y l Hs IH Hy]; simpl.
  - constructor; [constructor | constructor].
  - apply Forall_cons in Hl as [Hyn Hl]. apply Forall_cons in Wl as [Wy Wl].
    rewrite after_ltb by done.
    destruct (Num.ltb (key x) (key y)) eqn:E.
    + constructor; [by apply IH|].
      rewrite insert_perm.
      constructor; [by apply ltb_geb | exact Hy].
    + assert (Hxy : notBelow key x y) by (by apply not_ltb_geb).
      constructor; [by constructor|]. constructor; [done|].
      eapply Forall_impl; [exact Hy|]. intros z Hz. by eapply geb_trans.
Qed.

(** Sorted highest first, when the keys are whole and none is NaN. *)
Lemma sort_sorted (l : list A) :
  Forall (fun y => wholeKey (key y)) l ->
  Forall (fun y => Num.isNaN (key y) = false) l ->
  StronglySorted (notBelow key) (sort l).
Proof.
  induction l as [|x l IH]; intros Wl Hl; simpl; [constructor|].
  apply Forall_cons in Hl as [Hx Hl]. apply Forall_cons in Wl as [Wx Wl].
  apply insert_sorted; [done | by rewrite sort_perm | done | by rewrite sort_perm | by apply IH].
Qed.

Lemma insert_withKey (v : number) (x : A) (l : list A) :
  wholeKey (key x) -> Forall (fun y => wholeKey (key y)) l ->
  withKey key v (insert x l) = withKey key v (x :: l).
Proof.
  intros Wx Wl. induction Wl as [|y l Wy Wl IH]; [done|].
  cbn [ArraySort.insert]. rewrite after_ltb by done.
  destruct (Num.ltb (key x) (key y)) eqn:E; [|done].
  unfold withKey in *. cbn [List.filter] in *. rewrite IH.
  destruct (Num.eqb (key x) v) eqn:Ex; [|done].
  by rewrite (ltb_not_eqb _ _ _ E Ex).
Qed.

(** The sort is stable: elements with equal keys keep their order. *)
Lemma sort_stable (v : number) (l : list A) :
  Forall (fun y => wholeKey (key y)) l ->
  withKey key v (sort l) = withKey key v l.
Proof.
  induction 1 as [|x l Wx Wl IH]; [done|]. cbn [ArraySort.sort fold_right].
  fold (sort l). rewrite insert_withKey by (done || by rewrite sort_perm).
  unfold withKey in *. cbn [List.filter]. by rewrite IH.
Qed.

Lemma withKey_cons_inv (v : number) (x : A) (l1 l2 : list A) :
  withKey key v (x :: l1) = withKey key v (x :: l2) -> withKey key v l1 = withKey key v l2.
Proof.
  unfold withKey. cbn [List.filter]. destruct (Num.eqb (key x) v); [|done].
  by intros [= ->].
Qed.

(** Only one arrangement of a list without NaN keys is sorted highest
    first with equal keys in a given order: the result of the sort does
    not depend on how the sorting proceeds. *)
Lemma sorted_stable_unique (l1 l2 : list A) :
  Forall (fun y => Num.isNaN (key y) = false) l1 ->
  l2 ≡ₚ l1 ->
  StronglySorted (notBelow key) l1 ->
  StronglySorted (notBelow key) l2 ->
  (forall v, withKey key v l2 = withKey key v l1) ->
  l2 = l1.
Proof.
  revert l2. induction l1 as [|x l1 IH]; intros l2 Hn Hp S1 S2 Hk.
  - by apply Permutation_nil_r in Hp.
  - destruct l2 as [|y l2].
    { by apply Permutation_nil_cons in Hp. }
    apply Forall_cons in Hn as [Hx Hn].
    apply StronglySorted_inv in S1 as [S1 F1].
    apply StronglySorted_inv in S2 as [S2 F2].
    assert (Num.isNaN (key y) = false) as Hy.
    { assert (Forall (fun z => Num.isNaN (key z) = false) (y :: l2)) as Hall
        by (rewrite Hp; by constructor).
      by apply Forall_cons in Hall as [? _]. }
    assert (Num.geb (key x) (key y) = true) as Hxy.
    { assert (y ∈ x :: l1) as Hin by (rewrite <- Hp; left).
      apply elem_of_cons in Hin as [->|Hin].
      - destruct (key x) as [|[]|q]; try done; by apply Qle_bool_true, Qle_refl.
      - by apply (proj1 (Forall_forall _ _) F1). }
    assert (Num.geb (key y) (key x) = true) as Hyx.
    { assert (x ∈ y :: l2) as Hin by (rewrite Hp; left).
      apply elem_of_cons in Hin as [->|Hin].
      - destruct (key y) as [|[]|q]; try done; by apply Qle_bool_true, Qle_refl.
      - by apply (proj1 (Forall_forall _ _) F2). }
    pose proof (geb_antisym _ _ Hyx Hxy) as Eyx.
    assert (y = x) as ->.
    { specialize (Hk (key x)). unfold withKey in Hk. cbn [List.filter] in Hk.
      rewrite Eyx, (eqb_refl _ Hx) in Hk. by injection Hk. }
    f_equal. apply IH; try done.
    + by apply Permutation_cons_inv in Hp.
    + intros v. apply (withKey_cons_inv v x). apply Hk.
Qed.

End SortFacts.

(* ===================================================================== *)
(** ** The workbook that [filterWorkbookByNicknames] returns *)
(* ===================================================================== *)

Section OutputFacts.

Lemma includes_In (names : list string) (name : string) :
  Val.includes names name = true <-> In name names.
Proof.
  unfold Val.includes. rewrite existsb_exists. split.
  - intros (x & Hx & E). apply String.eqb_eq in E. by subst.
  - intros H. exists name. split; [done | apply String.eqb_refl].
Qed.

Lemma includes_not_In (names : list string) (name : string) :
  Val.includes names name = false <-> ~ In name names.
Proof. rewrite <- includes_In. by destruct (Val.includes names name). Qed.

Lemma byProfitLoss_descending : byProfitLoss = descending profitOf.
Proof. reflexivity. Qed.

Lemma filter_throws workbook nicknames nameMapping :
  ~ In targetSheetName (SheetNames workbook) ->
  filterWorkbookByNicknames workbook nicknames nameMapping = Throw targetSheetNotFound.
Proof.
  intros H. apply includes_not_In in H. unfold filterWorkbookByNicknames.
  by rewrite H.
Qed.

Lemma filter_empty workbook nameMapping :
  In targetSheetName (SheetNames workbook) ->
  filterWorkbookByNicknames workbook [] nameMapping =
  Ok (book_append_sheet book_new [] targetSheetName).
Proof.
  intros H. apply includes_In in H. unfold filterWorkbookByNicknames.
  by rewrite H.
Qed.

Lemma filter_returns workbook nicknames nameMapping :
  In targetSheetName (SheetNames workbook) ->
  nicknames <> [] ->
  filterWorkbookByNicknames workbook nicknames nameMapping =
  Ok (book_append_sheet book_new
        (combinedData
           (sortedPositive nicknames nameMapping (sheet_to_json workbook targetSheetName))
           (sortedNegative nicknames nameMapping (sheet_to_json workbook targetSheetName)))
        targetSheetName).
Proof.
  intros H Hn. apply includes_In in H. unfold filterWorkbookByNicknames.
  rewrite H. by destruct nicknames.
Qed.

Lemma written_append (ws : WorkSheet) :
  writtenSheet (Ok (book_append_sheet book_new ws targetSheetName)) = Some ws.
Proof. unfold writtenSheet, book_append_sheet. simpl. apply lookup_insert_eq. Qed.

(** The rows that [downloadExcelFile] reads from a workbook holding one
    sheet under the target name. *)
Lemma data_written (sheet : WorkSheet) :
  Download.data (book_append_sheet book_new sheet targetSheetName) = sheet.
Proof.
  unfold Download.data, book_append_sheet, book_new, sheet_to_json.
  cbn [SheetNames Sheets app]. by rewrite lookup_insert_eq.
Qed.

(** What the filter returns, in one equation. *)
Lemma filter_written workbook nicknames nameMapping out :
  filterWorkbookByNicknames workbook nicknames nameMapping = Ok out ->
  Download.data out =
  match nicknames with
  | [] => []
  | _ => combinedData
           (sortedPositive nicknames nameMapping (sheet_to_json workbook targetSheetName))
           (sortedNegative nicknames nameMapping (sheet_to_json workbook targetSheetName))
  end.
Proof.
  unfold filterWorkbookByNicknames. cbv zeta. destruct (negb _); [done|].
  destruct nicknames as [|n nicknames]; intros [= <-]; by rewrite data_written.
Qed.

Lemma combinedData_layout (positiveData negativeData : list Row) :
  combinedData positiveData negativeData =
  mainTable positiveData negativeData ++ replicate 10 [] ++
  transferTable ++ [[]; []] ++ transferTable ++ [[]; []] ++ transferTable.
Proof.
  unfold combinedData, mainTable. cbn [app]. f_equal.
  rewrite <- !app_assoc. cbn [app]. reflexivity.
Qed.

Lemma matchedRows_length nicknames nameMapping data :
  Forall (fun r => length r = 12%nat) (matchedRows nicknames nameMapping data).
Proof.
  induction data as [|row data IH]; [constructor|].
  rewrite matchedRows_cons. destruct (matchingNickname nicknames row); [|done].
  by constructor.
Qed.

Lemma Forall_filter_bool {A : Type} (P : A -> Prop) (p : A -> bool) (l : list A) :
  Forall P l -> Forall P (List.filter p l).
Proof.
  induction 1 as [|x l Hx Hl IH]; simpl; [constructor|].
  destruct (p x); [by constructor | done].
Qed.

Lemma Forall_filter_test {A : Type} (p : A -> bool) (l : list A) :
  Forall (fun x => p x = true) (List.filter p l).
Proof.
  induction l as [|x l IH]; simpl; [constructor|].
  destruct (p x) eqn:E; [by constructor | done].
Qed.

Lemma sortedPositive_perm nicknames nameMapping jsonData :
  sortedPositive nicknames nameMapping jsonData ≡ₚ
  List.filter nonNegative (matchedRows nicknames nameMapping (drop 3 jsonData)).
Proof.
  unfold sortedPositive. rewrite byProfitLoss_descending, sort_perm.
  by rewrite classified_spec.
Qed.

Lemma sortedNegative_perm nicknames nameMapping jsonData :
  sortedNegative nicknames nameMapping jsonData ≡ₚ
  List.filter (fun r => negb (nonNegative r))
              (matchedRows nicknames nameMapping (drop 3 jsonData)).
Proof.
  unfold sortedNegative. rewrite byProfitLoss_descending, sort_perm.
  by rewrite classified_spec.
Qed.

Lemma mainTable_rows nicknames nameMapping jsonData :
  Forall (fun r => length r = 12%nat \/ r = [])
         (mainTable (sortedPositive nicknames nameMapping jsonData)
                    (sortedNegative nicknames nameMapping jsonData)).
Proof.
  assert (Hm := matchedRows_length nicknames nameMapping (drop 3 jsonData)).
  unfold mainTable. constructor; [by left|]. rewrite !Forall_app. repeat split.
  - rewrite sortedPositive_perm. apply Forall_filter_bool.
    eapply Forall_impl; [exact Hm|]. by left.
  - repeat constructor; by right.
  - constructor; [by left|]. rewrite sortedNegative_perm. apply Forall_filter_bool.
    eapply Forall_impl; [exact Hm|]. by left.
Qed.

Lemma count_transfer_main (rows : list Row) :
  Forall (fun r => length r = 12%nat \/ r = []) rows ->
  List.filter isTransferHeader rows = [].
Proof.
  induction 1 as [|r rows Hr _ IH]; [done|]. simpl. rewrite IH.
  unfold isTransferHeader. destruct Hr as [-> | ->]; reflexivity.
Qed.

End OutputFacts.

Section OutputClaims.

Lemma eqb_geb_zero (a v : number) :
  Num.eqb a v = true -> Num.geb a Num.zero = Num.geb v Num.zero.
Proof.
  destruct a as [|[]|p], v as [|[]|q]; try done. simpl.
  intros H%Qeq_bool_iff.
  destruct (Qle_bool 0 p) eqn:Ep, (Qle_bool 0 q) eqn:Eq; try done.
  - apply Qle_bool_true in Ep. apply Qle_bool_false in Eq. lra.
  - apply Qle_bool_false in Ep. apply Qle_bool_true in Eq. lra.
Qed.

Lemma withKey_nonNegative (v : number) (l : list Row) :
  Num.geb v Num.zero = true ->
  withKey profitOf v (List.filter nonNegative l) = withKey profitOf v l.
Proof.
  intros Hv. induction l as [|r l IH]; [done|]. unfold withKey in *. simpl.
  destruct (Num.eqb (profitOf r) v) eqn:E.
  - unfold nonNegative at 1. rewrite (eqb_geb_zero _ _ E), Hv. simpl.
    by rewrite E, IH.
  - destruct (nonNegative r); simpl; by rewrite ?E, IH.
Qed.

Lemma withKey_negative (v : number) (l : list Row) :
  Num.geb v Num.zero = false ->
  withKey profitOf v (List.filter (fun r => negb (nonNegative r)) l) = withKey profitOf v l.
Proof.
  intros Hv. induction l as [|r l IH]; [done|]. unfold withKey in *. simpl.
  destruct (Num.eqb (profitOf r) v) eqn:E.
  - unfold nonNegative at 1. rewrite (eqb_geb_zero _ _ E), Hv. simpl.
    by rewrite E, IH.
  - destruct (nonNegative r); simpl; by rewrite ?E, IH.
Qed.

Lemma ltb_zero_geb (v : number) : Num.ltb v Num.zero = true -> Num.geb v Num.zero = false.
Proof. destruct v as [|[]|q]; try done. simpl. by intros ->%negb_true_iff. Qed.

Lemma negative_filter (l : list Row) :
  Forall (fun r => Num.isNaN (profitOf r) = false) l ->
  List.filter (fun r => negb (nonNegative r)) l
  = List.filter (fun r => Num.ltb (profitOf r) Num.zero) l.
Proof.
  induction 1 as [|r l Hr _ IH]; [done|]. cbn [List.filter]. rewrite IH.
  assert (negb (nonNegative r) = Num.ltb (profitOf r) Num.zero) as ->; [|done].
  unfold nonNegative. destruct (profitOf r) as [|[]|q]; try done.
Qed.

Lemma roundTowardZero_whole (x : number) : wholeKey (roundTowardZero x).
Proof.
  destruct x as [|negative|q]; [done|by destruct negative|]. intros _.
  unfold roundTowardZero. destruct (Num.geb _ _); by eexists.
Qed.

(** The profit/loss of an output row is whole. *)
Lemma matched_whole nicknames nameMapping (data : list Row) :
  Forall (fun r => wholeKey (profitOf r)) (matchedRows nicknames nameMapping data).
Proof.
  unfold matchedRows. induction data as [|row data IH]; [constructor|]. cbn [omap list_omap].
  unfold outputRow at 1. destruct (matchingNickname nicknames row) as [m|]; [|done].
  cbn [fmap option_fmap option_map]. constructor; [|done].
  apply roundTowardZero_whole.
Qed.

(** C3 (as stated, refuted): a matched row whose column L holds text has
    the profit/loss NaN, which is neither [>= 0] nor [< 0]; the row is
    written all the same, in the second block of the sheet. *)
Lemma C3_nan_row_counterexample :
  writtenSheet
    (filterWorkbookByNicknames
       (bookOf [rowKL (VString "gus") (VString "abc")]) [mkNickname "gus" None] ∅)
  = Some (combinedData []
            [rowData ∅ (rowKL (VString "gus") (VString "abc")) (mkNickname "gus" None)]) /\
  profitOf (rowData ∅ (rowKL (VString "gus") (VString "abc")) (mkNickname "gus" None)) = NaN /\
  Num.ltb NaN Num.zero = false /\
  Num.geb NaN Num.zero = false.
Proof. repeat split; try reflexivity. Qed.

(** C3 (amended): the matched rows with profit/loss [>= 0] form the
    first bucket; it is sorted by profit/loss, highest first, rows of
    equal profit/loss keep the order in which the scan met them, and no
    other arrangement of these rows has the two properties.  When no
    matched row has the profit/loss NaN, the same holds of the second
    bucket and the matched rows with profit/loss [< 0].  (With a NaN among
    the keys the comparison is not consistent, and the order of the second
    bucket is not claimed.) *)
Theorem C3_buckets_sorted_stable
    (workbook : WorkBook) (nicknames : list NicknameWithLine)
    (nameMapping : gmap string string) :
  In targetSheetName (SheetNames workbook) ->
  nicknames <> [] ->
  let matched :=
    matchedRows nicknames nameMapping (drop 3 (sheet_to_json workbook targetSheetName)) in
  let positive := List.filter nonNegative matched in
  let negative := List.filter (fun r => Num.ltb (profitOf r) Num.zero) matched in
  exists positiveData negativeData,
    writtenSheet (filterWorkbookByNicknames workbook nicknames nameMapping)
      = Some (combinedData positiveData negativeData) /\
    positiveData ≡ₚ positive /\
    Forall (fun r => Num.geb (profitOf r) Num.zero = true) positiveData /\
    StronglySorted (notBelow profitOf) positiveData /\
    (forall v, Num.geb v Num.zero = true ->
               withKey profitOf v positiveData = withKey profitOf v matched) /\
    (forall l, l ≡ₚ positive ->
               StronglySorted (notBelow profitOf) l ->
               (forall v, withKey profitOf v l = withKey profitOf v positive) ->
               l = positiveData) /\
    (Forall (fun r => Num.isNaN (profitOf r) = false) matched ->
     negativeData ≡ₚ negative /\
     Forall (fun r => Num.ltb (profitOf r) Num.zero = true) negativeData /\
     StronglySorted (notBelow profitOf) negativeData /\
     (forall v, Num.ltb v Num.zero = true ->
                withKey profitOf v negativeData = withKey profitOf v matched) /\
     (forall l, l ≡ₚ negative ->
                StronglySorted (notBelow profitOf) l ->
                (forall v, withKey profitOf v l = withKey profitOf v negative) ->
                l = negativeData)).
Proof.
  intros Hin Hne matched positive negative.
  set (json := sheet_to_json workbook targetSheetName) in *.
  exists (sortedPositive nicknames nameMapping json),
         (sortedNegative nicknames nameMapping json).
  pose proof (matched_whole nicknames nameMapping (drop 3 json)) as Hwhole.
  fold matched in Hwhole.
  assert (Forall (fun r => wholeKey (profitOf r)) positive) as Wpos
    by (by apply Forall_filter_bool).
  assert (Forall (fun r => Num.isNaN (profitOf r) = false) positive) as Npos.
  { eapply Forall_impl; [apply (Forall_filter_test nonNegative)|].
    intros r Hr. exact (geb_not_NaN _ _ Hr). }
  assert (sortedPositive nicknames nameMapping json = ArraySort.sort (descending profitOf) positive)
    as Epos by (unfold sortedPositive; by rewrite byProfitLoss_descending, classified_spec).
  assert (sortedNegative nicknames nameMapping json
          = ArraySort.sort (descending profitOf)
              (List.filter (fun r => negb (nonNegative r)) matched))
    as Eneg by (unfold sortedNegative; by rewrite byProfitLoss_descending, classified_spec).
  assert (Hpos : Forall (fun r => Num.geb (profitOf r) Num.zero = true)
                        (sortedPositive nicknames nameMapping json)).
  { rewrite sortedPositive_perm. apply (Forall_filter_test nonNegative). }
  assert (Spos : StronglySorted (notBelow profitOf) (sortedPositive nicknames nameMapping json))
    by (rewrite Epos; by apply sort_sorted).
  split; [by rewrite filter_returns, written_append|].
  split; [apply sortedPositive_perm|].
  split; [exact Hpos|]. split; [exact Spos|]. split; [|split].
  - intros v Hv. rewrite Epos, sort_stable by done. by apply withKey_nonNegative.
  - intros l Hl Sl Hk. apply (sorted_stable_unique profitOf); try done.
    + eapply Forall_impl; [exact Hpos|]. intros r Hr. exact (geb_not_NaN _ _ Hr).
    + rewrite Hl. symmetry. apply sortedPositive_perm.
    + intros v. rewrite Hk, Epos. symmetry. by apply sort_stable.
  - intros Hnan. rewrite Eneg. rewrite (negative_filter matched Hnan). fold negative.
    assert (Forall (fun r => wholeKey (profitOf r)) negative) as Wneg
      by (by apply Forall_filter_bool).
    assert (Forall (fun r => Num.isNaN (profitOf r) = false) negative) as Nneg
      by (by apply Forall_filter_bool).
    assert (Sneg : StronglySorted (notBelow profitOf)
                     (ArraySort.sort (descending profitOf) negative))
      by (by apply sort_sorted).
    split; [apply sort_perm|]. split; [|split; [exact Sneg|split]].
    + rewrite sort_perm. apply (Forall_filter_test (fun r => Num.ltb (profitOf r) Num.zero)).
    + intros v Hv. rewrite sort_stable by done. unfold negative.
      rewrite <- (negative_filter matched Hnan). by apply withKey_negative, ltb_zero_geb.
    + intros l Hl Sl Hk. apply (sorted_stable_unique profitOf); try done.
      * by rewrite sort_perm.
      * rewrite Hl. symmetry. apply sort_perm.
      * intros v. rewrite Hk. symmetry. by apply sort_stable.
Qed.

Lemma C3_buckets_sorted_stable_witness :
  exists positiveData negativeData,
    writtenSheet
      (filterWorkbookByNicknames
         (bookOf [rowKL (VString "gus1") (VNumber (Finite (-3 # 1)));
                  rowKL (VString "other") (VNumber (Finite (9 # 1)));
                  rowKL (VString "gus2") (VNumber (Finite (7 # 1)));
                  rowKL (VString "gus3") (VNumber (Finite (-1 # 1)));
                  rowKL (VString "gus4") (VNumber (Finite (7 # 1)))])
         [mkNickname "gus" None] ∅)
      = Some (combinedData positiveData negativeData) /\
    [rowData ∅ (rowKL (VString "gus2") (VNumber (Finite (7 # 1)))) (mkNickname "gus" None);
     rowData ∅ (rowKL (VString "gus4") (VNumber (Finite (7 # 1)))) (mkNickname "gus" None)]
      = positiveData /\
    [rowData ∅ (rowKL (VString "gus3") (VNumber (Finite (-1 # 1)))) (mkNickname "gus" None);
     rowData ∅ (rowKL (VString "gus1") (VNumber (Finite (-3 # 1)))) (mkNickname "gus" None)]
      = negativeData.
Proof.
  destruct (C3_buckets_sorted_stable
              (bookOf [rowKL (VString "gus1") (VNumber (Finite (-3 # 1)));
                       rowKL (VString "other") (VNumber (Finite (9 # 1)));
                       rowKL (VString "gus2") (VNumber (Finite (7 # 1)));
                       rowKL (VString "gus3") (VNumber (Finite (-1 # 1)));
                       rowKL (VString "gus4") (VNumber (Finite (7 # 1)))])
              [mkNickname "gus" None] ∅)
    as (p & n & H1 & _ & _ & _ & _ & H6 & H7).
  - left. reflexivity.
  - discriminate.
  - destruct H7 as (_ & _ & _ & _ & H11); [repeat constructor|].
    exists p, n. split; [exact H1|]. split.
    + apply H6; [reflexivity|repeat constructor|reflexivity].
    + apply H11; [apply Permutation_swap|repeat constructor|].
      intros v. unfold withKey.
      change (List.filter (fun r => Num.ltb (profitOf r) Num.zero) _)
        with [rowData ∅ (rowKL (VString "gus1") (VNumber (Finite (-3 # 1))))
                (mkNickname "gus" None);
              rowData ∅ (rowKL (VString "gus3") (VNumber (Finite (-1 # 1))))
                (mkNickname "gus" None)].
      cbn [List.filter].
      change (profitOf (rowData ∅ (rowKL (VString "gus1") (VNumber (Finite (-3 # 1))))
                          (mkNickname "gus" None))) with (Finite (-3 # 1)).
      change (profitOf (rowData ∅ (rowKL (VString "gus3") (VNumber (Finite (-1 # 1))))
                          (mkNickname "gus" None))) with (Finite (-1 # 1)).
      destruct v as [| |q]; try reflexivity. cbn [Num.eqb].
      destruct (Qeq_bool (-1 # 1) q) eqn:E1, (Qeq_bool (-3 # 1) q) eqn:E3; try reflexivity.
      apply Qeq_bool_iff in E1. apply Qeq_bool_iff in E3. exfalso. lra.
Defined.

(** C4 (as stated, refuted): with an empty entry list the written sheet
    has no rows at all, so no transfer sub-table. *)
Lemma C4_empty_list_counterexample :
  In targetSheetName (SheetNames (bookOf [rowKL (VString "gus") (VNumber (Finite 5))])) /\
  writtenSheet
    (filterWorkbookByNicknames (bookOf [rowKL (VString "gus") (VNumber (Finite 5))]) [] ∅)
  = Some [] /\
  length (List.filter isTransferHeader []) <> 3%nat.
Proof. split; [by left|]. split; [reflexivity | discriminate]. Qed.

(** C4 (amended): for a workbook that has the target sheet and a
    non-empty entry list, the written sheet is the main table, ten empty
    spacer rows, and three transfer sub-tables (the Avsender header row of
    five columns and ten blank rows of five cells each) with two empty
    rows between consecutive sub-tables; the sheet has exactly three
    five-column Avsender rows. *)
Theorem C4_three_transfer_tables
    (workbook : WorkBook) (nicknames : list NicknameWithLine)
    (nameMapping : gmap string string) :
  In targetSheetName (SheetNames workbook) ->
  nicknames <> [] ->
  exists out main sheet,
    filterWorkbookByNicknames workbook nicknames nameMapping = Ok out /\
    SheetNames out = [targetSheetName] /\
    Sheets out !! targetSheetName = Some sheet /\
    main = mainTable
             (sortedPositive nicknames nameMapping (sheet_to_json workbook targetSheetName))
             (sortedNegative nicknames nameMapping (sheet_to_json workbook targetSheetName)) /\
    sheet = main ++ replicate 10 [] ++
            transferTable ++ [[]; []] ++ transferTable ++ [[]; []] ++ transferTable /\
    transferTable = transferTableHeaders :: replicate 10 (replicate 5 (VString "")) /\
    transferTableHeaders
      = map VString ["Avsender"; "sum"; "Mottaker"; "bekreftet"; "purra"] /\
    Forall (fun r => length r = 12%nat \/ r = []) main /\
    length (List.filter isTransferHeader sheet) = 3%nat.
Proof.
  intros Hin Hne. eexists _, _, _.
  split; [by apply filter_returns|]. split; [reflexivity|].
  split; [apply lookup_insert_eq|]. split; [reflexivity|].
  split; [apply combinedData_layout|]. split; [reflexivity|]. split; [reflexivity|].
  split; [apply mainTable_rows|].
  rewrite combinedData_layout, List.filter_app, length_app.
  rewrite count_transfer_main by apply mainTable_rows. reflexivity.
Qed.

Lemma C4_three_transfer_tables_witness :
  exists sheet,
    writtenSheet
      (filterWorkbookByNicknames
         (bookOf [rowKL (VString "Avsender") (VNumber (Finite 5))])
         [mkNickname "avs" None] ∅) = Some sheet /\
    length (List.filter isTransferHeader sheet) = 3%nat.
Proof.
  destruct (C4_three_transfer_tables
              (bookOf [rowKL (VString "Avsender") (VNumber (Finite 5))])
              [mkNickname "avs" None] ∅)
    as (out & main & sheet & H1 & _ & H3 & _ & _ & _ & _ & _ & H9).
  - left. reflexivity.
  - discriminate.
  - exists sheet. split; [|exact H9]. rewrite H1. exact H3.
Defined.

End OutputClaims.

(* ===================================================================== *)
(** ** Profit/loss, thrown errors, column widths *)
(* ===================================================================== *)

Section ProfitFacts.

Lemma Qle_bool_zero (q : Q) : Qle_bool 0 q = (0 <=? Qnum q).
Proof.
  unfold Qle_bool. simpl. by rewrite Z.mul_1_r.
Qed.

Lemma Qfloor_div (q : Q) : Qfloor q = Qnum q / Zpos (Qden q).
Proof. by destruct q. Qed.

Lemma Qceiling_div (q : Q) : Qceiling q = - ((- Qnum q) / Zpos (Qden q)).
Proof. by destruct q. Qed.

(** On a finite value the rounding is truncation toward zero. *)
Lemma roundTowardZero_finite (q : Q) :
  roundTowardZero (Finite q) = Num.ofZ (Z.quot (Qnum q) (Zpos (Qden q))).
Proof.
  unfold roundTowardZero, Num.geb, Num.zero. rewrite Qle_bool_zero.
  destruct (Z.leb_spec 0 (Qnum q)) as [H|H]; simpl; f_equal; f_equal.
  - rewrite Qfloor_div. symmetry. apply Z.quot_div_nonneg; lia.
  - rewrite Qceiling_div.
    rewrite <- (Z.opp_involutive (Qnum q)) at 2.
    rewrite Z.quot_opp_l by lia. f_equal. symmetry.
    apply Z.quot_div_nonneg; lia.
Qed.

Lemma roundTowardZero_floor (q : Q) :
  (0 <= q)%Q -> roundTowardZero (Finite q) = Num.floor (Finite q).
Proof.
  intros H. unfold roundTowardZero, Num.geb, Num.zero.
  apply Qle_bool_true in H. by rewrite H.
Qed.

Lemma roundTowardZero_ceil (q : Q) :
  (q < 0)%Q -> roundTowardZero (Finite q) = Num.ceil (Finite q).
Proof.
  intros H. unfold roundTowardZero, Num.geb, Num.zero.
  apply Qle_bool_false in H. by rewrite H.
Qed.

Lemma geb_ofZ (z : Z) : Num.geb (Num.ofZ z) Num.zero = (0 <=? z).
Proof. unfold Num.geb, Num.ofZ, Num.zero. by rewrite Qle_bool_zero. Qed.

Lemma ltb_ofZ (z : Z) : Num.ltb (Num.ofZ z) Num.zero = (z <? 0).
Proof.
  unfold Num.ltb, Num.ofZ, Num.zero. rewrite Qle_bool_zero. simpl.
  rewrite Z.ltb_antisym. done.
Qed.

(** C2 (as stated, refuted): a matched row whose column L holds the text
    abc has the profit/loss NaN, not an integer; it goes to the second
    bucket and carries the message of the non-negative case. *)
Lemma C2_text_balance_counterexample :
  matchingNickname [mkNickname "gus" None] (rowKL (VString "gus") (VString "abc"))
    = Some (mkNickname "gus" None) /\
  profitLoss (rowKL (VString "gus") (VString "abc")) (mkNickname "gus" None) = NaN /\
  ~ Num.isInteger (profitLoss (rowKL (VString "gus") (VString "abc")) (mkNickname "gus" None)) /\
  classifyRow [mkNickname "gus" None] ∅ ([], []) (rowKL (VString "gus") (VString "abc"))
    = ([], [rowData ∅ (rowKL (VString "gus") (VString "abc")) (mkNickname "gus" None)]) /\
  Val.cell (rowData ∅ (rowKL (VString "gus") (VString "abc")) (mkNickname "gus" None)) 11
    = VString (positiveMessage NaN).
Proof.
  repeat split; try reflexivity. intros [z Hz]. discriminate.
Qed.

(** C2 (amended): for a matched row whose balance minus line (the balance
    alone when the entry has no line) is a finite number, the profit/loss
    is that number truncated toward zero to an integer, the floor for
    values [>= 0] and the ceiling for values [< 0]; a negative result puts
    the row in the second bucket with the negative message, any other
    result puts it in the first bucket with the other message. *)
Theorem C2_profit_loss_truncated
    (nicknames : list NicknameWithLine) (nameMapping : gmap string string)
    (buckets : list Row * list Row) (row : Row) (m : NicknameWithLine) (q : Q) :
  matchingNickname nicknames row = Some m ->
  rawProfitLoss row m = Finite q ->
  rawProfitLoss row m =
    match line m with
    | Some l => Num.sub (Val.toNumber (columnL row)) l
    | None => Val.toNumber (columnL row)
    end /\
  profitLoss row m = Num.ofZ (Z.quot (Qnum q) (Zpos (Qden q))) /\
  ((0 <= q)%Q -> profitLoss row m = Num.floor (Finite q)) /\
  ((q < 0)%Q -> profitLoss row m = Num.ceil (Finite q)) /\
  Num.isInteger (profitLoss row m) /\
  Val.cell (rowData nameMapping row m) 5 = VNumber (profitLoss row m) /\
  (if Z.quot (Qnum q) (Zpos (Qden q)) <? 0
   then classifyRow nicknames nameMapping buckets row
          = (buckets.1, buckets.2 ++ [rowData nameMapping row m]) /\
        Val.cell (rowData nameMapping row m) 11
          = VString (negativeMessage (profitLoss row m))
   else classifyRow nicknames nameMapping buckets row
          = (buckets.1 ++ [rowData nameMapping row m], buckets.2) /\
        Val.cell (rowData nameMapping row m) 11
          = VString (positiveMessage (profitLoss row m))).
Proof.
  intros Hm Hq.
  assert (Hp : profitLoss row m = Num.ofZ (Z.quot (Qnum q) (Zpos (Qden q)))).
  { unfold profitLoss. by rewrite Hq, roundTowardZero_finite. }
  split; [reflexivity|]. split; [exact Hp|].
  split; [intros H; unfold profitLoss; rewrite Hq; by apply roundTowardZero_floor|].
  split; [intros H; unfold profitLoss; rewrite Hq; by apply roundTowardZero_ceil|].
  split; [by eexists|]. split; [reflexivity|].
  unfold classifyRow. rewrite Hm. cbn [rowData Val.cell nth]. unfold message.
  rewrite Hp, geb_ofZ, ltb_ofZ.
  destruct (Z.ltb_spec (Z.quot (Qnum q) (Zpos (Qden q))) 0) as [H|H].
  - destruct (Z.leb_spec 0 (Z.quot (Qnum q) (Zpos (Qden q)))); [lia | done].
  - destruct (Z.leb_spec 0 (Z.quot (Qnum q) (Zpos (Qden q)))); [done | lia].
Qed.

Lemma C2_profit_loss_truncated_witness :
  profitLoss (rowKL (VString "gus") (VNumber (Finite (4728 # 1))))
             (mkNickname "gus" (Some (Finite (5000 # 1))))
    = Finite (-272 # 1) /\
  classifyRow [mkNickname "gus" (Some (Finite (5000 # 1)))] ∅ ([], [])
              (rowKL (VString "gus") (VNumber (Finite (4728 # 1))))
    = ([], [rowData ∅ (rowKL (VString "gus") (VNumber (Finite (4728 # 1))))
                    (mkNickname "gus" (Some (Finite (5000 # 1))))]) /\
  Val.cell (rowData ∅ (rowKL (VString "gus") (VNumber (Finite (4728 # 1))))
                    (mkNickname "gus" (Some (Finite (5000 # 1))))) 11
    = VString "Hei🙂 Saldo er -272, mer info kommer".
Proof.
  destruct (C2_profit_loss_truncated
              [mkNickname "gus" (Some (Finite (5000 # 1)))] ∅ ([], [])
              (rowKL (VString "gus") (VNumber (Finite (4728 # 1))))
              (mkNickname "gus" (Some (Finite (5000 # 1)))) (-272 # 1)
              eq_refl eq_refl)
    as (_ & H2 & _ & _ & _ & _ & H7 & H8).
  split; [exact H2|]. split; [exact H7 | exact H8].
Defined.

End ProfitFacts.

Section ErrorClaims.

Lemma filter_outcome workbook nicknames nameMapping :
  (~ In targetSheetName (SheetNames workbook) /\
   filterWorkbookByNicknames workbook nicknames nameMapping = Throw targetSheetNotFound) \/
  (In targetSheetName (SheetNames workbook) /\
   exists out, filterWorkbookByNicknames workbook nicknames nameMapping = Ok out).
Proof.
  unfold filterWorkbookByNicknames.
  destruct (Val.includes (SheetNames workbook) targetSheetName) eqn:E; simpl.
  - right. split; [by apply includes_In|]. destruct nicknames; by eexists.
  - left. split; [by apply includes_not_In | done].
Qed.

Lemma readNameFile_outcome workbook :
  (~ In nameSheetName (SheetNames workbook) /\
   readNameFile workbook = Throw nameSheetNotFound) \/
  (In nameSheetName (SheetNames workbook) /\
   exists mapping, readNameFile workbook = Ok mapping).
Proof.
  unfold readNameFile.
  destruct (Val.includes (SheetNames workbook) nameSheetName) eqn:E; simpl.
  - right. split; [by apply includes_In | by eexists].
  - left. split; [by apply includes_not_In | done].
Qed.

(** C8: [filterWorkbookByNicknames] throws, and then throws the
    sheet-not-found error of the target sheet, exactly when no sheet of
    the workbook is named Club Member Balance, and returns a workbook
    otherwise; [readNameFile] throws its sheet-not-found error exactly when
    no sheet of the reference workbook is named Player overview, and
    returns a mapping otherwise. *)
Theorem C8_sheet_not_found
    (workbook : WorkBook) (nicknames : list NicknameWithLine)
    (nameMapping : gmap string string) :
  (filterWorkbookByNicknames workbook nicknames nameMapping = Throw targetSheetNotFound
   <-> ~ In "Club Member Balance" (SheetNames workbook)) /\
  (forall msg, filterWorkbookByNicknames workbook nicknames nameMapping = Throw msg ->
               msg = targetSheetNotFound /\
               ~ In "Club Member Balance" (SheetNames workbook)) /\
  (In "Club Member Balance" (SheetNames workbook) <->
   exists out, filterWorkbookByNicknames workbook nicknames nameMapping = Ok out) /\
  (readNameFile workbook = Throw nameSheetNotFound
   <-> ~ In "Player overview" (SheetNames workbook)) /\
  (forall msg, readNameFile workbook = Throw msg ->
               msg = nameSheetNotFound /\ ~ In "Player overview" (SheetNames workbook)) /\
  (In "Player overview" (SheetNames workbook) <->
   exists mapping, readNameFile workbook = Ok mapping).
Proof.
  change "Club Member Balance" with targetSheetName.
  change "Player overview" with nameSheetName.
  destruct (filter_outcome workbook nicknames nameMapping) as [[Hn ->]|[Hi [out ->]]];
    destruct (readNameFile_outcome workbook) as [[Hn' ->]|[Hi' [mapping ->]]];
    repeat split; try done; try intros msg H; try discriminate;
    try (intros _; by eexists); try (by intros [? ?]);
    by injection H as <-.
Qed.

End ErrorClaims.

Section WidthClaims.

Lemma maxLength_fold (cells : list value) (start : nat) :
  fold_left (fun maxLength v =>
               if Nat.ltb maxLength (columnLength v) then columnLength v else maxLength)
            cells start
  = Nat.max start (list_max (map columnLength cells)).
Proof.
  revert start. induction cells as [|v cells IH]; intros start; simpl.
  - lia.
  - rewrite IH. destruct (Nat.ltb_spec start (columnLength v)); lia.
Qed.

(** [maxLength] is the largest cell length of the column. *)
Lemma maxLength_list_max (cells : list value) :
  maxLength cells = list_max (map columnLength cells).
Proof. unfold maxLength. by rewrite maxLength_fold. Qed.

Lemma maxLength_blank (cells : list value) :
  Exists (fun v => Val.truthy v = false) cells -> (10 <= maxLength cells)%nat.
Proof.
  rewrite maxLength_list_max. induction 1 as [v cells Hv | v cells _ IH]; simpl.
  - unfold columnLength at 1. rewrite Hv. lia.
  - lia.
Qed.

Lemma combinedData_blank_cell (positiveData negativeData : list Row) (j : nat) :
  Exists (fun v => Val.truthy v = false)
         (columnCells (combinedData positiveData negativeData) j).
Proof.
  unfold columnCells. rewrite combinedData_layout, !map_app. unfold mainTable.
  rewrite Exists_app. right. rewrite Exists_app. left.
  constructor. by destruct j.
Qed.



End WidthClaims.

(* ===================================================================== *)
(** ** The store is only extended *)
(* ===================================================================== *)

Section StoreFacts.
Import Store.

Lemma wp_ret {A : Type} (a : A) s (Q : result A -> store -> Prop) :
  Q (Ok a) s -> wp (ret a) s Q.
Proof. done. Qed.

Lemma wp_throw {A : Type} (message : string) s (Q : result A -> store -> Prop) :
  Q (Throw message) s -> wp (throw message) s Q.
Proof. done. Qed.

Lemma wp_bind {A B : Type} (m : M A) (k : A -> M B) s (Q : result B -> store -> Prop) :
  wp m s (fun r s' => match r with
                      | Ok a => wp (k a) s' Q
                      | Throw message => Q (Throw message) s'
                      end) ->
  wp (bind m k) s Q.
Proof. unfold wp, bind. by destruct (m s) as [[a|message] s']. Qed.

Lemma wp_run {A : Type} (m : M A) s r s' (Q : result A -> store -> Prop) :
  m s = (r, s') -> Q r s' -> wp m s Q.
Proof. unfold wp. by intros ->. Qed.

Lemma wp_alloc (o : object) s (Q : result loc -> store -> Prop) :
  (forall l, s !! l = None -> Q (Ok l) (<[l := o]> s)) -> wp (alloc o) s Q.
Proof.
  intros H. unfold wp, alloc. simpl. apply H.
  apply not_elem_of_dom, is_fresh.
Qed.

Lemma wp_bind_alloc {B : Type} (o : object) (k : loc -> M B) s
    (Q : result B -> store -> Prop) :
  (forall l, s !! l = None -> wp (k l) (<[l := o]> s) Q) ->
  wp (bind (alloc o) k) s Q.
Proof. intros H. apply wp_bind, wp_alloc. exact H. Qed.

Lemma wp_bind_run {A B : Type} (m : M A) (k : A -> M B) s a s'
    (Q : result B -> store -> Prop) :
  m s = (Ok a, s') -> wp (k a) s' Q -> wp (bind m k) s Q.
Proof. intros Hm H. apply wp_bind. by eapply wp_run. Qed.

Lemma run_load (l : loc) (o : object) s : s !! l = Some o -> load l s = (Ok o, s).
Proof. intros H. unfold load. by rewrite H. Qed.

Lemma run_loadWorkBook l wb s :
  s !! l = Some (OWorkBook wb) -> loadWorkBook l s = (Ok wb, s).
Proof. intros H. unfold loadWorkBook, bind. by rewrite (run_load _ _ _ H). Qed.

Lemma run_loadSheet l ws s :
  s !! l = Some (OSheet ws) -> loadSheet l s = (Ok ws, s).
Proof. intros H. unfold loadSheet, bind. by rewrite (run_load _ _ _ H). Qed.

Lemma run_loadRows l rows s :
  s !! l = Some (ORows rows) -> loadRows l s = (Ok rows, s).
Proof. intros H. unfold loadRows, bind. by rewrite (run_load _ _ _ H). Qed.

Lemma run_loadNicknames l entries s :
  s !! l = Some (ONicknames entries) -> loadNicknames l s = (Ok entries, s).
Proof. intros H. unfold loadNicknames, bind. by rewrite (run_load _ _ _ H). Qed.

Lemma run_loadNameMap l mapping s :
  s !! l = Some (ONameMap mapping) -> loadNameMap l s = (Ok mapping, s).
Proof. intros H. unfold loadNameMap, bind. by rewrite (run_load _ _ _ H). Qed.

Lemma run_push l rows row s :
  s !! l = Some (ORows rows) ->
  push l row s = (Ok tt, <[l := ORows (rows ++ [row])]> s).
Proof. intros H. unfold push, bind. by rewrite (run_loadRows _ _ _ H). Qed.

Lemma run_sort l rows compareFn s :
  s !! l = Some (ORows rows) ->
  sort l compareFn s = (Ok tt, <[l := ORows (ArraySort.sort compareFn rows)]> s).
Proof. intros H. unfold sort, bind. by rewrite (run_loadRows _ _ _ H). Qed.

Lemma run_book_append_sheet wbL wsL name book sheet s :
  s !! wbL = Some (OWorkBook book) ->
  s !! wsL = Some (OSheet sheet) ->
  book_append_sheet wbL wsL name s
  = (Ok tt, <[wbL := OWorkBook (ExcelUtils.book_append_sheet book sheet name)]> s).
Proof.
  intros H1 H2. unfold book_append_sheet, bind.
  by rewrite (run_loadWorkBook _ _ _ H1), (run_loadSheet _ _ _ H2).
Qed.

(** The scan, run on a store: the two arrays grow as
    [ExcelUtils.classifyRow] says, nothing else changes. *)
Lemma run_forEach_classifyRow nsL nmL pL nL entries mapping rows :
  forall s positive negative,
    s !! nsL = Some (ONicknames entries) ->
    s !! nmL = Some (ONameMap mapping) ->
    s !! pL = Some (ORows positive) ->
    s !! nL = Some (ORows negative) ->
    pL <> nL ->
    forEach rows (Store.classifyRow nsL nmL pL nL) s
    = (Ok tt,
       <[nL := ORows (fold_left (ExcelUtils.classifyRow entries mapping) rows
                                (positive, negative)).2]>
         (<[pL := ORows (fold_left (ExcelUtils.classifyRow entries mapping) rows
                                   (positive, negative)).1]> s)).
Proof.
  induction rows as [|row rows IH]; intros s p n Hns Hnm Hp Hn Hpn.
  - cbn. by rewrite (insert_id _ _ _ Hp), (insert_id _ _ _ Hn).
  - assert (HnsP : nsL <> pL) by congruence.
    assert (HnsN : nsL <> nL) by congruence.
    assert (HnmP : nmL <> pL) by congruence.
    assert (HnmN : nmL <> nL) by congruence.
    cbn [forEach fold_left]. unfold bind at 1. unfold Store.classifyRow at 1.
    unfold bind at 1. rewrite (run_loadNicknames _ _ _ Hns).
    destruct (ExcelUtils.matchingNickname entries row) as [m|] eqn:E.
    + rewrite (classifyRow_matched _ mapping (p, n) _ _ E).
      change (nonNegative (rowData mapping row m))
        with (Num.geb (ExcelUtils.profitLoss row m) Num.zero).
      unfold bind at 1. rewrite (run_loadNameMap _ _ _ Hnm).
      destruct (Num.geb (ExcelUtils.profitLoss row m) Num.zero).
      * rewrite (run_push _ _ _ _ Hp). cbn [fst snd].
        rewrite (IH _ (p ++ [ExcelUtils.rowData mapping row m]) n).
        -- by rewrite insert_insert_eq.
        -- by rewrite lookup_insert_ne.
        -- by rewrite lookup_insert_ne.
        -- by rewrite lookup_insert_eq.
        -- by rewrite lookup_insert_ne.
        -- done.
      * rewrite (run_push _ _ _ _ Hn). cbn [fst snd].
        rewrite (IH _ p (n ++ [ExcelUtils.rowData mapping row m])).
        -- rewrite (insert_insert_ne _ pL nL) by done. by rewrite insert_insert_eq.
        -- by rewrite lookup_insert_ne.
        -- by rewrite lookup_insert_ne.
        -- by rewrite lookup_insert_ne.
        -- by rewrite lookup_insert_eq.
        -- done.
    + rewrite (classifyRow_unmatched _ mapping (p, n) _ E). cbn. by apply IH.
Qed.

End StoreFacts.

Section StoreClaim.
Import Store.

Ltac fresh_facts H :=
  repeat (apply lookup_insert_None in H as [H ?]).

Ltac lookup_store :=
  repeat first [ rewrite lookup_insert_eq | rewrite lookup_insert_ne by congruence ];
  try done.

(** C10: run on any store that holds the workbook, the entry array and
    the name mapping, [filterWorkbookByNicknames] leaves every object of
    that store as it was, the three arguments among them, whether it
    returns or throws; what it mutates are objects it created itself.
    The workbook it returns is a new object, and outcome and returned
    workbook are those of [ExcelUtils.filterWorkbookByNicknames]. *)
Theorem C10_inputs_unchanged
    (s : gmap positive object) (workbook nicknames nameMapping : positive)
    (wb : WorkBook) (entries : list NicknameWithLine) (mapping : gmap string string) :
  s !! workbook = Some (OWorkBook wb) ->
  s !! nicknames = Some (ONicknames entries) ->
  s !! nameMapping = Some (ONameMap mapping) ->
  let outcome := (Store.filterWorkbookByNicknames workbook nicknames nameMapping s).1 in
  let s' := (Store.filterWorkbookByNicknames workbook nicknames nameMapping s).2 in
  (forall l o, s !! l = Some o -> s' !! l = Some o) /\
  s' !! workbook = Some (OWorkBook wb) /\
  s' !! nicknames = Some (ONicknames entries) /\
  s' !! nameMapping = Some (ONameMap mapping) /\
  match outcome with
  | Ok out =>
      s !! out = None /\
      exists w, s' !! out = Some (OWorkBook w) /\
                ExcelUtils.filterWorkbookByNicknames wb entries mapping = Ok w
  | Throw message =>
      ExcelUtils.filterWorkbookByNicknames wb entries mapping = Throw message
  end.
Proof.
  intros Hwb Hns Hnm outcome s'. subst outcome s'.
  set (Q := fun (r : result loc) (s' : store) =>
    (forall l o, s !! l = Some o -> s' !! l = Some o) /\
    match r with
    | Ok out =>
        s !! out = None /\
        exists w, s' !! out = Some (OWorkBook w) /\
                  ExcelUtils.filterWorkbookByNicknames wb entries mapping = Ok w
    | Throw message =>
        ExcelUtils.filterWorkbookByNicknames wb entries mapping = Throw message
    end).
  enough (HQ : wp (Store.filterWorkbookByNicknames workbook nicknames nameMapping) s Q).
  { destruct HQ as [Hframe Hout]. split; [exact Hframe|]. by auto 6. }
  unfold Store.filterWorkbookByNicknames.
  apply wp_bind_alloc. intros l1 Fr1.
  eapply wp_bind_run; [apply run_loadWorkBook; by lookup_store|].
  destruct (Val.includes (SheetNames wb) targetSheetName) eqn:E; cbn [negb].
  2:{ apply wp_throw. split; [intros l o Hl; by lookup_store|].
      by apply filter_throws, includes_not_In. }
  apply includes_In in E.
  apply wp_bind_alloc. intros l2 Fr2. fresh_facts Fr2.
  eapply wp_bind_run; [apply run_loadNicknames; by lookup_store|].
  destruct entries as [|e entries].
  - apply wp_bind_alloc. intros l3 Fr3. fresh_facts Fr3.
    eapply wp_bind_run; [eapply run_book_append_sheet; by lookup_store|].
    apply wp_ret. split; [intros l o Hl; by lookup_store|].
    split; [done|]. eexists. split; [by lookup_store|].
    by apply filter_empty.
  - set (ns := e :: entries) in *.
    eapply wp_bind_run; [apply run_loadRows; by lookup_store|].
    apply wp_bind_alloc. intros l3 Fr3. fresh_facts Fr3.
    apply wp_bind_alloc. intros l4 Fr4. fresh_facts Fr4.
    apply wp_bind_alloc. intros l5 Fr5. fresh_facts Fr5.
    eapply wp_bind_run; [apply run_loadRows; by lookup_store|].
    eapply wp_bind_run.
    { eapply (run_forEach_classifyRow nicknames nameMapping l4 l5 ns mapping);
        by lookup_store. }
    eapply wp_bind_run; [eapply run_sort; by lookup_store|].
    eapply wp_bind_run; [eapply run_sort; by lookup_store|].
    eapply wp_bind_run; [apply run_loadRows; by lookup_store|].
    eapply wp_bind_run; [apply run_loadRows; by lookup_store|].
    apply wp_bind_alloc. intros l6 Fr6. fresh_facts Fr6.
    eapply wp_bind_run; [apply run_loadRows; by lookup_store|].
    apply wp_bind_alloc. intros l7 Fr7. fresh_facts Fr7.
    eapply wp_bind_run; [eapply run_book_append_sheet; by lookup_store|].
    apply wp_ret. split; [intros l o Hl; by lookup_store|].
    split; [done|]. eexists. split; [by lookup_store|].
    by apply filter_returns.
Qed.

Lemma C10_inputs_unchanged_witness :
  (Store.filterWorkbookByNicknames 1 2 3
     (<[1%positive := OWorkBook (bookOf [rowKL (VString "gus") (VNumber (Finite 5))])]>
        (<[2%positive := ONicknames [mkNickname "gus" None]]>
           (<[3%positive := ONameMap ∅]> ∅)))).2 !! 1%positive
  = Some (OWorkBook (bookOf [rowKL (VString "gus") (VNumber (Finite 5))])) /\
  (Store.filterWorkbookByNicknames 1 2 3
     (<[1%positive := OWorkBook (bookOf [rowKL (VString "gus") (VNumber (Finite 5))])]>
        (<[2%positive := ONicknames [mkNickname "gus" None]]>
           (<[3%positive := ONameMap ∅]> ∅)))).2 !! 2%positive
  = Some (ONicknames [mkNickname "gus" None]).
Proof.
  destruct (C10_inputs_unchanged
              (<[1%positive := OWorkBook (bookOf [rowKL (VString "gus") (VNumber (Finite 5))])]>
                 (<[2%positive := ONicknames [mkNickname "gus" None]]>
                    (<[3%positive := ONameMap ∅]> ∅)))
              1 2 3
              (bookOf [rowKL (VString "gus") (VNumber (Finite 5))])
              [mkNickname "gus" None] ∅)
    as (_ & H1 & H2 & _); [vm_compute; reflexivity .. |].
  split; [exact H1 | exact H2].
Defined.

End StoreClaim.

(* ===================================================================== *)
(** ** Writing and reading integers *)
(* ===================================================================== *)

Section IntegerText.

Lemma uintValue_pos (d : Decimal.uint) (acc : positive) :
  uintValue d (Zpos acc) = Zpos (Pos.of_uint_acc d acc).
Proof.
  revert acc. induction d; intros acc; simpl; try done;
    rewrite <- IHd; f_equal; lia.
Qed.

Lemma uintValue_of_uint (d : Decimal.uint) : uintValue d 0 = Z.of_N (Pos.of_uint d).
Proof.
  induction d; simpl; try done; by rewrite <- uintValue_pos.
Qed.

Lemma digitsOf_value (n : Z) : 0 <= n -> uintValue (digitsOf n) 0 = n.
Proof.
  intros Hn. destruct n as [|p|p]; [done | | lia]. simpl.
  by rewrite uintValue_of_uint, DecimalPos.Unsigned.of_to.
Qed.

Lemma digitsOf_nonnil (n : Z) : digitsOf n <> Decimal.Nil.
Proof.
  destruct n; try done. apply DecimalPos.Unsigned.to_uint_nonnil.
Qed.

Lemma natToString_digits (n : Z) :
  0 <= n -> Conv.natToString n = NilEmpty.string_of_uint (digitsOf n).
Proof.
  intros Hn. unfold Conv.natToString. destruct n as [|p|p]; [done | | lia].
  simpl. assert (H := DecimalPos.Unsigned.to_uint_nonnil p).
  by destruct (Pos.to_uint p).
Qed.

Lemma readDigits_uint (d : Decimal.uint) (acc : Z) (count : nat) :
  Conv.readDigits (NilEmpty.string_of_uint d) acc count
  = (uintValue d acc, (count + Decimal.nb_digits d)%nat, "").
Proof.
  revert acc count. induction d; intros acc count; simpl;
    rewrite ?IHd, ?Nat.add_0_r, ?Nat.add_succ_r; reflexivity.
Qed.

Lemma allChars_digits (d : Decimal.uint) :
  allChars isDigit (NilEmpty.string_of_uint d) = true.
Proof. induction d; simpl; by rewrite ?IHd. Qed.

Lemma allChars_impl (p q : ascii -> bool) (s : string) :
  (forall c, p c = true -> q c = true) -> allChars p s = true -> allChars q s = true.
Proof.
  intros Hpq. induction s as [|c s IH]; [done|]. simpl.
  intros [Hc Hs]%andb_true_iff. by rewrite (Hpq _ Hc), IH.
Qed.

Lemma allChars_app (p : ascii -> bool) (a b : string) :
  allChars p (a +:+ b) = allChars p a && allChars p b.
Proof.
  induction a as [|c a IH]; [done|]. rewrite app_cons. simpl.
  by rewrite IH, andb_assoc.
Qed.

Lemma isDigit_plain (c : ascii) : isDigit c = true -> plainChar c = true.
Proof.
  unfold isDigit, Conv.digitOf. intros H.
  destruct c as [[] [] [] [] [] [] [] []]; try discriminate H; reflexivity.
Qed.

Lemma isDigit_not_sign (c : ascii) (s : string) :
  isDigit c = true -> Conv.readSign (String c s) = (false, String c s).
Proof.
  unfold isDigit, Conv.digitOf. intros H.
  destruct c as [[] [] [] [] [] [] [] []]; try discriminate H; reflexivity.
Qed.

Lemma isDigit_not_white (c : ascii) : isDigit c = true -> Js.isWhiteSpace c = false.
Proof.
  unfold isDigit, Conv.digitOf. intros H.
  destruct c as [[] [] [] [] [] [] [] []]; try discriminate H; reflexivity.
Qed.

Lemma isDigit_not_Infinity (c : ascii) (s : string) :
  isDigit c = true -> String.prefix "Infinity" (String c s) = false.
Proof.
  unfold isDigit, Conv.digitOf. intros H.
  destruct c as [[] [] [] [] [] [] [] []]; try discriminate H; reflexivity.
Qed.

(** The digits of a number: a non-empty run of digit characters. *)
Lemma natToString_shape (n : Z) :
  0 <= n ->
  exists c s, Conv.natToString n = String c s /\ isDigit c = true /\
              allChars isDigit (String c s) = true.
Proof.
  intros Hn. rewrite natToString_digits by done.
  assert (H := allChars_digits (digitsOf n)).
  assert (Hnil := digitsOf_nonnil n).
  destruct (NilEmpty.string_of_uint (digitsOf n)) as [|c s] eqn:E.
  - by destruct (digitsOf n).
  - exists c, s. split; [done|]. split; [|done].
    simpl in H. by apply andb_true_iff in H as [? _].
Qed.

End IntegerText.

(* ===================================================================== *)
(** ** The text of a number, read as a decimal literal *)
(* ===================================================================== *)

Section DigitRuns.

Lemma digitChar_digit (d : Z) : 0 <= d < 10 -> Conv.digitOf (Conv.digitChar d) = Some d.
Proof.
  intros H.
  assert (d = 0 \/ d = 1 \/ d = 2 \/ d = 3 \/ d = 4 \/ d = 5 \/ d = 6 \/ d = 7 \/ d = 8 \/ d = 9)
    as Hd by lia.
  repeat (destruct Hd as [->|Hd]; [reflexivity|]). by subst d.
Qed.

Lemma fixedDigits_snoc (w : nat) (z : Z) :
  Conv.fixedDigits (S w) z
  = Conv.fixedDigits w (z / 10) +:+ String (Conv.digitChar (z mod 10)) "".
Proof. reflexivity. Qed.

(** Reading a run of [w] digits continues the value with the last [w]
    digits of [z]. *)
Lemma readDigits_fixed (w : nat) (z : Z) (rest : string) (acc : Z) (count : nat) :
  Conv.readDigits (Conv.fixedDigits w z +:+ rest) acc count
  = Conv.readDigits rest (acc * 10 ^ Z.of_nat w + z mod 10 ^ Z.of_nat w) (count + w).
Proof.
  revert z rest. induction w as [|w IH]; intros z rest.
  - cbn [Conv.fixedDigits]. rewrite app_empty_l, Nat.add_0_r.
    change (10 ^ Z.of_nat 0) with 1. rewrite Z.mod_1_r. f_equal. lia.
  - rewrite fixedDigits_snoc, app_assoc_str, app_cons, app_empty_l, IH.
    cbn [Conv.readDigits]. rewrite digitChar_digit by (apply Z.mod_pos_bound; lia).
    rewrite Nat.add_succ_r. f_equal.
    rewrite Nat2Z.inj_succ, Z.pow_succ_r by lia.
    rewrite (Z.rem_mul_r z 10 (10 ^ Z.of_nat w)) by lia. lia.
Qed.

Lemma readDigits_uint_app (d : Decimal.uint) (rest : string) (acc : Z) (count : nat) :
  Conv.readDigits (NilEmpty.string_of_uint d +:+ rest) acc count
  = Conv.readDigits rest (uintValue d acc) (count + Decimal.nb_digits d).
Proof.
  revert acc count. induction d; intros acc count;
    cbn [NilEmpty.string_of_uint uintValue Decimal.nb_digits];
    rewrite ?app_empty_l, ?app_cons, ?Nat.add_0_r, ?Nat.add_succ_r; [done|..];
    simpl; rewrite IHd; reflexivity.
Qed.

Lemma fixedDigits_digits (w : nat) (z : Z) :
  allChars isDigit (Conv.fixedDigits w z) = true.
Proof.
  revert z. induction w as [|w IH]; intros z; [done|].
  rewrite fixedDigits_snoc, allChars_app, IH. cbn [allChars andb].
  unfold isDigit. rewrite digitChar_digit by (apply Z.mod_pos_bound; lia). done.
Qed.

Lemma fixedDigits_first (w : nat) (z : Z) :
  exists c s, Conv.fixedDigits (S w) z = String c s /\ isDigit c = true.
Proof.
  revert z. induction w as [|w IH]; intros z.
  - exists (Conv.digitChar (z mod 10)), "". split; [reflexivity|].
    unfold isDigit. by rewrite digitChar_digit by (apply Z.mod_pos_bound; lia).
  - destruct (IH (z / 10)) as (c & s & E & Hc).
    rewrite fixedDigits_snoc, E, app_cons. by eexists _, _.
Qed.

End DigitRuns.

Section ExponentText.

Lemma readExponent_e (s : string) :
  Conv.readExponent (String "e" s)
  = (let '(neg, s1) := Conv.readSign s in
     let '(e, n, rest) := Conv.readDigits s1 0 0 in
     match n with
     | O => (0, String "e" s)
     | S _ => (if neg then - e else e, rest)
     end).
Proof. reflexivity. Qed.

Lemma exponentPart_e (e : Z) :
  Conv.exponentPart e
  = String "e" (String (if e <? 0 then "-"%char else "+"%char) (Conv.natToString (Z.abs e))).
Proof. unfold Conv.exponentPart. by destruct (e <? 0). Qed.

Lemma readDigits_natToString (n : Z) :
  0 <= n -> exists k, Conv.readDigits (Conv.natToString n) 0 0 = (n, S k, "").
Proof.
  intros Hn. rewrite natToString_digits, readDigits_uint, digitsOf_value by done.
  pose proof (digitsOf_nonnil n) as Hnil.
  destruct (Decimal.nb_digits (digitsOf n)) as [|k] eqn:E.
  - by destruct (digitsOf n).
  - by exists k.
Qed.

Lemma readExponent_exponentPart (e : Z) : Conv.readExponent (Conv.exponentPart e) = (e, "").
Proof.
  rewrite exponentPart_e, readExponent_e.
  destruct (readDigits_natToString (Z.abs e)) as [k Hk]; [lia|].
  destruct (Z.ltb_spec e 0); cbn [Conv.readSign]; rewrite Hk; f_equal; lia.
Qed.

Lemma exponentPart_plain (e : Z) : allChars plainChar (Conv.exponentPart e) = true.
Proof.
  rewrite exponentPart_e. cbn [allChars].
  assert (allChars plainChar (Conv.natToString (Z.abs e)) = true) as Hp.
  { destruct (natToString_shape (Z.abs e)) as (c & s & E & _ & H); [lia|].
    rewrite E. revert H. apply allChars_impl, isDigit_plain. }
  rewrite Hp. by destruct (e <? 0).
Qed.

Lemma scale10_value (m e : Z) : (Conv.scale10 m e == inject_Z m * Num.pow10 e)%Q.
Proof.
  unfold Conv.scale10, Num.pow10. destruct (0 <=? e).
  - by rewrite inject_Z_mult.
  - rewrite Qred_correct. unfold Qeq, Qmult, inject_Z. cbn [Qnum Qden]. lia.
Qed.

End ExponentText.

Section DecimalText.

Lemma readDecimal_whole (s : string) (i : Z) (ni : nat) (s1 : string) :
  Conv.readDigits s 0 0 = (i, S ni, s1) ->
  (s1 = "" \/ exists t, s1 = String "e" t) ->
  Conv.readDecimal s
  = (let '(e, rest) := Conv.readExponent s1 in Some (Conv.scale10 i (e - 0), rest)).
Proof.
  intros H Hs. unfold Conv.readDecimal. rewrite H.
  destruct Hs as [->|[t ->]]; reflexivity.
Qed.

Lemma readDecimal_point (s : string) (i : Z) (ni : nat) (s1 : string)
    (m : Z) (nf : nat) (s2 : string) :
  Conv.readDigits s 0 0 = (i, S ni, String "." s1) ->
  Conv.readDigits s1 i 0 = (m, nf, s2) ->
  Conv.readDecimal s
  = (let '(e, rest) := Conv.readExponent s2 in
     Some (Conv.scale10 m (e - Z.of_nat nf), rest)).
Proof.
  intros H1 H2. unfold Conv.readDecimal. rewrite H1, H2. reflexivity.
Qed.

Lemma readExponent_option (ex : option Z) :
  Conv.readExponent (match ex with Some e => Conv.exponentPart e | None => "" end)
  = (default 0 ex, "").
Proof. destruct ex as [e|]; [apply readExponent_exponentPart|reflexivity]. Qed.

Lemma exponent_option_cases (ex : option Z) :
  let t := match ex with Some e => Conv.exponentPart e | None => "" end in
  (t = "" \/ exists u, t = String "e" u) /\
  forall acc count, Conv.readDigits t acc count = (acc, count, t).
Proof.
  destruct ex as [e|]; cbv zeta.
  - rewrite exponentPart_e. split; [right; by eexists|reflexivity].
  - split; [by left|reflexivity].
Qed.

(** Digits and an optional exponent. *)
Lemma read_whole (w1 : nat) (z : Z) (ex : option Z) :
  0 <= z < 10 ^ Z.of_nat (S w1) ->
  Conv.readDecimal (decimalText w1 z None ex) = Some (Conv.scale10 z (default 0 ex - 0), "").
Proof.
  intros Hz. unfold decimalText. rewrite app_empty_l.
  destruct (exponent_option_cases ex) as [Hc Hd]. cbv zeta in *.
  pose proof (readExponent_option ex) as He.
  set (t := match ex with Some e => Conv.exponentPart e | None => "" end) in *.
  rewrite (readDecimal_whole _ z w1 t).
  - by rewrite He.
  - rewrite readDigits_fixed, Hd. rewrite Z.mod_small by done.
    by rewrite Z.mul_0_l, Z.add_0_l.
  - done.
Qed.

(** Digits, a point, digits and an optional exponent. *)
Lemma read_point (w1 w2 : nat) (s : Z) (ex : option Z) :
  0 <= s < 10 ^ Z.of_nat (S w1 + S w2) ->
  Conv.readDecimal (decimalText w1 (s / 10 ^ Z.of_nat (S w2)) (Some (w2, s)) ex)
  = Some (Conv.scale10 s (default 0 ex - Z.of_nat (S w2)), "").
Proof.
  intros Hs. unfold decimalText. rewrite app_cons.
  destruct (exponent_option_cases ex) as [Hc Hd]. cbv zeta in *.
  assert (0 < 10 ^ Z.of_nat (S w2)) as Hp by (apply Z.pow_pos_nonneg; lia).
  assert (0 <= s / 10 ^ Z.of_nat (S w2) < 10 ^ Z.of_nat (S w1)) as Hq.
  { split; [apply Z.div_pos; lia|].
    apply Z.div_lt_upper_bound; [done|].
    rewrite <- Z.pow_add_r by lia.
    replace (Z.of_nat (S w2) + Z.of_nat (S w1)) with (Z.of_nat (S w1 + S w2)) by lia.
    apply Hs. }
  pose proof (readExponent_option ex) as He.
  set (t := match ex with Some e => Conv.exponentPart e | None => "" end) in *.
  rewrite (readDecimal_point _ (s / 10 ^ Z.of_nat (S w2)) w1
             (Conv.fixedDigits (S w2) s +:+ t) s (S w2) t).
  - by rewrite He.
  - rewrite readDigits_fixed. cbn [Conv.readDigits Conv.digitOf Ascii.is_nat].
    rewrite Z.mod_small by done. by rewrite Z.mul_0_l, Z.add_0_l.
  - rewrite readDigits_fixed, Hd.
    replace (s / 10 ^ Z.of_nat (S w2) * 10 ^ Z.of_nat (S w2) + s mod 10 ^ Z.of_nat (S w2))
      with s; [done|].
    rewrite (Z.div_mod s (10 ^ Z.of_nat (S w2))) at 1 by lia. lia.
Qed.

(** The text begins with a digit and has no white space, slash or
    comma. *)
Lemma decimalText_shape (w1 : nat) (z1 : Z) (frac : option (nat * Z)) (ex : option Z) :
  exists c s, decimalText w1 z1 frac ex = String c s /\ isDigit c = true /\
              allChars plainChar (String c s) = true.
Proof.
  assert (allChars plainChar (decimalText w1 z1 frac ex) = true) as Hp.
  { unfold decimalText. rewrite !allChars_app.
    rewrite (allChars_impl _ _ _ isDigit_plain (fixedDigits_digits _ _)).
    assert (allChars plainChar (match ex with Some e => Conv.exponentPart e | None => "" end)
            = true) as -> by (destruct ex; [apply exponentPart_plain|done]).
    destruct frac as [[w2 z2]|]; [|done]. cbn [allChars].
    by rewrite (allChars_impl _ _ _ isDigit_plain (fixedDigits_digits _ _)). }
  destruct (fixedDigits_first w1 z1) as (c & s & E & Hc).
  revert Hp. unfold decimalText. rewrite E, app_cons. intros Hp. by eexists _, _.
Qed.

End DecimalText.

Section Layouts.

Lemma pow10_inject (a : Z) : 0 <= a -> Num.pow10 a = inject_Z (10 ^ a).
Proof. intros H. unfold Num.pow10. by destruct (Z.leb_spec 0 a); [|lia]. Qed.

Lemma pow10_neg (j : Z) : 0 <= j -> (Num.pow10 (- j) == / inject_Z (10 ^ j))%Q.
Proof.
  intros Hj. assert (0 < 10 ^ j) as Hp by (apply Z.pow_pos_nonneg; lia).
  assert (~ inject_Z (10 ^ j) == 0)%Q as Hne.
  { change 0%Q with (inject_Z 0). rewrite inject_Z_injective. lia. }
  apply (Qmult_inj_r _ _ (inject_Z (10 ^ j))); [done|].
  rewrite <- (pow10_inject j) at 1 by done.
  rewrite <- pow10_add. replace (- j + j) with 0 by lia.
  change (Num.pow10 0) with 1%Q. field. done.
Qed.

Lemma decimalText_digits (w1 : nat) (z : Z) :
  decimalText w1 z None None = Conv.fixedDigits (S w1) z.
Proof. unfold decimalText. by rewrite app_empty_l, app_empty_r. Qed.

(** The layouts in exponent notation. *)
Lemma exponent_layout (s n k : Z) :
  1 <= k -> 10 ^ (k - 1) <= s -> s < 10 ^ k ->
  exists w1 z1 frac ex q,
    (if k =? 1 then Conv.fixedDigits 1 s +:+ Conv.exponentPart (n - 1)
     else Conv.fixedDigits 1 (s / 10 ^ (k - 1)) +:+ "." +:+
          Conv.fixedDigits (Z.to_nat (k - 1)) s +:+ Conv.exponentPart (n - 1))
    = decimalText w1 z1 frac ex /\
    Conv.readDecimal (decimalText w1 z1 frac ex) = Some (q, "") /\
    (q == Conv.decimalValue s n k)%Q.
Proof.
  intros Hk Hlo Hhi.
  assert (0 < 10 ^ (k - 1)) as Hp by (apply Z.pow_pos_nonneg; lia).
  assert (forall e, e = n - k -> (Conv.scale10 s e == Conv.decimalValue s n k)%Q) as Hval.
  { intros e ->. apply scale10_value. }
  destruct (Z.eqb_spec k 1) as [->|Hk1].
  - exists 0%nat, s, None, (Some (n - 1)), (Conv.scale10 s (default 0 (Some (n - 1)) - 0)).
    split; [reflexivity|]. split.
    + apply read_whole. change (10 ^ Z.of_nat 1) with 10. change (10 ^ 1) with 10 in Hhi.
      change (10 ^ (1 - 1)) with 1 in Hlo. lia.
    + apply Hval. cbn [from_option id]. lia.
  - exists 0%nat, (s / 10 ^ Z.of_nat (S (Z.to_nat (k - 2)))),
      (Some (Z.to_nat (k - 2), s)), (Some (n - 1)),
      (Conv.scale10 s (default 0 (Some (n - 1)) - Z.of_nat (S (Z.to_nat (k - 2))))).
    replace (Z.to_nat (k - 1)) with (S (Z.to_nat (k - 2))) by lia.
    split.
    { unfold decimalText.
      by replace (Z.of_nat (S (Z.to_nat (k - 2)))) with (k - 1) by lia. }
    split.
    + apply read_point. split; [lia|].
      by replace (Z.of_nat (1 + S (Z.to_nat (k - 2)))) with k by lia.
    + apply Hval. cbn [from_option id]. lia.
Qed.

(** Each of the layouts is a decimal literal, and its value is
    [s * 10^(n-k)]. *)
Lemma layout_read (s n k : Z) :
  1 <= k -> 10 ^ (k - 1) <= s < 10 ^ k ->
  exists w1 z1 frac ex q,
    Conv.layout s n k = decimalText w1 z1 frac ex /\
    Conv.readDecimal (decimalText w1 z1 frac ex) = Some (q, "") /\
    (q == Conv.decimalValue s n k)%Q.
Proof.
  intros Hk [Hlo Hhi].
  assert (0 < 10 ^ (k - 1)) as Hp by (apply Z.pow_pos_nonneg; lia).
  assert (forall e, e = n - k -> (Conv.scale10 s e == Conv.decimalValue s n k)%Q) as Hval.
  { intros e ->. apply scale10_value. }
  unfold Conv.layout.
  destruct (Z.leb_spec k n) as [H1|H1]; [destruct (Z.leb_spec n 21) as [H2|H2]|];
    cbn [andb].
  - (* the digits, with zeros appended *)
    set (X := s * 10 ^ (n - k)).
    assert (0 <= X < 10 ^ n) as HX.
    { unfold X. assert (0 < 10 ^ (n - k)) by (apply Z.pow_pos_nonneg; lia).
      split; [nia|]. replace n with (k + (n - k)) at 2 by lia.
      rewrite Z.pow_add_r by lia. nia. }
    exists (Z.to_nat (n - 1)), X, None, None, (Conv.scale10 X (default 0 None - 0)).
    replace (Z.to_nat n) with (S (Z.to_nat (n - 1))) by lia.
    split; [by rewrite decimalText_digits|]. split.
    + apply read_whole. by replace (Z.of_nat (S (Z.to_nat (n - 1)))) with n by lia.
    + rewrite scale10_value. unfold Conv.decimalValue, X. cbn [from_option id].
      change (Num.pow10 (0 - 0)) with 1%Q.
      rewrite (pow10_inject (n - k)) by lia. rewrite inject_Z_mult. ring.
  - rewrite andb_false_r. destruct (Z.leb_spec n 0); [lia|]. rewrite andb_false_r.
    by apply (exponent_layout s n k).
  - destruct ((0 <? n) && (n <=? 21)) eqn:C2.
    { apply andb_true_iff in C2 as [C2a C2b].
      apply Z.ltb_lt in C2a. apply Z.leb_le in C2b.
      (* a point inside the digits *)
      exists (Z.to_nat (n - 1)), (s / 10 ^ Z.of_nat (S (Z.to_nat (k - n - 1)))),
        (Some (Z.to_nat (k - n - 1), s)), None,
        (Conv.scale10 s (default 0 None - Z.of_nat (S (Z.to_nat (k - n - 1))))).
      replace (Z.to_nat n) with (S (Z.to_nat (n - 1))) by lia.
      replace (Z.to_nat (k - n)) with (S (Z.to_nat (k - n - 1))) by lia.
      split.
      { unfold decimalText. rewrite app_empty_r.
        by replace (Z.of_nat (S (Z.to_nat (k - n - 1)))) with (k - n) by lia. }
      split.
      - apply read_point. split; [lia|].
        by replace (Z.of_nat (S (Z.to_nat (n - 1)) + S (Z.to_nat (k - n - 1)))) with k by lia.
      - apply Hval. cbn [from_option id]. lia. }
    destruct ((-6 <? n) && (n <=? 0)) eqn:C3.
    { apply andb_true_iff in C3 as [C3a C3b].
      apply Z.ltb_lt in C3a. apply Z.leb_le in C3b.
      (* zeros in front *)
      exists 0%nat, (s / 10 ^ Z.of_nat (S (Z.to_nat (k - n - 1)))),
        (Some (Z.to_nat (k - n - 1), s)), None,
        (Conv.scale10 s (default 0 None - Z.of_nat (S (Z.to_nat (k - n - 1))))).
      assert (s < 10 ^ (k - n)) as Hs.
      { eapply Z.lt_le_trans; [exact Hhi|]. apply Z.pow_le_mono_r; lia. }
      replace (Z.to_nat (k - n)) with (S (Z.to_nat (k - n - 1))) by lia.
      split.
      { unfold decimalText. rewrite app_empty_r.
        replace (Z.of_nat (S (Z.to_nat (k - n - 1)))) with (k - n) by lia.
        rewrite Z.div_small by lia. reflexivity. }
      split.
      - apply read_point. split; [lia|].
        replace (Z.of_nat (1 + S (Z.to_nat (k - n - 1)))) with (1 + (k - n)) by lia.
        rewrite Z.pow_add_r by lia. lia.
      - apply Hval. cbn [from_option id]. lia. }
    apply (exponent_layout s n k); done.
Qed.

End Layouts.

Section ShortestDecimal.

Lemma closest_acceptable (x : Q) (k : Z) (cs : list (Z * Z)) (c : Z * Z) :
  Conv.closest x k cs = Some c -> Conv.acceptable x k c = true.
Proof.
  unfold Conv.closest.
  destruct (List.filter (Conv.acceptable x k) cs) as [|c1 [|c2 l]] eqn:E; [done| |].
  - intros [= <-].
    assert (In c1 (List.filter (Conv.acceptable x k) cs)) as Hin by (rewrite E; by left).
    by apply List.filter_In in Hin as [_ ?].
  - assert (In c1 (List.filter (Conv.acceptable x k) cs)) as H1 by (rewrite E; by left).
    assert (In c2 (List.filter (Conv.acceptable x k) cs)) as H2
      by (rewrite E; right; by left).
    apply List.filter_In in H1 as [_ H1]. apply List.filter_In in H2 as [_ H2].
    destruct (_ ?= _)%Q; [destruct (Z.even c1.1)| |]; by intros [= <-].
Qed.

Lemma shortest_acceptable (x : Q) (n0 : Z) (fuel : nat) (k s n k' : Z) :
  Conv.shortest x n0 k fuel = Some (s, n, k') ->
  k <= k' /\ Conv.acceptable x k' (s, n) = true.
Proof.
  revert k. induction fuel as [|fuel IH]; intros k; [done|]. cbn [Conv.shortest].
  destruct (Conv.closest x k (Conv.candidates x n0 k)) as [c|] eqn:E.
  - intros [= <- <- <-]. split; [lia|].
    apply closest_acceptable in E. by destruct c.
  - intros H. apply IH in H as [? ?]. split; [lia|done].
Qed.

(** What the search finds has [k] digits and rounds to the number. *)
Lemma acceptable_spec (x : Q) (k s n : Z) :
  Conv.acceptable x k (s, n) = true ->
  10 ^ (k - 1) <= s < 10 ^ k /\
  exists r, Num.round (Conv.decimalValue s n k) = Finite r /\ (r == x)%Q.
Proof.
  unfold Conv.acceptable. cbn [fst snd].
  intros [[H1 H2]%andb_true_iff H3]%andb_true_iff.
  apply Z.leb_le in H1. apply Z.ltb_lt in H2. split; [done|].
  destruct (Num.round _) as [| |r]; try done. exists r. split; [done|].
  by apply Qeq_bool_iff.
Qed.

End ShortestDecimal.

Section NumberText.

(** The exact expansion of a double. *)
Lemma exactText_read (x : Q) :
  (0 < x)%Q -> Zpos (Qden x) = 2 ^ Z.log2 (Zpos (Qden x)) ->
  exists q c t, Conv.exactText x = String c t /\ isDigit c = true /\
                allChars plainChar (String c t) = true /\
                Conv.readDecimal (String c t) = Some (q, "") /\ (q == x)%Q.
Proof.
  intros Hx Hden. unfold Conv.exactText. cbv zeta.
  set (j := Z.log2 (Zpos (Qden x))) in *.
  assert (0 <= j) as Hj by apply Z.log2_nonneg.
  assert (0 < Qnum x) as Hnum by (destruct x as [n d]; unfold Qlt in Hx; cbn in *; lia).
  assert (0 < 5 ^ j) as H5 by (apply Z.pow_pos_nonneg; lia).
  set (N := Qnum x * 5 ^ j).
  assert (0 <= N) as HN by (unfold N; nia).
  set (ex := if j =? 0 then None else Some (- j)).
  assert ((if j =? 0 then "" else "e-" +:+ Conv.natToString j)
          = match ex with Some e => Conv.exponentPart e | None => "" end) as ->.
  { unfold ex. destruct (Z.eqb_spec j 0) as [|Hne]; [done|].
    rewrite exponentPart_e. destruct (Z.ltb_spec (- j) 0); [|lia].
    by replace (Z.abs (- j)) with j by lia. }
  destruct (exponent_option_cases ex) as [Hc Hd]. cbv zeta in *.
  pose proof (readExponent_option ex) as He.
  set (t := match ex with Some e => Conv.exponentPart e | None => "" end) in *.
  assert (allChars plainChar t = true) as Ht.
  { unfold t. destruct ex; [apply exponentPart_plain|done]. }
  destruct (natToString_shape N HN) as (c & u & E & Hc1 & Hu).
  assert (exists ni, Conv.readDigits (Conv.natToString N +:+ t) 0 0 = (N, S ni, t))
    as [ni Hread].
  { rewrite natToString_digits, readDigits_uint_app, Hd, digitsOf_value by done.
    pose proof (digitsOf_nonnil N) as Hnil.
    destruct (Decimal.nb_digits (digitsOf N)) as [|ni] eqn:En.
    - by destruct (digitsOf N).
    - by exists ni. }
  exists (Conv.scale10 N (default 0 ex - 0)), c, (u +:+ t).
  rewrite E, app_cons. rewrite <- app_cons, <- E.
  split; [by rewrite E, app_cons|]. split; [done|]. split.
  { rewrite allChars_app, Ht, andb_true_r. rewrite E.
    revert Hu. apply allChars_impl, isDigit_plain. }
  split.
  { rewrite (readDecimal_whole _ N ni t Hread Hc). by rewrite He. }
  rewrite scale10_value.
  assert (default 0 ex - 0 = - j) as ->.
  { unfold ex. destruct (Z.eqb_spec j 0); cbn [from_option id]; lia. }
  rewrite pow10_neg by done. unfold N.
  transitivity (inject_Z (Qnum x) / inject_Z (Zpos (Qden x)))%Q;
    [|rewrite <- Qmake_Qdiv; by destruct x].
  rewrite Hden.
  assert (0 < 2 ^ j) as H2 by (apply Z.pow_pos_nonneg; lia).
  replace (10 ^ j) with (2 ^ j * 5 ^ j) by (by rewrite <- Z.pow_mul_l).
  rewrite !inject_Z_mult.
  assert (~ inject_Z (2 ^ j) == 0)%Q
    by (change 0%Q with (inject_Z 0); rewrite inject_Z_injective; lia).
  assert (~ inject_Z (5 ^ j) == 0)%Q
    by (change 0%Q with (inject_Z 0); rewrite inject_Z_injective; lia).
  by field.
Qed.

(** The text of a positive double: a decimal literal that rounds to
    it. *)
Lemma positiveToString_read (x : Q) :
  (0 < x)%Q -> Num.round x = Finite x ->
  exists q c t, Conv.positiveToString x = String c t /\ isDigit c = true /\
                allChars plainChar (String c t) = true /\
                Conv.readDecimal (String c t) = Some (q, "") /\
                Num.round q = Finite x.
Proof.
  intros Hx Hr. unfold Conv.positiveToString.
  destruct (Conv.shortest x (Conv.decimalExponent x) 1 17) as [[[s n] k]|] eqn:E.
  - apply shortest_acceptable in E as [Hk Ha].
    apply acceptable_spec in Ha as [Hs (r & Hround & Erx)].
    destruct (layout_read s n k Hk Hs) as (w1 & z1 & frac & ex & q & -> & Hread & Hq).
    destruct (decimalText_shape w1 z1 frac ex) as (c & t & Et & Hc & Hp).
    exists q, c, t. rewrite <- Et. split; [done|]. split; [done|].
    split; [by rewrite Et|]. split; [done|].
    rewrite (round_comp _ _ Hq), Hround. f_equal.
    apply canonical_eq; [by apply (round_canonical _ _ Hround)|
                         by apply (round_canonical _ _ Hr)|done].
  - destruct (exactText_read x Hx (round_dyadic _ _ Hr)) as (q & c & t & -> & Hc & Hp & Hread & Hq).
    exists q, c, t. repeat split; try done. by rewrite (round_comp _ _ Hq).
Qed.

Lemma parseFloat_literal (c : ascii) (t : string) (q : Q) (rest : string) :
  isDigit c = true -> Conv.readDecimal (String c t) = Some (q, rest) ->
  Conv.parseFloat (String c t) = Num.round q /\
  Conv.parseFloat (String "-" (String c t)) = Num.round (- q).
Proof.
  intros Hc Hread. split.
  - unfold Conv.parseFloat. cbn [Js.trimStart].
    rewrite (isDigit_not_white c Hc), (isDigit_not_sign c t Hc),
      (isDigit_not_Infinity c t Hc), Hread. done.
  - unfold Conv.parseFloat.
    change (Js.trimStart (String "-" (String c t))) with (String "-" (String c t)).
    cbn [Conv.readSign]. by rewrite (isDigit_not_Infinity c t Hc), Hread.
Qed.

Lemma Qnum_pos (r : Q) (p : positive) : Qnum r = Zpos p -> (0 < r)%Q.
Proof. destruct r as [n d]. cbn. intros ->. done. Qed.

Lemma Qnum_neg (r : Q) (p : positive) : Qnum r = Zneg p -> (0 < - r)%Q.
Proof. destruct r as [n d]. cbn. intros ->. done. Qed.

(** The text of a number reads as the number: [String] writes the
    double that the value is, and [parseFloat] finds it again. *)
Lemma parseFloat_numberToString (q : Q) :
  Conv.parseFloat (Conv.numberToString (Finite q)) = Num.round q /\
  allChars plainChar (Conv.numberToString (Finite q)) = true /\
  nonEmpty (Conv.numberToString (Finite q)) = true.
Proof.
  unfold Conv.numberToString.
  destruct (Num.round q) as [|negative|r] eqn:Hr.
  - pose proof (round_not_NaN q) as H. by rewrite Hr in H.
  - by destruct negative.
  - pose proof (round_idem _ _ Hr) as Hi. pose proof (round_canonical _ _ Hr) as Hc.
    destruct (Qnum r) as [|p|p] eqn:En.
    + split; [|done]. change (Conv.parseFloat "0") with (Finite 0). f_equal.
      apply canonical_eq; [done|done|]. destruct r as [n d]. cbn in En. by subst n.
    + destruct (positiveToString_read r (Qnum_pos _ _ En) Hi)
        as (q' & c & t & -> & Hd & Hp & Hread & Hq').
      destruct (parseFloat_literal c t q' "" Hd Hread) as [-> _].
      by rewrite Hq'.
    + assert (Num.round (- r) = Finite (- r)) as Hn by (by rewrite round_opp, Hi).
      destruct (positiveToString_read (- r) (Qnum_neg _ _ En) Hn)
        as (q' & c & t & -> & Hd & Hp & Hread & Hq').
      change ("-" +:+ String c t) with (String "-" (String c t)).
      destruct (parseFloat_literal c t q' "" Hd Hread) as [_ ->].
      rewrite round_opp, Hq'. cbn [Num.neg]. rewrite Qopp_opp.
      split; [done|]. split; [|done]. cbn [allChars] in *. by rewrite Hp.
Qed.

(** A number other than NaN is written without white space, slash or
    comma, and its text reads as a number again. *)
Lemma numberToString_read (x : number) :
  Num.isNaN x = false ->
  allChars plainChar (Conv.numberToString x) = true /\
  Num.isNaN (Conv.parseFloat (Conv.numberToString x)) = false.
Proof.
  destruct x as [|negative|q]; [done|by destruct negative|]. intros _.
  destruct (parseFloat_numberToString q) as (-> & Hp & _). split; [done|].
  apply round_not_NaN.
Qed.

Lemma numberToString_nonEmpty (x : number) : nonEmpty (Conv.numberToString x) = true.
Proof.
  destruct x as [|negative|q]; [done|by destruct negative|].
  by destruct (parseFloat_numberToString q) as (_ & _ & ?).
Qed.

End NumberText.

(* ===================================================================== *)
(** ** [parseFloat] ignores what follows a slash or white space *)
(* ===================================================================== *)

Section ReadingStops.

Lemma stopper_cases (c : ascii) :
  isStopper c = true ->
  Conv.digitOf c = None /\ Ascii.eqb c "." = false /\
  Ascii.eqb c "e" = false /\ Ascii.eqb c "E" = false /\
  Conv.readSign (String c "") = (false, String c "") /\
  hasChar c "Infinity" = false /\ Ascii.eqb c "," = false.
Proof.
  unfold isStopper, Js.isWhiteSpace.
  destruct c as [[] [] [] [] [] [] [] []]; try discriminate; intros _; repeat split.
Qed.

Lemma readDigits_stop (u v : string) (acc : Z) (count : nat) :
  stops v = true ->
  Conv.readDigits (u +:+ v) acc count
  = (let '(z, k, rest) := Conv.readDigits u acc count in (z, k, rest +:+ v)).
Proof.
  intros Hv. revert acc count. induction u as [|x u IH]; intros acc count.
  - rewrite app_empty_l. destruct v as [|c v]; [done|]. simpl.
    by destruct (stopper_cases c Hv) as (-> & _).
  - rewrite app_cons. simpl. destruct (Conv.digitOf x); [apply IH | done].
Qed.

Lemma readSign_stop (u v : string) :
  stops v = true ->
  Conv.readSign (u +:+ v) = ((Conv.readSign u).1, (Conv.readSign u).2 +:+ v).
Proof.
  intros Hv. destruct u as [|x u].
  - rewrite app_empty_l. destruct v as [|c v]; [done|].
    destruct (stopper_cases c Hv) as (_ & _ & _ & _ & Hs & _).
    unfold Conv.readSign in *. simpl in *.
    destruct c as [[] [] [] [] [] [] [] []]; try done; discriminate Hs.
  - rewrite app_cons. unfold Conv.readSign.
    destruct x as [[] [] [] [] [] [] [] []]; reflexivity.
Qed.

Lemma readExponent_stop (u v : string) :
  stops v = true ->
  Conv.readExponent (u +:+ v)
  = ((Conv.readExponent u).1, (Conv.readExponent u).2 +:+ v).
Proof.
  intros Hv. destruct u as [|x u].
  - rewrite app_empty_l. destruct v as [|c v]; [done|]. simpl.
    destruct (stopper_cases c Hv) as (_ & _ & -> & -> & _). done.
  - rewrite app_cons. cbn [Conv.readExponent].
    destruct (Ascii.eqb x "e" || Ascii.eqb x "E"); [|done].
    rewrite readSign_stop by done. destruct (Conv.readSign u) as [neg s1]. cbn [fst snd].
    rewrite readDigits_stop by done.
    destruct (Conv.readDigits s1 0 0) as [[e n] rest].
    destruct n; reflexivity.
Qed.

Lemma readDecimal_stop (u v : string) :
  stops v = true ->
  Conv.readDecimal (u +:+ v)
  = match Conv.readDecimal u with
    | Some (q, rest) => Some (q, rest +:+ v)
    | None => None
    end.
Proof.
  intros Hv. unfold Conv.readDecimal. rewrite readDigits_stop by done.
  destruct (Conv.readDigits u 0 0) as [[i ni] s1].
  assert (Hfrac :
    (match s1 +:+ v with
     | String "." s1' =>
         let '(m, nf, s2) := Conv.readDigits s1' i 0 in
         match ni, nf with
         | O, O => (i, O, s1 +:+ v)
         | _, _ => (m, nf, s2)
         end
     | _ => (i, O, s1 +:+ v)
     end)
    = (let '(m, nf, s2) :=
         match s1 with
         | String "." s1' =>
             let '(m, nf, s2) := Conv.readDigits s1' i 0 in
             match ni, nf with
             | O, O => (i, O, s1)
             | _, _ => (m, nf, s2)
             end
         | _ => (i, O, s1)
         end in (m, nf, s2 +:+ v))).
  { destruct s1 as [|x s1].
    - rewrite app_empty_l. destruct v as [|c v]; [done|].
      destruct (stopper_cases c Hv) as (_ & Hdot & _).
      destruct c as [[] [] [] [] [] [] [] []]; try done; discriminate Hdot.
    - rewrite app_cons.
      destruct (Ascii.eqb_spec x ".") as [->|Hx].
      + rewrite readDigits_stop by done.
        destruct (Conv.readDigits s1 i 0) as [[m nf] s2].
        destruct ni, nf; by rewrite ?app_cons.
      + destruct x as [[] [] [] [] [] [] [] []]; try done. }
  rewrite Hfrac. clear Hfrac.
  destruct (match s1 with
            | String "." s1' =>
                let '(m, nf, s2) := Conv.readDigits s1' i 0 in
                match ni, nf with
                | O, O => (i, O, s1)
                | _, _ => (m, nf, s2)
                end
            | _ => (i, O, s1)
            end) as [[m nf] s2].
  destruct ni, nf; try done; rewrite readExponent_stop by done;
    by destruct (Conv.readExponent s2).
Qed.

Lemma prefix_stop (p u v : string) :
  (forall c, isStopper c = true -> hasChar c p = false) ->
  stops v = true ->
  String.prefix p (u +:+ v) = String.prefix p u.
Proof.
  intros Hp Hv. revert u. induction p as [|y p IH]; intros u.
  - by rewrite !prefix_empty.
  - assert (Hp' : forall c, isStopper c = true -> hasChar c p = false).
    { intros c Hc. specialize (Hp c Hc). simpl in Hp. by apply orb_false_elim in Hp as [_ ?]. }
    destruct u as [|x u].
    + rewrite app_empty_l. destruct v as [|c v]; [done|]. simpl.
      destruct (ascii_dec y c) as [->|]; [|done].
      specialize (Hp c Hv). simpl in Hp. by rewrite Ascii.eqb_refl in Hp.
    + rewrite app_cons. simpl. destruct (ascii_dec y x); [by apply IH | done].
Qed.

Lemma prefix_Infinity_stop (u v : string) :
  stops v = true -> String.prefix "Infinity" (u +:+ v) = String.prefix "Infinity" u.
Proof.
  apply prefix_stop. intros c Hc. by destruct (stopper_cases c Hc) as (_ & _ & _ & _ & _ & ? & _).
Qed.

(** Reading a number from a text that does not begin with white space
    is not affected by what follows a slash or white space. *)
Lemma parseFloat_stop (u v : string) :
  Js.trimStart u = u ->
  stops v = true ->
  Conv.parseFloat (u +:+ v) = Conv.parseFloat u \/ u = "".
Proof.
  intros Hu Hv. destruct u as [|x u]; [by right|]. left.
  assert (Hw : allWhite (String x u) = false).
  { destruct (allWhite (String x u)) eqn:E; [|done].
    apply trimStart_empty in E. congruence. }
  unfold Conv.parseFloat. rewrite trimStart_app, Hu by done.
  rewrite readSign_stop by done. destruct (Conv.readSign (String x u)) as [neg s1].
  cbn [fst snd]. rewrite prefix_Infinity_stop, readDecimal_stop by done.
  destruct (String.prefix "Infinity" s1); [done|].
  by destruct (Conv.readDecimal s1) as [[q rest]|].
Qed.

Lemma parseFloat_slash (v : string) : Conv.parseFloat (String "/" v) = NaN.
Proof. reflexivity. Qed.

End ReadingStops.

(* ===================================================================== *)
(** ** Parsing what was formatted *)
(* ===================================================================== *)

Section RoundTrip.

Lemma allChars_hasChar (p : ascii -> bool) (c : ascii) (s : string) :
  p c = false -> allChars p s = true -> hasChar c s = false.
Proof.
  intros Hc. induction s as [|x s IH]; [done|]. simpl.
  intros [Hx Hs]%andb_true_iff. rewrite (IH Hs), orb_false_r.
  destruct (Ascii.eqb_spec x c); [congruence | done].
Qed.

Lemma plain_not_white (s : string) :
  allChars plainChar s = true ->
  allChars (fun c => negb (Js.isWhiteSpace c)) s = true.
Proof.
  apply allChars_impl. intros c. unfold plainChar.
  by intros [[H _]%andb_true_iff _]%andb_true_iff.
Qed.

Lemma trimStart_solid (s : string) :
  allChars (fun c => negb (Js.isWhiteSpace c)) s = true -> Js.trimStart s = s.
Proof.
  destruct s as [|c s]; [done|]. simpl.
  intros [Hc _]%andb_true_iff. apply negb_true_iff in Hc. by rewrite Hc.
Qed.

Lemma trimEnd_solid (s : string) :
  allChars (fun c => negb (Js.isWhiteSpace c)) s = true -> Js.trimEnd s = s.
Proof.
  induction s as [|c s IH]; [done|]. cbn [allChars].
  intros [Hc Hs]%andb_true_iff. apply negb_true_iff in Hc.
  rewrite trimEnd_cons, Hc, (IH Hs). destruct s as [|x s]; [done|].
  simpl in Hs. apply andb_true_iff in Hs as [Hx _]. apply negb_true_iff in Hx.
  simpl. by rewrite Hx.
Qed.

Lemma replace_none (a b : ascii) (s : string) :
  hasChar a s = false -> Js.replace a b s = s.
Proof.
  induction s as [|x s IH]; [done|]. simpl.
  destruct (Ascii.eqb x a); [done|]. intros H. by rewrite IH.
Qed.

(** A text without white space, slash or comma reaches [parseFloat]
    as it is. *)
Lemma plain_line_spec (t : string) :
  allChars plainChar t = true ->
  Js.replace "," "." (Js.trim (upTo "/" t)) = t.
Proof.
  intros H. rewrite upTo_none by (by apply (allChars_hasChar plainChar)).
  unfold Js.trim. rewrite trimStart_solid, trimEnd_solid by (by apply plain_not_white).
  apply replace_none. by apply (allChars_hasChar plainChar).
Qed.

Lemma plain_no_break (t : string) : allChars plainChar t = true -> hasChar "010" t = false.
Proof. by apply allChars_hasChar. Qed.

Lemma upTo_trimEnd (c : ascii) (s : string) :
  Js.isWhiteSpace c = false -> hasChar c s = true ->
  upTo c (Js.trimEnd s) = upTo c s.
Proof.
  intros Hc. induction s as [|x s IH]; [done|]. rewrite trimEnd_cons.
  cbn [hasChar upTo]. destruct (Ascii.eqb_spec x c) as [->|Hne]; simpl.
  - intros _. destruct (allWhite s); simpl; [|by rewrite Ascii.eqb_refl].
    rewrite Hc. simpl. by rewrite Ascii.eqb_refl.
  - intros Hs. destruct (allWhite s) eqn:E.
    + exfalso. clear IH. induction s as [|y s IHs]; [done|]. simpl in *.
      apply andb_true_iff in E as [Ey Es].
      destruct (Ascii.eqb_spec y c) as [->|]; [congruence | auto].
    + simpl. destruct (Ascii.eqb_spec x c); [done|]. by rewrite IH.
Qed.

Lemma trim_upTo_trimEnd (s : string) :
  Js.trim (upTo "/" (Js.trimEnd s)) = Js.trim (upTo "/" s).
Proof.
  destruct (hasChar "/" s) eqn:E.
  - by rewrite upTo_trimEnd.
  - rewrite !upTo_none by (done || by apply hasChar_trimEnd). apply trim_trimEnd.
Qed.

Lemma nonEmpty_app_cons (a : string) (c : ascii) (b : string) :
  nonEmpty (a +:+ String c b) = true.
Proof. by destruct a. Qed.

(** One line [n/s]: the entry it gives. *)
Lemma parse_single (n s : string) :
  allWhite n = false ->
  hasChar "/" n = false ->
  hasChar "010" n = false ->
  hasChar "010" s = false ->
  Num.isNaN (parseDecimal (upTo "/" s)) = false ->
  parseNicknameText (n +:+ "/" +:+ s)
  = [mkNickname (Js.trim n) (Some (Num.mulPos (parseDecimal (upTo "/" s)) 1000))].
Proof.
  intros Hw Hs Hb Hbs Hnum. rewrite app_slash, parseNicknameText_concat.
  rewrite textLines_single by (rewrite hasChar_app; simpl; by rewrite Hb, Hbs).
  rewrite trim_around by apply slash_not_white.
  rewrite nonEmpty_app_cons. cbn [map concat]. rewrite app_nil_r. unfold entryOf.
  rewrite parseLine_fields by (by apply hasChar_trimStart).
  rewrite trim_trimStart, trim_upTo_trimEnd. fold (parseDecimal (upTo "/" s)).
  cbv zeta. by rewrite nonEmpty_white, Hnum.
Qed.

Lemma newline_app (s : string) : newline +:+ s = String "010" s.
Proof. reflexivity. Qed.

Lemma join_cons (sep p q : string) (rest : list string) :
  Js.join sep (p :: q :: rest) = p +:+ sep +:+ Js.join sep (q :: rest).
Proof. reflexivity. Qed.

Lemma split_join (parts : list string) :
  parts <> [] ->
  Forall (fun p => hasChar "010" p = false) parts ->
  Js.split "010" (Js.join newline parts) = parts.
Proof.
  intros Hne H. induction H as [|p parts Hp Hparts IH]; [done|].
  destruct parts as [|q parts].
  - simpl. by apply split_no_sep.
  - rewrite join_cons, newline_app, split_app by done.
    rewrite IH; done.
Qed.

(** Lines that are trimmed, not empty and without a line break come
    back from the joined text as they are. *)
Lemma textLines_join (lines : list string) :
  Forall (fun l => hasChar "010" l = false /\ Js.trim l = l /\ nonEmpty l = true) lines ->
  textLines (Js.join newline lines) = lines.
Proof.
  intros H. destruct lines as [|l lines]; [reflexivity|].
  unfold textLines. rewrite split_join; [|done|].
  - induction H as [|x xs (_ & Ht & Hn) _ IH]; [done|]. simpl.
    by rewrite Ht, nonEmpty_length, Hn, IH.
  - eapply Forall_impl; [exact H|]. by intros x (? & _).
Qed.

End RoundTrip.

Section LineSpecField.

Lemma upTo_app (c : ascii) (a r : string) :
  hasChar c a = false -> upTo c (a +:+ String c r) = a.
Proof.
  induction a as [|x a IH].
  - intros _. rewrite app_empty_l. simpl. by rewrite Ascii.eqb_refl.
  - rewrite app_cons. simpl. destruct (Ascii.eqb x c); [done|].
    intros H. by rewrite IH.
Qed.

(** A text is its trimmed part followed by white space. *)
Lemma trimEnd_decompose (s : string) :
  exists w, s = Js.trimEnd s +:+ w /\ allWhite w = true.
Proof.
  induction s as [|c s (w & Hs & Hw)]; [by exists ""|].
  rewrite trimEnd_cons. destruct (allWhite s) eqn:E.
  - destruct (Js.isWhiteSpace c) eqn:Ec.
    + exists (String c s). split; [done|]. simpl. by rewrite Ec, E.
    + exists s. by split.
  - exists w. split; [|done]. rewrite app_cons. by f_equal.
Qed.

Lemma replace_app (a b : ascii) (u v : string) :
  Js.replace a b (u +:+ v)
  = if hasChar a u then Js.replace a b u +:+ v else u +:+ Js.replace a b v.
Proof.
  induction u as [|x u IH]; [done|]. rewrite app_cons. simpl.
  destruct (Ascii.eqb x a); simpl; [done|]. rewrite IH.
  by destruct (hasChar a u).
Qed.

Lemma allWhite_hasChar (c : ascii) (w : string) :
  Js.isWhiteSpace c = false -> allWhite w = true -> hasChar c w = false.
Proof.
  intros Hc. induction w as [|x w IH]; [done|]. simpl.
  intros [Hx Hw]%andb_true_iff. rewrite (IH Hw), orb_false_r.
  destruct (Ascii.eqb_spec x c); [congruence | done].
Qed.

Lemma trimStart_replace (t : string) :
  Js.trimStart t = t -> Js.trimStart (Js.replace "," "." t) = Js.replace "," "." t.
Proof.
  destruct t as [|x t]; [done|]. simpl.
  destruct (Js.isWhiteSpace x) eqn:Ex.
  - intros H. exfalso. assert (Hl : String.length (Js.trimStart t) = S (String.length t))
      by (by rewrite H).
    clear H. assert (String.length (Js.trimStart t) <= String.length t)%nat; [|lia].
    clear. induction t as [|y t IH]; simpl; [lia|].
    destruct (Js.isWhiteSpace y); simpl; lia.
  - intros _. destruct (Ascii.eqb_spec x ","); simpl; [done|]. by rewrite Ex.
Qed.

Lemma replace_empty (a b : ascii) (t : string) : Js.replace a b t = "" -> t = "".
Proof. destruct t as [|x t]; [done|]. simpl. by destruct (Ascii.eqb x a). Qed.

Lemma stops_white_slash (w r : string) :
  allWhite w = true -> stops (w +:+ String "/" r) = true.
Proof.
  destruct w as [|x w]; [done|]. rewrite app_cons. simpl.
  intros [Hx _]%andb_true_iff. unfold isStopper. by rewrite Hx.
Qed.

(** The decimal value of a line spec is that of its text up to the
    first slash. *)
Lemma parseDecimal_field (s : string) : parseDecimal (upTo "/" s) = parseDecimal s.
Proof.
  destruct (hasChar "/" s) eqn:E; [|by rewrite upTo_none].
  apply first_occurrence in E as (a & r & -> & Ha).
  rewrite upTo_app by done. unfold parseDecimal.
  rewrite trim_around by apply slash_not_white. unfold Js.trim.
  destruct (allWhite a) eqn:Ew.
  - apply trimStart_empty in Ew as ->. reflexivity.
  - assert (Hidem := trimStart_idem a).
    assert (Hnw : allWhite (Js.trimStart a) = false).
    { destruct (allWhite (Js.trimStart a)) eqn:E; [|done].
      apply trimStart_empty in E. rewrite Hidem in E.
      apply trimStart_empty in E. congruence. }
    set (a1 := Js.trimStart a) in *.
    destruct (trimEnd_decompose a1) as (w & Ha1 & Hw).
    set (t := Js.trimEnd a1) in *.
    assert (Ht : Js.trimStart t = t).
    { unfold t. by rewrite trimStart_trimEnd, Hidem. }
    assert (Hcomma : hasChar "," w = false) by (by apply allWhite_hasChar).
    assert (Hrhs : exists Y,
      Js.replace "," "." (a1 +:+ String "/" (Js.trimEnd r))
      = Js.replace "," "." t +:+ (w +:+ String "/" Y)).
    { rewrite Ha1, app_assoc_str, replace_app.
      destruct (hasChar "," t) eqn:Ec; [by eexists|].
      rewrite (replace_none _ _ t Ec), replace_app, Hcomma. by eexists. }
    destruct Hrhs as (Y & ->).
    destruct (parseFloat_stop (Js.replace "," "." t) (w +:+ String "/" Y))
      as [->|Hempty]; [by apply trimStart_replace | by apply stops_white_slash | done |].
    apply replace_empty in Hempty. unfold t in Hempty.
    apply trimEnd_empty in Hempty. congruence.
Qed.

End LineSpecField.

Section ParserClaims.

(** C6 (as stated, refuted): the line [a/1/2] does not give the line
    spec [1/2]; the second field stops at the second slash. *)
Lemma C6_line_spec_counterexample :
  Js.includes "a/1/2" "/" = true /\
  splitParts "a/1/2" = (Some "a", Some "1") /\
  splitParts "a/1/2" <> (Some "a", Some (Js.trim "1/2")).
Proof. repeat split; [reflexivity .. | discriminate]. Qed.

(** C6 (amended): a line [a/r] whose part [a] has no slash is split at
    every slash and the first two fields are used: the nickname is the
    trimmed text before the first slash, the line spec is the trimmed text
    between the first slash and the next one (all of the trimmed rest
    when there is no further slash), and these two fields decide the
    entry that is pushed.  What follows a second slash never changes the
    number read: the line spec reads as the whole trimmed rest would. *)
Theorem C6_first_two_fields (nicknames : list NicknameWithLine) (a r : string) :
  hasChar "/" a = false ->
  Js.includes (a +:+ "/" +:+ r) "/" = true /\
  splitParts (a +:+ "/" +:+ r) = (Some (Js.trim a), Some (Js.trim (upTo "/" r))) /\
  (hasChar "/" r = false ->
   splitParts (a +:+ "/" +:+ r) = (Some (Js.trim a), Some (Js.trim r))) /\
  parseLine nicknames (a +:+ "/" +:+ r) =
    (let lineValue := Conv.parseFloat (Js.replace "," "." (Js.trim (upTo "/" r))) in
     if nonEmpty (Js.trim a) && negb (Num.isNaN lineValue) then
       nicknames ++ [mkNickname (Js.trim a) (Some (Num.mulPos lineValue 1000))]
     else if nonEmpty (Js.trim a) then nicknames ++ [mkNickname (Js.trim a) None]
     else nicknames) /\
  Conv.parseFloat (Js.replace "," "." (Js.trim (upTo "/" r)))
    = Conv.parseFloat (Js.replace "," "." (Js.trim r)).
Proof.
  intros Ha. rewrite !app_slash. split; [apply includes_slash|].
  split; [by apply splitParts_fields|]. split; [|split].
  - intros Hr. rewrite splitParts_fields by done. by rewrite upTo_none.
  - by apply parseLine_fields.
  - apply parseDecimal_field.
Qed.

Lemma C6_first_two_fields_witness :
  hasChar "/" "a" = false /\
  splitParts ("a" +:+ "/" +:+ "1/2") = (Some "a", Some "1") /\
  parseLine [] ("a" +:+ "/" +:+ "1/2") = [mkNickname "a" (Some (Finite (1000 # 1)))].
Proof.
  split; [reflexivity|].
  destruct (C6_first_two_fields [] "a" "1/2" eq_refl) as (_ & H2 & _ & H4 & _).
  split; [exact H2 | exact H4].
Defined.

(** C7 (as stated, refuted): the line [/123] gives no entry at all, in
    particular not one with an empty nickname and the line 123000. *)
Lemma C7_slash_only_counterexample :
  Conv.parseFloat "123" = Finite (123 # 1) /\
  parseNicknameText "/123" = [] /\
  parseNicknameText "/123" <>
    [mkNickname "" (Some (Num.mulPos (Conv.parseFloat "123") 1000))].
Proof. repeat split; [reflexivity .. | discriminate]. Qed.

(** C7 (amended): a line with nothing but white space before its first
    slash produces no entry, whatever follows the slash: the line is
    dropped. *)
Theorem C7_empty_nickname_dropped (w r : string) :
  allWhite w = true ->
  hasChar "010" w = false ->
  hasChar "010" r = false ->
  parseNicknameText (w +:+ "/" +:+ r) = [].
Proof.
  intros Hw Hnw Hnr. rewrite app_slash, parseNicknameText_concat.
  rewrite textLines_single
    by (rewrite hasChar_app; simpl; by rewrite Hnw, Hnr).
  rewrite trim_around by apply slash_not_white.
  apply trimStart_empty in Hw as ->. rewrite app_empty_l.
  cbn [nonEmpty map concat]. rewrite app_nil_r. unfold entryOf.
  rewrite <- (app_empty_l (String "/" _)), parseLine_fields by done.
  reflexivity.
Qed.

Lemma C7_empty_nickname_dropped_witness :
  allWhite " " = true /\ parseNicknameText (" " +:+ "/" +:+ "123") = [].
Proof.
  split; [reflexivity|].
  apply (C7_empty_nickname_dropped " " "123"); reflexivity.
Defined.

End ParserClaims.
Section FormatParse.

Lemma cleanNickname_white (n : string) : cleanNickname n -> allWhite n = false.
Proof.
  intros (Hne & Hs & _). destruct (allWhite n) eqn:E; [|done].
  apply trimStart_empty in E. rewrite Hs in E. by subst.
Qed.

Lemma cleanNickname_trim (n : string) : cleanNickname n -> Js.trim n = n.
Proof. intros (_ & Hs & He & _). unfold Js.trim. by rewrite Hs, He. Qed.

(** The formatted line of an entry with a line, and what the parser
    makes of it. *)
Lemma format_line_parsed (n t : string) (x v : number) :
  cleanNickname n ->
  allChars plainChar t = true ->
  Conv.parseFloat t = v ->
  Num.isNaN v = false ->
  let ln := n +:+ "/" +:+ t in
  hasChar "010" ln = false /\ Js.trim ln = ln /\ nonEmpty ln = true /\
  entryOf ln = [mkNickname n (Some (Num.mulPos v 1000))].
Proof.
  intros Hn Ht Hv Hnan ln. subst ln. rewrite app_slash.
  assert (Hw := cleanNickname_white _ Hn).
  assert (Htrim := cleanNickname_trim _ Hn).
  destruct Hn as (Hne & Hs & He & Hslash & Hbreak).
  split; [|split; [|split]].
  - rewrite hasChar_app. simpl. by rewrite Hbreak, (plain_no_break _ Ht).
  - rewrite trim_around by apply slash_not_white.
    by rewrite Hs, trimEnd_solid by (by apply plain_not_white).
  - apply nonEmpty_app_cons.
  - unfold entryOf. rewrite parseLine_fields by done. cbv zeta.
    rewrite plain_line_spec, Hv, Htrim, Hne, Hnan by done. reflexivity.
Qed.

Lemma divPos_number (v : number) (k : positive) :
  Num.isNaN v = false -> Num.isNaN (Num.divPos v k) = false.
Proof. destruct v; try done. intros _. apply round_not_NaN. Qed.

(** The quotient that the formatter writes is read as it is. *)
Lemma parseFloat_divPos (x : number) (k : positive) :
  Num.isNaN x = false ->
  Conv.parseFloat (Conv.numberToString (Num.divPos x k)) = Num.divPos x k.
Proof.
  destruct x as [|negative|q]; [done|by destruct negative|]. intros _. cbn [Num.divPos].
  destruct (Num.round (q / inject_Z (Z.pos k))) as [|negative|r] eqn:E.
  - pose proof (round_not_NaN (q / inject_Z (Z.pos k))) as H. by rewrite E in H.
  - by destruct negative.
  - destruct (parseFloat_numberToString r) as (-> & _). by apply round_idem in E.
Qed.

Lemma entry_read_back (e : NicknameWithLine) :
  cleanNickname (nickname e) ->
  numericLine (line e) ->
  hasChar "010" (formatEntry e) = false /\
  Js.trim (formatEntry e) = formatEntry e /\
  nonEmpty (formatEntry e) = true /\
  entryOf (formatEntry e) = [readBack e].
Proof.
  destruct e as [n [x|]]; cbn [nickname line numericLine]; intros Hn Hx.
  - unfold formatEntry. cbn [nickname line].
    destruct (numberToString_read (Num.divPos x 1000) (divPos_number x 1000 Hx))
      as [Ht Hv].
    by destruct (format_line_parsed n _ x _ Hn Ht (parseFloat_divPos x 1000 Hx)
                   (divPos_number x 1000 Hx)) as (H1 & H2 & H3 & H4).
  - unfold formatEntry. cbn [nickname line].
    assert (Htrim := cleanNickname_trim _ Hn).
    destruct Hn as (Hne & Hs & He & Hslash & Hbreak).
    repeat split; try done. unfold entryOf. by rewrite parseLine_plain.
Qed.

(** What comes back from the formatted text: every entry with its line
    divided by 1000 and multiplied by 1000. *)
Lemma format_read_back (entries : list NicknameWithLine) :
  Forall (fun e => cleanNickname (nickname e) /\ numericLine (line e)) entries ->
  parseNicknameText (formatNicknamesAsText entries) = map readBack entries.
Proof.
  intros H. rewrite parseNicknameText_concat. unfold formatNicknamesAsText.
  rewrite textLines_join.
  - induction H as [|e entries [Hn Hx] _ IH]; [done|].
    cbn [map concat]. destruct (entry_read_back e Hn Hx) as (_ & _ & _ & ->).
    by rewrite IH.
  - induction H as [|e entries [Hn Hx] _ IH]; [constructor|].
    cbn [map]. constructor; [|exact IH].
    by destruct (entry_read_back e Hn Hx) as (H1 & H2 & H3 & _).
Qed.

End FormatParse.

Section Rewritten.

Lemma rewritten_opp (q : Q) :
  rewritten (Finite (- q)) = Num.neg (rewritten (Finite q)).
Proof.
  unfold rewritten. cbn [Num.divPos].
  assert (- q / inject_Z 1000 == - (q / inject_Z 1000))%Q as E by (field; done).
  rewrite (round_comp _ _ E), round_opp.
  destruct (Num.round (q / inject_Z 1000)) as [| |r]; try reflexivity.
  cbn [Num.neg Num.mulPos].
  assert (- r * inject_Z 1000 == - (r * inject_Z 1000))%Q as E' by ring.
  by rewrite (round_comp _ _ E'), round_opp.
Qed.

(** A safe integer that is a whole multiple of 1000 comes back as it
    is. *)
Lemma rewritten_even (k : Z) :
  Z.abs (1000 * k) <= 2 ^ 53 ->
  rewritten (Finite (inject_Z (1000 * k))) = Finite (inject_Z (1000 * k)).
Proof.
  intros Hk. unfold rewritten. cbn [Num.divPos].
  assert (inject_Z (1000 * k) / inject_Z 1000 == inject_Z k)%Q as E.
  { rewrite inject_Z_mult. by field. }
  rewrite (round_comp _ _ E), round_int by lia. cbn [Num.mulPos].
  assert (inject_Z k * inject_Z 1000 == inject_Z (1000 * k))%Q as E'.
  { rewrite inject_Z_mult. ring. }
  rewrite (round_comp _ _ E'). apply round_int. lia.
Qed.

(** Two roundings apart: a positive value of ordinary size comes back
    within the fraction [2^-51] of itself. *)
Lemma rewritten_close_pos (q : Q) :
  (Num.pow2 (-1000) <= q)%Q -> (q <= Num.pow2 1000)%Q ->
  exists q', rewritten (Finite q) = Finite q' /\
             (q - q * Num.pow2 (-51) <= q')%Q /\ (q' <= q + q * Num.pow2 (-51))%Q.
Proof.
  intros Hlo Hhi. unfold rewritten. cbn [Num.divPos].
  assert (0 < Num.pow2 (-1022))%Q as Hp by apply pow2_pos.
  assert (Num.pow2 (-1022) * inject_Z 1000 <= Num.pow2 (-1000))%Q as C1 by (by vm_compute).
  assert (Num.pow2 1000 * 2 <= Num.pow2 1023)%Q as C2 by (by vm_compute).
  set (y := (q / inject_Z 1000)%Q).
  assert (y * inject_Z 1000 == q)%Q as Ey by (unfold y; by field).
  clearbody y. change (inject_Z 1000) with (1000 # 1) in *.
  destruct (round_err_pos y) as (r1 & -> & _ & L1 & U1).
  { revert Hlo Hhi Hp C1 C2 Ey.
    generalize (Num.pow2 (-1022)) (Num.pow2 (-1000)) (Num.pow2 1000) (Num.pow2 1023).
    intros A B T H. intros. lra. }
  { revert Hlo Hhi Hp C1 C2 Ey.
    generalize (Num.pow2 (-1022)) (Num.pow2 (-1000)) (Num.pow2 1000) (Num.pow2 1023).
    intros A B T H. intros. lra. }
  cbn [Num.mulPos]. change (inject_Z 1000) with (1000 # 1).
  change (Num.pow2 (-53)) with (1 # 9007199254740992) in *.
  destruct (round_err_pos (r1 * (1000 # 1))) as (r2 & -> & _ & L2 & U2).
  { revert Hlo Hhi Hp C1 C2 Ey L1 U1.
    generalize (Num.pow2 (-1022)) (Num.pow2 (-1000)) (Num.pow2 1000) (Num.pow2 1023).
    intros A B T H. intros. lra. }
  { revert Hlo Hhi Hp C1 C2 Ey L1 U1.
    generalize (Num.pow2 (-1022)) (Num.pow2 (-1000)) (Num.pow2 1000) (Num.pow2 1023).
    intros A B T H. intros. lra. }
  exists r2. split; [done|].
  change (Num.pow2 (-53)) with (1 # 9007199254740992) in *.
  change (Num.pow2 (-51)) with (1 # 2251799813685248).
  assert (0 < q)%Q as Hq.
  { revert Hlo Hp C1. generalize (Num.pow2 (-1022)) (Num.pow2 (-1000)). intros A B. intros. lra. }
  clear Hlo Hhi Hp C1 C2. split; lra.
Qed.

(** A value of ordinary size comes back within the precision of a
    double. *)
Lemma rewritten_close (q : Q) :
  (Num.pow2 (-1000) <= Qabs q)%Q -> (Qabs q <= Num.pow2 1000)%Q ->
  exists q', rewritten (Finite q) = Finite q' /\ withinPrecision q' q.
Proof.
  intros Hlo Hhi. unfold withinPrecision.
  pose proof rewritten_close_pos as Hclose.
  change (Num.pow2 (-51)) with (1 # 2251799813685248) in *.
  destruct (Qlt_le_dec q 0) as [Hn|Hp].
  - rewrite (Qabs_neg q) in * by lra.
    destruct (Hclose (- q)%Q Hlo Hhi) as (q' & E & L & U).
    exists (- q')%Q. split.
    + rewrite <- (Qopp_opp q), rewritten_opp, E. reflexivity.
    + assert (- q' - q == - (q' - - q))%Q as -> by ring.
      rewrite Qabs_opp, (Qabs_neg q) by lra. apply Qabs_Qle_condition. split; lra.
  - rewrite (Qabs_pos q) in * by done.
    destruct (Hclose q Hlo Hhi) as (q' & E & L & U).
    exists q'. split; [done|]. rewrite (Qabs_pos q) by done.
    apply Qabs_Qle_condition. split; lra.
Qed.

End Rewritten.

Section LineClaim.

Lemma evenLine_numeric (l : option number) : evenLine l -> numericLine l.
Proof. by destruct l as [[| |q]|]. Qed.

Lemma readBack_even (e : NicknameWithLine) : evenLine (line e) -> readBack e = e.
Proof.
  destruct e as [n [[|negative|q]|]]; cbn [line evenLine]; try done.
  intros (k & -> & Hk). unfold readBack. cbn [nickname line fmap option_fmap option_map].
  by rewrite rewritten_even.
Qed.

(** C5 (as stated, refuted): with the empty nickname the text [/5],
    whose line spec 5 is a decimal number, gives no entry. *)
Lemma C5_empty_nickname_counterexample :
  parseDecimal "5" = Finite (5 # 1) /\
  parseNicknameText ("" +:+ "/" +:+ "5") = [].
Proof. split; by vm_compute. Qed.

(** C5 (amended): for a nickname [n] that is not blank and has no slash
    and no line break, and a line spec [s] without a line break that reads
    as a decimal number, [parse(n + "/" + s)] is the one entry with the
    trimmed nickname and the line [parseDecimal(s) * 1000], the product
    as a double: for [2.01] it is 2009.9999999999998.  Formatting a list
    whose nicknames are as the parser produces them and whose lines are
    absent or numbers, and parsing the text again, gives the entries with
    the same nicknames and each line [x] replaced by [(x / 1000) * 1000]
    as computed in doubles.  That line is within the fraction [2^-51] of
    [x] when [2^-1000 <= |x| <= 2^1000], and it is [x] itself when [x] is
    infinite or a whole multiple of 1000 of magnitude at most [2^53]: such
    lists come back as they are.  The line 5000 is written as 5 and 4728
    as 4.728, which is read as 4728 again. *)
Theorem C5_parse_and_round_trip :
  (forall n s,
     allWhite n = false ->
     hasChar "/" n = false ->
     hasChar "010" n = false ->
     hasChar "010" s = false ->
     Num.isNaN (parseDecimal s) = false ->
     parseNicknameText (n +:+ "/" +:+ s)
     = [mkNickname (Js.trim n) (Some (Num.mulPos (parseDecimal s) 1000))]) /\
  (forall q, Num.mulPos (Finite q) 1000 = Num.round (q * inject_Z 1000)) /\
  (parseNicknameText "gus/2.01"
   = [mkNickname "gus" (Some (Finite (8840073487319039 # 4398046511104)))] /\
   Conv.numberToString (Finite (8840073487319039 # 4398046511104)) = "2009.9999999999998") /\
  (forall entries,
     Forall (fun e => cleanNickname (nickname e) /\ numericLine (line e)) entries ->
     parseNicknameText (formatNicknamesAsText entries) = map readBack entries) /\
  (forall q,
     (Num.pow2 (-1000) <= Qabs q)%Q -> (Qabs q <= Num.pow2 1000)%Q ->
     exists q', rewritten (Finite q) = Finite q' /\ withinPrecision q' q) /\
  (forall entries,
     Forall (fun e => cleanNickname (nickname e) /\ evenLine (line e)) entries ->
     parseNicknameText (formatNicknamesAsText entries) = entries) /\
  formatNicknamesAsText [mkNickname "gus" (Some (Finite (5000 # 1)))] = "gus/5" /\
  formatNicknamesAsText [mkNickname "gus" (Some (Finite (4728 # 1)))] = "gus/4.728" /\
  parseNicknameText "gus/4.728" = [mkNickname "gus" (Some (Finite (4728 # 1)))].
Proof.
  split.
  { intros n s Hw Hs Hb Hbs Hnum. rewrite <- parseDecimal_field in *.
    by apply parse_single. }
  split; [reflexivity|]. split; [split; by vm_compute|].
  split; [exact format_read_back|]. split; [exact rewritten_close|].
  split; [|repeat split; by vm_compute].
  intros entries H. rewrite format_read_back.
  - induction H as [|e entries [_ He] _ IH]; [done|].
    cbn [map]. by rewrite (readBack_even e He), IH.
  - eapply Forall_impl; [exact H|]. intros e [Hn He]. split; [done|].
    by apply evenLine_numeric.
Qed.

Lemma C5_parse_and_round_trip_witness :
  parseNicknameText (" gus " +:+ "/" +:+ "4,5/x")
    = [mkNickname "gus" (Some (Num.mulPos (parseDecimal "4,5/x") 1000))] /\
  parseNicknameText
    (formatNicknamesAsText
       [mkNickname "gus" (Some (Finite (4728 # 1))); mkNickname "febe" None])
  = map readBack [mkNickname "gus" (Some (Finite (4728 # 1))); mkNickname "febe" None] /\
  (exists q', rewritten (Finite (4728 # 1)) = Finite q' /\ withinPrecision q' (4728 # 1)) /\
  parseNicknameText
    (formatNicknamesAsText
       [mkNickname "gus" (Some (Finite (5000 # 1))); mkNickname "febe" None])
  = [mkNickname "gus" (Some (Finite (5000 # 1))); mkNickname "febe" None].
Proof.
  destruct C5_parse_and_round_trip as (Ha & _ & _ & Hb & Hc & Hd & _).
  split; [|split; [|split]].
  - apply (Ha " gus " "4,5/x"); reflexivity.
  - apply Hb. repeat constructor.
  - apply Hc; by vm_compute.
  - apply Hd. repeat constructor. exists 5. split; [reflexivity|by vm_compute].
Defined.

End LineClaim.

(* ===================================================================== *)
(** ** The parser on whole texts *)
(* ===================================================================== *)

Section ParserTexts.

Lemma split_break (c : ascii) (a b : string) :
  Js.split c (a +:+ String c b) = Js.split c a ++ Js.split c b.
Proof.
  induction a as [|x a IH].
  - rewrite app_empty_l. cbn [Js.split]. by rewrite Ascii.eqb_refl.
  - rewrite app_cons. cbn [Js.split].
    destruct (Ascii.eqb x c); [by rewrite IH|].
    rewrite IH. destruct (split_head c a) as [rest ->]. reflexivity.
Qed.

Lemma textLines_break (a b : string) :
  textLines (a +:+ newline +:+ b) = textLines a ++ textLines b.
Proof.
  unfold textLines. rewrite newline_app, split_break, map_app.
  apply List.filter_app.
Qed.

Lemma split_pieces (c : ascii) (s : string) :
  Forall (fun p => hasChar c p = false) (Js.split c s).
Proof.
  induction s as [|x s IH]; cbn [Js.split].
  - by constructor.
  - destruct (Ascii.eqb x c) eqn:E; [by constructor|].
    destruct (Js.split c s) as [|p ps]; [constructor; [|done]|].
    + cbn [hasChar]. by rewrite E.
    + inversion IH; subst. constructor; [|done]. cbn [hasChar]. by rewrite E.
Qed.

Lemma trim_idem (s : string) : Js.trim (Js.trim s) = Js.trim s.
Proof. unfold Js.trim at 2. by rewrite trim_trimEnd, trim_trimStart. Qed.

Lemma trimmed_trimStart (s : string) : Js.trim s = s -> Js.trimStart s = s.
Proof.
  intros H. rewrite <- H at 1. unfold Js.trim.
  by rewrite trimStart_trimEnd, trimStart_idem.
Qed.

Lemma trimmed_trimEnd (s : string) : Js.trim s = s -> Js.trimEnd s = s.
Proof. intros H. rewrite <- H at 1. unfold Js.trim. by rewrite trimEnd_idem. Qed.

Lemma trimmed_not_white (s : string) : Js.trim s = s -> nonEmpty s = true -> allWhite s = false.
Proof.
  intros H Hn. destruct (allWhite s) eqn:E; [|done].
  rewrite (trim_white s E) in H. by subst.
Qed.

Lemma textLines_shape (text : string) :
  Forall (fun l => hasChar "010" l = false /\ Js.trim l = l /\ nonEmpty l = true)
         (textLines text).
Proof.
  unfold textLines. apply List.Forall_forall. intros l Hl.
  apply List.filter_In in Hl as [Hin Hlen]. apply in_map_iff in Hin as (p & <- & Hp).
  pose proof (split_pieces "010" text) as Hall.
  rewrite List.Forall_forall in Hall. specialize (Hall p Hp). repeat split.
  - unfold Js.trim. by apply hasChar_trimEnd, hasChar_trimStart.
  - apply trim_idem.
  - by rewrite <- nonEmpty_length.
Qed.

Lemma trim_clean (a : string) :
  nonEmpty (Js.trim a) = true ->
  hasChar "/" a = false ->
  hasChar "010" a = false ->
  cleanNickname (Js.trim a).
Proof.
  intros Hn Hs Hb. repeat split; [done| | | |].
  - apply trimmed_trimStart, trim_idem.
  - apply trimmed_trimEnd, trim_idem.
  - unfold Js.trim. by apply hasChar_trimEnd, hasChar_trimStart.
  - unfold Js.trim. by apply hasChar_trimEnd, hasChar_trimStart.
Qed.

Lemma mulPos_number (v : number) (k : positive) :
  Num.isNaN v = false -> Num.isNaN (Num.mulPos v k) = false.
Proof. destruct v; try done. intros _. apply round_not_NaN. Qed.

Lemma nonEmpty_trim_white (a : string) : nonEmpty (Js.trim a) = negb (allWhite a).
Proof.
  destruct (allWhite a) eqn:E.
  - by rewrite (trim_white a E).
  - by apply nonEmpty_white.
Qed.

Lemma entryOf_shape (ln : string) :
  hasChar "010" ln = false ->
  Js.trim ln = ln ->
  nonEmpty ln = true ->
  Forall (fun e => cleanNickname (nickname e) /\ numericLine (line e)) (entryOf ln) /\
  length (entryOf ln) = (if namesPlayer ln then 1 else 0)%nat.
Proof.
  intros Hb Ht Hn. unfold entryOf, namesPlayer.
  destruct (hasChar "/" ln) eqn:Hs.
  - destruct (first_occurrence "/" ln Hs) as (a & r & -> & Ha).
    rewrite parseLine_fields, upTo_app by done. cbv zeta.
    rewrite hasChar_app in Hb. apply orb_false_elim in Hb as [Hba _].
    rewrite (nonEmpty_trim_white a).
    destruct (allWhite a) eqn:Hw; cbn [negb andb]; [by split|].
    assert (cleanNickname (Js.trim a)) as Hc.
    { apply trim_clean; [by rewrite nonEmpty_trim_white, Hw|done|done]. }
    destruct (Num.isNaN _) eqn:Hv; cbn [negb andb app]; (split; [|done]).
    + constructor; [split; [exact Hc|exact I]|constructor].
    + constructor; [split; [exact Hc|]|constructor]. cbn. by apply mulPos_number.
  - rewrite parseLine_plain, upTo_none by done. cbn [app].
    rewrite (trimmed_not_white ln Ht Hn). split; [|done].
    constructor; [|constructor]. split; [|exact I]. cbn [nickname].
    repeat split; [done| | |done|done].
    + by apply trimmed_trimStart.
    + by apply trimmed_trimEnd.
Qed.

(** X1: a line break separates independent parts of the text: the
    entries of [a], a line break, [b] are the entries of [a] followed by
    those of [b]. *)
Theorem parse_line_break (a b : string) :
  parseNicknameText (a +:+ newline +:+ b) = parseNicknameText a ++ parseNicknameText b.
Proof.
  rewrite !parseNicknameText_concat, textLines_break, map_app.
  apply concat_app.
Qed.

Lemma entries_shape (lines : list string) :
  Forall (fun l => hasChar "010" l = false /\ Js.trim l = l /\ nonEmpty l = true) lines ->
  Forall (fun e => cleanNickname (nickname e) /\ numericLine (line e))
         (concat (map entryOf lines)).
Proof.
  induction 1 as [|ln lns (Hb & Ht & Hn) _ IH]; [by constructor|].
  cbn [map concat]. apply Forall_app. split; [|done].
  by apply entryOf_shape.
Qed.

Lemma parsed_shape (text : string) :
  Forall (fun e => cleanNickname (nickname e) /\ numericLine (line e))
         (parseNicknameText text).
Proof. rewrite parseNicknameText_concat. apply entries_shape, textLines_shape. Qed.

(** X2: whatever the text, every entry the parser returns has a
    nickname that is not empty, has no white space at its ends, no slash
    and no line break, and a line that is absent or a number, never
    NaN. *)
Theorem parsed_entries_clean (text : string) :
  Forall (fun e => cleanNickname (nickname e) /\ numericLine (line e))
         (parseNicknameText text).
Proof.
  unfold parseNicknameText.
  assert (forall lines start,
            fold_left parseLine lines start = start ++ concat (map entryOf lines)) as Hfold.
  { induction lines as [|ln lines IH]; intros start; cbn [fold_left map concat].
    - by rewrite app_nil_r.
    - by rewrite IH, parseLine_push, <- app_assoc. }
  rewrite Hfold. cbn [app].
  apply entries_shape, textLines_shape.
Qed.

(** X3: the number of entries is the number of non-blank lines whose
    text before the first slash is not blank; each such line gives one
    entry, every other line none. *)
Theorem parse_count (text : string) :
  length (parseNicknameText text) = length (List.filter namesPlayer (textLines text)).
Proof.
  rewrite parseNicknameText_concat.
  pose proof (textLines_shape text) as Hs.
  induction Hs as [|ln lns (Hb & Ht & Hn) _ IH]; [done|].
  cbn [map concat List.filter]. rewrite length_app, IH.
  destruct (entryOf_shape ln Hb Ht Hn) as [_ ->].
  by destruct (namesPlayer ln).
Qed.

End ParserTexts.

(* ===================================================================== *)
(** ** Numbers as text, read again *)
(* ===================================================================== *)

Section FormatParse.

Lemma entry_names_round_trip (e : NicknameWithLine) :
  cleanNickname (nickname e) ->
  numericLine (line e) ->
  hasChar "010" (formatEntry e) = false /\
  Js.trim (formatEntry e) = formatEntry e /\
  nonEmpty (formatEntry e) = true /\
  exists e', entryOf (formatEntry e) = [e'] /\ samePlayer e' e.
Proof.
  destruct e as [n [x|]]; cbn [nickname line numericLine]; intros Hn Hx.
  - unfold formatEntry. cbn [nickname line].
    destruct (numberToString_read (Num.divPos x 1000) (divPos_number x 1000 Hx))
      as [Ht Hv].
    destruct (format_line_parsed n _ x _ Hn Ht eq_refl Hv) as (H1 & H2 & H3 & H4).
    repeat split; try done. eexists. split; [exact H4|]. by split.
  - unfold formatEntry. cbn [nickname line].
    destruct Hn as (Hne & Hs & He & Hslash & Hbreak).
    assert (Js.trim n = n) as Htrim by (unfold Js.trim; by rewrite Hs, He).
    repeat split; try done. eexists. split.
    + unfold entryOf. by rewrite parseLine_plain.
    + by split.
Qed.

Lemma format_parse_shape (entries : list NicknameWithLine) :
  Forall (fun e => cleanNickname (nickname e) /\ numericLine (line e)) entries ->
  Forall2 samePlayer (parseNicknameText (formatNicknamesAsText entries)) entries.
Proof.
  intros H. rewrite parseNicknameText_concat. unfold formatNicknamesAsText.
  rewrite textLines_join.
  - induction H as [|e entries [Hn Hx] _ IH]; [constructor|].
    cbn [map concat].
    destruct (entry_names_round_trip e Hn Hx) as (_ & _ & _ & e' & -> & He).
    by constructor.
  - induction H as [|e entries [Hn Hx] _ IH]; [constructor|].
    cbn [map]. constructor; [|exact IH].
    by destruct (entry_names_round_trip e Hn Hx) as (H1 & H2 & H3 & _).
Qed.

(** X4: a list whose nicknames are as the parser produces them and
    whose lines are not NaN, written as text and parsed again, gives
    entry for entry the same nicknames, with a line where there was
    one; so do the entries of any parsed text. *)
Theorem format_parse_players :
  (forall entries,
     Forall (fun e => cleanNickname (nickname e) /\ numericLine (line e)) entries ->
     Forall2 samePlayer (parseNicknameText (formatNicknamesAsText entries)) entries) /\
  (forall text,
     Forall2 samePlayer
       (parseNicknameText (formatNicknamesAsText (parseNicknameText text)))
       (parseNicknameText text)).
Proof.
  split; [apply format_parse_shape|].
  intros text. apply format_parse_shape, parsed_shape.
Qed.

Lemma format_parse_players_witness :
  Forall2 samePlayer
    (parseNicknameText
       (formatNicknamesAsText
          [mkNickname "gus" (Some (Finite (9457 # 2))); mkNickname "febe" None;
           mkNickname "abood" (Some (Infinity true))]))
    [mkNickname "gus" (Some (Finite (9457 # 2))); mkNickname "febe" None;
     mkNickname "abood" (Some (Infinity true))].
Proof.
  apply (proj1 format_parse_players).
  repeat (constructor; [split; [repeat split; reflexivity|vm_compute; reflexivity]|]).
  constructor.
Defined.

(** X5: a line with a nickname, a slash and a line spec that does not
    read as a number gives the entry of the nickname alone, without a
    line. *)
Theorem unreadable_line_ignored (n s : string) :
  allWhite n = false ->
  hasChar "/" n = false ->
  hasChar "010" n = false ->
  hasChar "010" s = false ->
  Num.isNaN (parseDecimal s) = true ->
  parseNicknameText (n +:+ "/" +:+ s) = [mkNickname (Js.trim n) None].
Proof.
  intros Hw Hs Hb Hbs Hnum. rewrite <- parseDecimal_field in Hnum.
  rewrite app_slash, parseNicknameText_concat.
  rewrite textLines_single by (rewrite hasChar_app; simpl; by rewrite Hb, Hbs).
  rewrite trim_around by apply slash_not_white.
  rewrite nonEmpty_app_cons. cbn [map concat]. rewrite app_nil_r. unfold entryOf.
  rewrite parseLine_fields by (by apply hasChar_trimStart).
  rewrite trim_trimStart, trim_upTo_trimEnd. fold (parseDecimal (upTo "/" s)).
  cbv zeta. by rewrite nonEmpty_white, Hnum.
Qed.

Lemma unreadable_line_ignored_witness :
  parseNicknameText (" gus " +:+ "/" +:+ "five") = [mkNickname "gus" None].
Proof. apply (unreadable_line_ignored " gus " "five"); reflexivity. Defined.

End FormatParse.

(* ===================================================================== *)
(** ** The name file and the names it gives *)
(* ===================================================================== *)

Section NameFile.

Lemma lowerChar_idem (c : ascii) : Js.lowerChar (Js.lowerChar c) = Js.lowerChar c.
Proof. by destruct c as [[] [] [] [] [] [] [] []]. Qed.

Lemma toLowerCase_idem (s : string) : Js.toLowerCase (Js.toLowerCase s) = Js.toLowerCase s.
Proof.
  induction s as [|c s IH]; [done|]. cbn [Js.toLowerCase].
  by rewrite lowerChar_idem, IH.
Qed.

Lemma toLowerCase_nonEmpty (s : string) : nonEmpty (Js.toLowerCase s) = nonEmpty s.
Proof. by destruct s. Qed.

Lemma truthy_toString (v : value) : Val.truthy v = true -> nonEmpty (Val.toString v) = true.
Proof.
  destruct v as [|s|x|[]]; cbn [Val.truthy Val.toString]; try done.
  intros _. apply numberToString_nonEmpty.
Qed.

Lemma addName_spec (nameMapping : gmap string string) (row : gmap string value) :
  addName nameMapping row =
  if namesNick row then <[nickKey row := Val.toString (nameOf row)]> nameMapping
  else nameMapping.
Proof. reflexivity. Qed.

Lemma names_fold (jsonData : list (gmap string value)) (start : gmap string string)
    (k : string) :
  fold_left addName jsonData start !! k =
  match last (rowsFor k jsonData) with
  | Some row => Some (Val.toString (nameOf row))
  | None => start !! k
  end.
Proof.
  revert start. induction jsonData as [|row rows IH]; intros start; [done|].
  cbn [fold_left]. rewrite IH, addName_spec. unfold rowsFor. cbn [List.filter].
  fold (rowsFor k rows).
  destruct (namesNick row) eqn:Hv; cbn [andb]; [|done].
  destruct (String.eqb (nickKey row) k) eqn:Hk.
  - apply String.eqb_eq in Hk. rewrite last_cons.
    destruct (last (rowsFor k rows)); [done|]. by rewrite <- Hk, lookup_insert_eq.
  - apply String.eqb_neq in Hk.
    destruct (last (rowsFor k rows)); [done|]. by rewrite lookup_insert_ne.
Qed.

Lemma readNameFile_fold (workbook : WorkBook) (mapping : gmap string string) :
  readNameFile workbook = Ok mapping -> mapping = fold_left addName (nameRows workbook) ∅.
Proof.
  unfold readNameFile. destruct (negb _); [done|]. cbv zeta. by intros [= <-].
Qed.

Lemma stored_names (workbook : WorkBook) (mapping : gmap string string) (k v : string) :
  readNameFile workbook = Ok mapping ->
  mapping !! k = Some v ->
  exists row, In row (nameRows workbook) /\ namesNick row = true /\
              nickKey row = k /\ v = Val.toString (nameOf row).
Proof.
  intros Hr Hk. rewrite (readNameFile_fold _ _ Hr), names_fold, lookup_empty in Hk.
  destruct (last (rowsFor k (nameRows workbook))) as [row|] eqn:Hl; [|done].
  injection Hk as <-. exists row.
  apply last_Some in Hl as [before Hl].
  assert (In row (rowsFor k (nameRows workbook))) as Hin
    by (rewrite Hl; apply in_or_app; right; by left).
  apply List.filter_In in Hin as [Hin Hc]. apply andb_true_iff in Hc as [Hv Hkey].
  by apply String.eqb_eq in Hkey.
Qed.

Lemma stored_name_nonEmpty (workbook : WorkBook) (mapping : gmap string string)
    (k v : string) :
  readNameFile workbook = Ok mapping -> mapping !! k = Some v -> nonEmpty v = true.
Proof.
  intros Hr Hk. destruct (stored_names _ _ _ _ Hr Hk) as (row & _ & Hv & _ & ->).
  apply andb_true_iff in Hv as [_ Hn]. by apply truthy_toString.
Qed.

(** X6: the mapping read from a name file holds, for a key, the name of
    the last row of the sheet that has a nick and a name and whose
    lowercased nick is that key; a key no such row has is absent. *)
Theorem name_of_last_row (workbook : WorkBook) (mapping : gmap string string) (k : string) :
  readNameFile workbook = Ok mapping ->
  mapping !! k = (fun row => Val.toString (nameOf row)) <$> last (rowsFor k (nameRows workbook)).
Proof.
  intros Hr. rewrite (readNameFile_fold _ _ Hr), names_fold, lookup_empty.
  by destruct (last _).
Qed.

Lemma name_of_last_row_witness :
  exists mapping,
    readNameFile nameBook = Ok mapping /\
    mapping !! "gus" = Some "Gustavo" /\ mapping !! "febe" = None /\ mapping !! "" = None.
Proof.
  exists (fold_left addName (nameRows nameBook) ∅). split; [reflexivity|].
  rewrite !(name_of_last_row nameBook (fold_left addName (nameRows nameBook) ∅) _ eq_refl).
  by vm_compute.
Defined.

(** X7: every key of the mapping read from a name file is lowercase and
    not empty, and every name stored is not empty. *)
Theorem names_keys_lowercase (workbook : WorkBook) (mapping : gmap string string)
    (k v : string) :
  readNameFile workbook = Ok mapping ->
  mapping !! k = Some v ->
  Js.toLowerCase k = k /\ k <> "" /\ v <> "".
Proof.
  intros Hr Hk. pose proof (stored_name_nonEmpty _ _ _ _ Hr Hk) as Hv.
  destruct (stored_names _ _ _ _ Hr Hk) as (row & _ & Hn & <- & _).
  apply andb_true_iff in Hn as [Hn _]. apply truthy_toString in Hn.
  unfold nickKey. rewrite toLowerCase_idem. split; [done|]. split.
  - intros E. by rewrite <- toLowerCase_nonEmpty, E in Hn.
  - intros ->. done.
Qed.

Lemma names_keys_lowercase_witness :
  exists mapping,
    readNameFile nameBook = Ok mapping /\ mapping !! "gus" = Some "Gustavo" /\
    Js.toLowerCase "gus" = "gus" /\ "gus" <> "" /\ "Gustavo" <> "".
Proof.
  exists (fold_left addName (nameRows nameBook) ∅).
  split; [reflexivity|]. split; [vm_compute; reflexivity|].
  apply (names_keys_lowercase nameBook (fold_left addName (nameRows nameBook) ∅)
           "gus" "Gustavo"); [reflexivity|].
  vm_compute. reflexivity.
Defined.



End NameFile.

(* ===================================================================== *)
(** ** The filter on whole workbooks *)
(* ===================================================================== *)

Section FilterWorkbooks.

Lemma matchedRows_bound nicknames nameMapping data :
  (length (matchedRows nicknames nameMapping data) <= length data)%nat.
Proof.
  induction data as [|row data IH]; [done|]. rewrite matchedRows_cons.
  destruct (matchingNickname nicknames row); cbn [length]; lia.
Qed.

Lemma combinedData_length (positiveData negativeData : list Row) :
  length (combinedData positiveData negativeData)
  = (51 + (length positiveData + length negativeData))%nat.
Proof.
  unfold combinedData, emptyTransferRows.
  repeat rewrite ?length_app, ?length_map, ?length_replicate, ?length_cons.
  cbn [length]. lia.
Qed.

Lemma buckets_length nicknames nameMapping jsonData :
  (length (sortedPositive nicknames nameMapping jsonData) +
   length (sortedNegative nicknames nameMapping jsonData))%nat
  = length (matchedRows nicknames nameMapping (drop 3 jsonData)).
Proof.
  rewrite (Permutation_length (sortedPositive_perm _ _ _)),
    (Permutation_length (sortedNegative_perm _ _ _)), <- length_app.
  apply Permutation_length, filter_split_perm.
Qed.

(** X9: with at least one nickname, the written sheet has 51 rows more
    than there are matched rows, and at most as many matched rows as the
    source sheet has rows after its third. *)
Theorem written_row_count
    (workbook : WorkBook) (nicknames : list NicknameWithLine)
    (nameMapping : gmap string string) :
  In targetSheetName (SheetNames workbook) ->
  nicknames <> [] ->
  let jsonData := sheet_to_json workbook targetSheetName in
  let matched := matchedRows nicknames nameMapping (drop 3 jsonData) in
  exists sheet,
    writtenSheet (filterWorkbookByNicknames workbook nicknames nameMapping) = Some sheet /\
    length sheet = (51 + length matched)%nat /\
    (length matched <= length jsonData - 3)%nat.
Proof.
  intros Hin Hne jsonData matched. eexists.
  rewrite filter_returns, written_append by done. split; [reflexivity|]. split.
  - by rewrite combinedData_length, buckets_length.
  - subst matched. etrans; [apply matchedRows_bound|]. by rewrite length_drop.
Qed.

Lemma written_row_count_witness :
  exists sheet,
    writtenSheet
      (filterWorkbookByNicknames
         (bookOf [rowKL (VString "Gus") (VNumber (Finite (7 # 1)));
                  rowKL (VString "Febe") (VNumber (Finite (3 # 1)))])
         [mkNickname "gus" None] ∅) = Some sheet /\
    length sheet = 52%nat.
Proof.
  destruct (written_row_count
              (bookOf [rowKL (VString "Gus") (VNumber (Finite (7 # 1)));
                       rowKL (VString "Febe") (VNumber (Finite (3 # 1)))])
              [mkNickname "gus" None] ∅) as (sheet & Hs & Hl & _).
  - left. reflexivity.
  - discriminate.
  - exists sheet. split; [exact Hs|]. rewrite Hl. reflexivity.
Defined.

(** X10: the result depends on the workbook only through the rows of
    the target sheet after its third: two workbooks that both have the
    sheet and agree on those rows give the same result, whatever their
    first three rows and their other sheets hold. *)
Theorem filter_reads_rows
    (workbook workbook' : WorkBook) (nicknames : list NicknameWithLine)
    (nameMapping : gmap string string) :
  In targetSheetName (SheetNames workbook) ->
  In targetSheetName (SheetNames workbook') ->
  drop 3 (sheet_to_json workbook targetSheetName)
    = drop 3 (sheet_to_json workbook' targetSheetName) ->
  filterWorkbookByNicknames workbook nicknames nameMapping
    = filterWorkbookByNicknames workbook' nicknames nameMapping.
Proof.
  intros Hin Hin' Hrows. destruct nicknames as [|n nicknames].
  - by rewrite !filter_empty.
  - rewrite !filter_returns by done.
    unfold sortedPositive, sortedNegative, classified. by rewrite Hrows.
Qed.

Lemma filter_reads_rows_witness :
  filterWorkbookByNicknames
    (bookOf [rowKL (VString "Gus") (VNumber (Finite (7 # 1)))])
    [mkNickname "gus" None] ∅
  = filterWorkbookByNicknames
      (mkWorkBook ["Other"; targetSheetName]
         {[ targetSheetName :=
              [[VString "a"]; [VString "b"]; [VString "gus"]] ++
              [rowKL (VString "Gus") (VNumber (Finite (7 # 1)))];
            "Other" := [[VString "gus"]] ]})
      [mkNickname "gus" None] ∅.
Proof.
  apply filter_reads_rows.
  - left. reflexivity.
  - right. left. reflexivity.
  - vm_compute. reflexivity.
Defined.

Lemma lowerEntry_find (nicknames : list NicknameWithLine) (row : Row) :
  matchingNickname (map lowerEntry nicknames) row
  = lowerEntry <$> matchingNickname nicknames row.
Proof.
  unfold matchingNickname. induction nicknames as [|n nicknames IH]; [done|].
  cbn [map List.find]. unfold lowerEntry at 1. cbn [nickname].
  rewrite toLowerCase_idem.
  by destruct (Js.includes (columnK row) (Js.toLowerCase (nickname n))).
Qed.

Lemma rowData_lower (nameMapping : gmap string string) (row : Row) (m : NicknameWithLine) :
  rowData nameMapping row (lowerEntry m) = rowData nameMapping row m.
Proof.
  unfold rowData, realName, profitLoss, rawProfitLoss, lowerEntry. cbn [nickname line].
  by rewrite toLowerCase_idem.
Qed.

Lemma matchedRows_lower nicknames nameMapping data :
  matchedRows (map lowerEntry nicknames) nameMapping data
  = matchedRows nicknames nameMapping data.
Proof.
  induction data as [|row data IH]; [done|].
  rewrite !matchedRows_cons, lowerEntry_find, IH.
  destruct (matchingNickname nicknames row); [|done].
  cbn [fmap option_fmap option_map]. by rewrite rowData_lower.
Qed.

Lemma filter_lower workbook nicknames nameMapping :
  filterWorkbookByNicknames workbook (map lowerEntry nicknames) nameMapping
  = filterWorkbookByNicknames workbook nicknames nameMapping.
Proof.
  unfold filterWorkbookByNicknames. cbv zeta.
  destruct (negb _); [done|]. destruct nicknames as [|n nicknames]; [done|].
  cbn [map]. rewrite <- (map_cons lowerEntry), !classified_spec.
  by rewrite matchedRows_lower.
Qed.

(** X11: the letter case of the nicknames makes no difference: two
    lists whose entries agree once their nicknames are in lower case
    give the same result. *)
Theorem filter_ignores_case
    (workbook : WorkBook) (nicknames nicknames' : list NicknameWithLine)
    (nameMapping : gmap string string) :
  map lowerEntry nicknames = map lowerEntry nicknames' ->
  filterWorkbookByNicknames workbook nicknames nameMapping
    = filterWorkbookByNicknames workbook nicknames' nameMapping.
Proof.
  intros H. by rewrite <- (filter_lower _ nicknames), H, filter_lower.
Qed.

Lemma filter_ignores_case_witness :
  filterWorkbookByNicknames
    (bookOf [rowKL (VString "Gus") (VNumber (Finite (7 # 1)))])
    [mkNickname "GUS" None; mkNickname "Febe" (Some (Finite (5000 # 1)))] ∅
  = filterWorkbookByNicknames
      (bookOf [rowKL (VString "Gus") (VNumber (Finite (7 # 1)))])
      [mkNickname "gUs" None; mkNickname "fEBE" (Some (Finite (5000 # 1)))] ∅.
Proof. apply filter_ignores_case. reflexivity. Defined.

Lemma parsed_nonEmpty (text : string) :
  Forall (fun e => nonEmpty (nickname e) = true) (parseNicknameText text).
Proof.
  rewrite parseNicknameText_concat.
  pose proof (textLines_shape text) as Hs.
  induction Hs as [|ln lns (Hb & Ht & Hn) _ IH]; [by constructor|].
  cbn [map concat]. apply Forall_app. split; [|done].
  destruct (entryOf_shape ln Hb Ht Hn) as [H _].
  eapply Forall_impl; [exact H|]. by intros e [[He _] _].
Qed.

Lemma includes_empty (t : string) : nonEmpty t = true -> Js.includes "" t = false.
Proof. by destruct t. Qed.

(** X12: a row whose column K is empty, absent or zero is matched by no
    entry of a parsed text, whatever the text, and so never reaches the
    written sheet. *)
Theorem blank_row_unmatched (text : string) (row : Row) :
  Val.truthy (Val.cell row 10) = false ->
  matchingNickname (parseNicknameText text) row = None /\
  forall nameMapping buckets,
    classifyRow (parseNicknameText text) nameMapping buckets row = buckets.
Proof.
  intros Hk.
  assert (matchingNickname (parseNicknameText text) row = None) as Hm.
  { apply find_nothing. intros e He. unfold columnK. rewrite Hk.
    apply includes_empty. rewrite toLowerCase_nonEmpty.
    pose proof (parsed_nonEmpty text) as Hall.
    rewrite List.Forall_forall in Hall. by apply Hall. }
  split; [done|]. intros nameMapping buckets. by apply classifyRow_unmatched.
Qed.

Lemma blank_row_unmatched_witness :
  matchingNickname (parseNicknameText "gus/5") (rowKL (VNumber (Finite 0)) (VString "x"))
  = None.
Proof.
  apply (blank_row_unmatched "gus/5" (rowKL (VNumber (Finite 0)) (VString "x"))).
  reflexivity.
Defined.

(** X13: a matched row whose column L does not read as a number has the
    profit NaN, with or without a line; it is put with the negative rows
    and carries the message of the rows that are not negative. *)
Theorem unreadable_chips_row
    (nicknames : list NicknameWithLine) (nameMapping : gmap string string)
    (buckets : list Row * list Row) (row : Row) (m : NicknameWithLine) :
  matchingNickname nicknames row = Some m ->
  Val.toNumber (columnL row) = NaN ->
  classifyRow nicknames nameMapping buckets row
    = (buckets.1, buckets.2 ++ [rowData nameMapping row m]) /\
  Val.cell (rowData nameMapping row m) 5 = VNumber NaN /\
  Val.cell (rowData nameMapping row m) 11 = VString (positiveMessage NaN).
Proof.
  intros Hm Hl.
  assert (profitLoss row m = NaN) as Hp.
  { unfold profitLoss, rawProfitLoss. rewrite Hl. by destruct (line m). }
  unfold classifyRow. rewrite Hm, Hp. cbn [Num.geb].
  split; [done|]. unfold rowData. cbv zeta. cbn [Val.cell nth]. by rewrite Hp.
Qed.

Lemma unreadable_chips_row_witness :
  classifyRow [mkNickname "gus" (Some (Finite (5000 # 1)))] ∅ ([], [])
              (rowKL (VString "Gus") (VString "n/a"))
  = ([], [rowData ∅ (rowKL (VString "Gus") (VString "n/a"))
                  (mkNickname "gus" (Some (Finite (5000 # 1))))]).
Proof.
  apply (unreadable_chips_row [mkNickname "gus" (Some (Finite (5000 # 1)))] ∅ ([], [])
           (rowKL (VString "Gus") (VString "n/a")));
    reflexivity.
Defined.

(** X14: the written sheet is empty exactly when the list of nicknames
    is: with no nickname the sheet has no row at all, with at least one
    it has its headers and tables even when no row matches. *)
Theorem empty_sheet_iff
    (workbook : WorkBook) (nicknames : list NicknameWithLine)
    (nameMapping : gmap string string) :
  In targetSheetName (SheetNames workbook) ->
  writtenSheet (filterWorkbookByNicknames workbook nicknames nameMapping) = Some []
  <-> nicknames = [].
Proof.
  intros Hin. split.
  - intros H. destruct nicknames as [|n nicknames]; [done|].
    rewrite filter_returns, written_append in H by done.
    injection H as H. apply (f_equal length) in H.
    rewrite combinedData_length in H. done.
  - intros ->. by rewrite filter_empty, written_append.
Qed.

Lemma empty_sheet_iff_witness :
  writtenSheet
    (filterWorkbookByNicknames
       (bookOf [rowKL (VString "Gus") (VNumber (Finite (7 # 1)))]) [] ∅) = Some []
  <-> @nil NicknameWithLine = [].
Proof. apply empty_sheet_iff. left. reflexivity. Defined.

End FilterWorkbooks.

(* ===================================================================== *)
(** ** The styling loop *)
(* ===================================================================== *)

Section Styles.

Import Download.

Lemma transfer_fold (indices : list nat) (rowIndex : nat) (start : bool) :
  fold_left
    (fun isTransferTableRow startIdx =>
       if Nat.leb startIdx rowIndex && Nat.ltb rowIndex (startIdx + 11) then true
       else isTransferTableRow)
    indices start
  = start || existsb (fun s => Nat.leb s rowIndex && Nat.ltb rowIndex (s + 11)) indices.
Proof.
  revert start. induction indices as [|s indices IH]; intros start; cbn [fold_left existsb].
  - by rewrite orb_false_r.
  - rewrite IH. destruct (Nat.leb s rowIndex && Nat.ltb rowIndex (s + 11)), start; done.
Qed.

Lemma transfer_true (indices : list nat) (rowIndex : nat) :
  isTransferTableRow indices rowIndex = true <->
  exists s, In s indices /\ (s <= rowIndex < s + 11)%nat.
Proof.
  unfold isTransferTableRow. rewrite transfer_fold. cbn [orb]. rewrite existsb_exists.
  split; intros (s & Hin & H); exists s; (split; [done|]).
  - apply andb_true_iff in H as [H1 H2].
    apply Nat.leb_le in H1. apply Nat.ltb_lt in H2. lia.
  - apply andb_true_iff. split; [apply Nat.leb_le|apply Nat.ltb_lt]; lia.
Qed.

Lemma between_true (indices : list nat) (rowIndex : nat) (start : bool) :
  betweenTables indices rowIndex start = true ->
  start = true \/
  exists before s n after,
    indices = before ++ s :: n :: after /\ (s + 11 <= rowIndex < n)%nat.
Proof.
  revert start. induction indices as [|s indices IH]; intros start; [by left|].
  destruct indices as [|n indices]; [by left|].
  change (betweenTables (s :: n :: indices) rowIndex start)
    with (betweenTables (n :: indices) rowIndex
            (if Nat.leb (s + 11) rowIndex && Nat.ltb rowIndex n then true else start)).
  intros H. apply IH in H as [H|(before & s' & n' & after & E & H)].
  - destruct (Nat.leb (s + 11) rowIndex && Nat.ltb rowIndex n) eqn:Hc; [|by left].
    right. exists [], s, n, indices. split; [done|].
    apply andb_true_iff in Hc as [H1 H2].
    apply Nat.leb_le in H1. apply Nat.ltb_lt in H2. lia.
  - right. exists (s :: before), s', n', after. split; [|done].
    by rewrite E.
Qed.

Lemma indicesFrom_sorted (idx : nat) (rows : list Row) :
  StronglySorted lt (indicesFrom idx rows) /\
  Forall (fun s => (idx <= s)%nat) (indicesFrom idx rows).
Proof.
  revert idx. induction rows as [|r rows IH]; intros idx; cbn [indicesFrom].
  - split; constructor.
  - destruct (IH (S idx)) as [Hs Hf].
    assert (Forall (fun s => (idx <= s)%nat) (indicesFrom (S idx) rows)) as Hf'
      by (eapply Forall_impl; [exact Hf|]; cbn; lia).
    destruct (startsWith r "Avsender"); [|done]. split.
    + constructor; [done|]. eapply Forall_impl; [exact Hf|]. cbn. lia.
    + by constructor.
Qed.

Lemma sorted_around (before after : list nat) (x : nat) :
  StronglySorted lt (before ++ x :: after) ->
  (forall y, In y before -> (y < x)%nat) /\ (forall y, In y after -> (x < y)%nat).
Proof.
  induction before as [|b before IH]; cbn [app]; intros H;
    apply StronglySorted_inv in H as [Hs Hf].
  - split; [done|]. by apply List.Forall_forall.
  - destruct (IH Hs) as [H1 H2]. split; [|done].
    intros y [<-|Hy]; [|by apply H1].
    rewrite List.Forall_forall in Hf. apply Hf, in_or_app. right. by left.
Qed.

(** X15: whatever the sheet holds, no row is both a separator row and
    a row of a transfer table: a row two above the first table, or
    between the end of one table and the start of the next, lies in
    none of the tables, also when the tables overlap. *)
Theorem separator_not_transfer (rows : list Row) (rowIndex : nat) :
  isSeparatorRow (transferTableIndices rows) rowIndex = true ->
  isTransferTableRow (transferTableIndices rows) rowIndex = false.
Proof.
  unfold transferTableIndices.
  destruct (indicesFrom_sorted 0 rows) as [Hs _].
  revert Hs. generalize (indicesFrom 0 rows). intros indices Hs Hsep.
  apply not_true_is_false. intros Ht.
  apply transfer_true in Ht as (s0 & Hin & Hr).
  unfold isSeparatorRow in Hsep. cbv zeta in Hsep.
  apply between_true in Hsep as [Hfirst|(before & s & n & after & E & Hb)].
  - destruct indices as [|first indices]; [done|]. cbn [firstTransferTableIndex] in Hfirst.
    apply andb_true_iff in Hfirst as [_ Hlt]. apply Z.ltb_lt in Hlt.
    apply StronglySorted_inv in Hs as [_ Hf]. rewrite List.Forall_forall in Hf.
    destruct Hin as [<-|Hin]; [lia|]. specialize (Hf _ Hin). lia.
  - subst indices. destruct (sorted_around _ _ _ Hs) as [H1 H2].
    apply in_app_or in Hin as [Hin|[<-|Hin]].
    + specialize (H1 _ Hin). lia.
    + lia.
    + assert (n <= s0)%nat; [|lia].
      destruct Hin as [<-|Hin]; [done|].
      replace (before ++ s :: n :: after) with ((before ++ [s]) ++ n :: after) in Hs
        by (by rewrite <- app_assoc).
      destruct (sorted_around _ _ _ Hs) as [_ H3]. specialize (H3 _ Hin). lia.
Qed.

Lemma separator_not_transfer_witness :
  isTransferTableRow
    (transferTableIndices [[]; [VString "Avsender"]; []; [VString "Avsender"]]) 0 = false.
Proof.
  apply (separator_not_transfer [[]; [VString "Avsender"]; []; [VString "Avsender"]] 0).
  reflexivity.
Defined.

Lemma indicesFrom_app (idx : nat) (a b : list Row) :
  indicesFrom idx (a ++ b) = indicesFrom idx a ++ indicesFrom (idx + length a) b.
Proof.
  revert idx. induction a as [|r a IH]; intros idx; cbn [app indicesFrom length].
  - by rewrite Nat.add_0_r.
  - rewrite IH, Nat.add_succ_r. by destruct (startsWith r "Avsender").
Qed.

Lemma indicesFrom_none (idx : nat) (rows : list Row) :
  Forall (fun r => startsWith r "Avsender" = false) rows -> indicesFrom idx rows = [].
Proof.
  intros H. revert idx. induction H as [|r rows Hr _ IH]; intros idx; [done|].
  cbn [indicesFrom]. by rewrite Hr, IH.
Qed.

Lemma matchedRows_no_table nicknames nameMapping rows :
  noTransferName rows ->
  Forall (fun r => startsWith r "Avsender" = false) (matchedRows nicknames nameMapping rows).
Proof.
  induction 1 as [|row rows Hrow _ IH]; [constructor|]. rewrite matchedRows_cons.
  destruct (matchingNickname nicknames row) as [m|]; [|done].
  constructor; [|done]. unfold rowData, startsWith. cbv zeta.
  destruct (Val.cell row 10) as [|s| |]; try done.
  apply String.eqb_neq. by intros ->.
Qed.

Lemma mainTable_no_table nicknames nameMapping jsonData :
  noTransferName (drop 3 jsonData) ->
  indicesFrom 0 (mainTable (sortedPositive nicknames nameMapping jsonData)
                           (sortedNegative nicknames nameMapping jsonData)) = [].
Proof.
  intros H. apply indicesFrom_none. unfold mainTable.
  pose proof (matchedRows_no_table nicknames nameMapping _ H) as Hm.
  constructor; [done|]. apply Forall_app. split; [|constructor; [done|]].
  - rewrite sortedPositive_perm. by apply Forall_filter_bool.
  - constructor; [done|]. constructor; [done|].
    rewrite sortedNegative_perm. by apply Forall_filter_bool.
Qed.

Lemma mainTable_length (positiveData negativeData : list Row) :
  length (mainTable positiveData negativeData)
  = (4 + (length positiveData + length negativeData))%nat.
Proof. unfold mainTable. cbn [length]. rewrite length_app. cbn [app length]. lia. Qed.

(** The rows a workbook of the filter hands to the styling loop, and
    where their transfer tables start. *)
Lemma written_indices workbook nicknames nameMapping :
  In targetSheetName (SheetNames workbook) ->
  nicknames <> [] ->
  let jsonData := sheet_to_json workbook targetSheetName in
  let matched := length (matchedRows nicknames nameMapping (drop 3 jsonData)) in
  noTransferName (drop 3 jsonData) ->
  exists out main,
    filterWorkbookByNicknames workbook nicknames nameMapping = Ok out /\
    data out = main ++ belowMain /\
    length main = (4 + matched)%nat /\
    transferTableIndices (data out)
      = [firstTable matched; (firstTable matched + 13)%nat; (firstTable matched + 26)%nat].
Proof.
  intros Hin Hne jsonData matched Hno. eexists. eexists.
  split; [by apply filter_returns|]. rewrite data_written, combinedData_layout.
  split; [reflexivity|]. split.
  - by rewrite mainTable_length, buckets_length.
  - unfold transferTableIndices. rewrite indicesFrom_app, mainTable_no_table by done.
    rewrite mainTable_length, buckets_length. fold jsonData. fold matched.
    unfold firstTable. cbn [app Nat.add].
    repeat rewrite ?Nat.add_succ_r, ?Nat.add_0_r. reflexivity.
Qed.

Ltac compare_all :=
  repeat match goal with
    | |- context [Nat.leb ?x ?y] => destruct (Nat.leb_spec x y)
    | |- context [Nat.ltb ?x ?y] => destruct (Nat.ltb_spec x y)
    | |- context [Z.leb ?x ?y] => destruct (Z.leb_spec x y)
    | |- context [Z.ltb ?x ?y] => destruct (Z.ltb_spec x y)
    | |- context [Z.eqb ?x ?y] => destruct (Z.eqb_spec x y)
    end.

Lemma separator_three (a b c rowIndex : nat) :
  isSeparatorRow [a; b; c] rowIndex = true <->
  (a <= rowIndex + 2 /\ rowIndex < a)%nat \/ (a + 11 <= rowIndex < b)%nat \/
  (b + 11 <= rowIndex < c)%nat.
Proof.
  unfold isSeparatorRow, betweenTables, firstTransferTableIndex. cbv zeta.
  compare_all; cbn [negb andb];
    (split; [intros Hyp; try done; lia|intros Hyp; try done]); exfalso; lia.
Qed.

Lemma transfer_three (a b c rowIndex : nat) :
  isTransferTableRow [a; b; c] rowIndex = true <->
  (a <= rowIndex < a + 11)%nat \/ (b <= rowIndex < b + 11)%nat \/
  (c <= rowIndex < c + 11)%nat.
Proof.
  rewrite transfer_true. split.
  - intros (s & [<-|[<-|[<-|[]]]] & H); tauto.
  - intros [H|[H|H]]; [exists a|exists b|exists c]; (split; [cbn; tauto|done]).
Qed.

Lemma border_iff (sep tr hd : bool) (colNumber : nat) :
  thinBorder (cellStyle sep tr hd colNumber) = true <->
  sep = false /\ (colNumber <= if tr then 5 else 12)%nat.
Proof.
  unfold cellStyle, mainTableColumnCount, transferTableColumnCount, bordered, cleared.
  destruct sep, tr; cbn [negb andb]; compare_all; cbn [thinBorder];
    (split; [intros Hyp; try done; (split; [done|lia])
           |intros [Hyp Hyp']; try done; exfalso; lia]).
Qed.

Lemma bold_iff (sep tr hd : bool) (colNumber : nat) :
  boldFont (cellStyle sep tr hd colNumber) = true <->
  thinBorder (cellStyle sep tr hd colNumber) = true /\ hd = true.
Proof.
  unfold cellStyle, mainTableColumnCount, transferTableColumnCount, bordered, cleared.
  destruct sep, tr, hd; cbn [negb andb]; compare_all; cbn [thinBorder boldFont]; tauto.
Qed.

Lemma below_headers (j : nat) :
  startsWith (nth j belowMain []) "Nickname" = false /\
  startsWith (nth j belowMain []) "Avsender"
    = (Nat.eqb j 10 || Nat.eqb j 23 || Nat.eqb j 36).
Proof.
  do 47 (destruct j as [|j]; [by vm_compute|]).
  by destruct j.
Qed.

(** X16: when no cell of column K in the source rows reads Avsender,
    the styling loop finds three transfer tables in the sheet the
    filter wrote, starting 14, 27 and 40 rows below the number of
    matched rows; their rows are the table rows, and the separator rows
    are the two rows above each table. *)
Theorem written_tables
    (workbook : WorkBook) (nicknames : list NicknameWithLine)
    (nameMapping : gmap string string) :
  In targetSheetName (SheetNames workbook) ->
  nicknames <> [] ->
  let jsonData := sheet_to_json workbook targetSheetName in
  let matched := length (matchedRows nicknames nameMapping (drop 3 jsonData)) in
  noTransferName (drop 3 jsonData) ->
  exists out,
    filterWorkbookByNicknames workbook nicknames nameMapping = Ok out /\
    length (data out) = (51 + matched)%nat /\
    transferTableIndices (data out)
      = [firstTable matched; (firstTable matched + 13)%nat; (firstTable matched + 26)%nat] /\
    forall rowIndex,
      (isTransferTableRow (transferTableIndices (data out)) rowIndex = true
       <-> inTransferTable matched rowIndex) /\
      (isSeparatorRow (transferTableIndices (data out)) rowIndex = true
       <-> aboveTransferTable matched rowIndex).
Proof.
  intros Hin Hne jsonData matched Hno.
  destruct (written_indices workbook nicknames nameMapping Hin Hne Hno)
    as (out & main & Hout & Hdata & Hmain & Hidx).
  fold jsonData in Hmain, Hidx. fold matched in Hmain, Hidx.
  exists out. split; [done|]. split.
  { rewrite Hdata, length_app, Hmain. change (length belowMain) with 47%nat. lia. }
  split; [done|]. intros rowIndex. rewrite Hidx, transfer_three, separator_three.
  unfold inTransferTable, aboveTransferTable, firstTable. split; lia.
Qed.

Lemma written_tables_witness :
  exists out,
    filterWorkbookByNicknames
      (bookOf [rowKL (VString "Gus") (VNumber (Finite (7 # 1)))])
      [mkNickname "gus" None] ∅ = Ok out /\
    transferTableIndices (data out) = [15; 28; 41]%nat.
Proof.
  destruct (written_tables
              (bookOf [rowKL (VString "Gus") (VNumber (Finite (7 # 1)))])
              [mkNickname "gus" None] ∅) as (out & H1 & _ & H2 & _).
  - left. reflexivity.
  - discriminate.
  - unfold noTransferName. vm_compute. constructor; [discriminate|constructor].
  - exists out. split; [exact H1|exact H2].
Defined.

Lemma below_header_row (j k : nat) :
  isHeaderRow (S k) (nth j belowMain []) = (Nat.eqb j 10 || Nat.eqb j 23 || Nat.eqb j 36).
Proof.
  unfold isHeaderRow. destruct (below_headers j) as [-> ->]. reflexivity.
Qed.

Lemma fill_bold (sep tr hd : bool) (colNumber : nat) :
  solidFill (cellStyle sep tr hd colNumber) = boldFont (cellStyle sep tr hd colNumber).
Proof.
  unfold cellStyle, bordered, cleared.
  by repeat match goal with |- context [if ?b then _ else _] => destruct b end.
Qed.

(** X17: in the sheet the filter wrote (no cell of column K reading
    Avsender), the cells with a thin border are the first twelve of
    every row down to the eighth blank row below the main table and the
    first five of every row of the three transfer tables; a cell has the
    header fill exactly when it has the bold font, and in the transfer
    tables these are the first five cells of the three header rows. *)
Theorem written_borders
    (workbook : WorkBook) (nicknames : list NicknameWithLine)
    (nameMapping : gmap string string) :
  In targetSheetName (SheetNames workbook) ->
  nicknames <> [] ->
  let jsonData := sheet_to_json workbook targetSheetName in
  let matched := length (matchedRows nicknames nameMapping (drop 3 jsonData)) in
  noTransferName (drop 3 jsonData) ->
  exists out,
    filterWorkbookByNicknames workbook nicknames nameMapping = Ok out /\
    forall rowIndex colNumber,
      (rowIndex < length (data out))%nat ->
      (thinBorder (styleAt (data out) rowIndex colNumber) = true <->
       (rowIndex + 2 < firstTable matched /\ colNumber <= 12)%nat \/
       (inTransferTable matched rowIndex /\ (colNumber <= 5)%nat)) /\
      solidFill (styleAt (data out) rowIndex colNumber)
        = boldFont (styleAt (data out) rowIndex colNumber) /\
      (inTransferTable matched rowIndex ->
       (boldFont (styleAt (data out) rowIndex colNumber) = true <->
        transferHeaderRow matched rowIndex /\ (colNumber <= 5)%nat)).
Proof.
  intros Hin Hne jsonData matched Hno.
  destruct (written_indices workbook nicknames nameMapping Hin Hne Hno)
    as (out & main & Hout & Hdata & Hmain & Hidx).
  fold jsonData in Hmain, Hidx. fold matched in Hmain, Hidx.
  exists out. split; [done|]. intros rowIndex colNumber Hrow.
  rewrite Hdata, length_app, Hmain in Hrow. change (length belowMain) with 47%nat in Hrow.
  unfold styleAt. cbv zeta. rewrite Hidx.
  pose proof (separator_three (firstTable matched) (firstTable matched + 13)
                (firstTable matched + 26) rowIndex) as Hsep.
  pose proof (transfer_three (firstTable matched) (firstTable matched + 13)
                (firstTable matched + 26) rowIndex) as Htr.
  assert (forall P : Prop, (true = true <-> P) -> P) as Yes
    by (intros P HP; by apply HP).
  assert (forall P : Prop, (false = true <-> P) -> ~ P) as No
    by (intros P HP HP'; by apply HP in HP').
  assert (true = false <-> False) as Hf by done.
  assert (false = false <-> True) as Ht by done.
  rewrite bold_iff, !border_iff, fill_bold.
  unfold inTransferTable, transferHeaderRow, firstTable in *.
  split; [|split; [done|]].
  - destruct (isSeparatorRow _ rowIndex); destruct (isTransferTableRow _ rowIndex);
      (apply Yes in Hsep || apply No in Hsep); (apply Yes in Htr || apply No in Htr);
      rewrite ?Hf, ?Ht; lia.
  - intros Hin'.
    destruct (isTransferTableRow _ rowIndex); [|apply No in Htr; exfalso; lia].
    destruct (isSeparatorRow _ rowIndex); [apply Yes in Hsep; exfalso; lia|].
    rewrite Hdata, app_nth2 by lia. rewrite Hmain.
    destruct rowIndex as [|k]; [exfalso; lia|]. rewrite below_header_row.
    rewrite Ht, !orb_true_iff, !Nat.eqb_eq. lia.
Qed.

Lemma written_borders_witness :
  exists out,
    filterWorkbookByNicknames
      (bookOf [rowKL (VString "Gus") (VNumber (Finite (7 # 1)))])
      [mkNickname "gus" None] ∅ = Ok out /\
    (thinBorder (styleAt (data out) 12 12) = true <->
     (12 + 2 < 15 /\ 12 <= 12)%nat \/ (inTransferTable 1 12 /\ (12 <= 5)%nat)).
Proof.
  destruct (written_borders
              (bookOf [rowKL (VString "Gus") (VNumber (Finite (7 # 1)))])
              [mkNickname "gus" None] ∅) as (out & H1 & H2).
  - left. reflexivity.
  - discriminate.
  - unfold noTransferName. vm_compute. constructor; [discriminate|constructor].
  - exists out. split; [exact H1|]. apply H2.
    vm_compute in H1. injection H1 as <-. vm_compute. lia.
Defined.

End Styles.

(* ===================================================================== *)
(** ** The column widths of the written sheet *)
(* ===================================================================== *)

Section Widths.

Import Download.

Lemma columnCount_short (rows : list Row) :
  Forall (fun r => (length r <= 20)%nat) rows ->
  columnCount rows = match rows with [] => 0%nat | _ => 20%nat end.
Proof.
  induction 1 as [|r rows Hr Hrows IH]; [done|]. cbn [columnCount fold_right].
  fold (columnCount rows). rewrite IH, (Nat.max_r (length r) 20) by done.
  by destruct rows.
Qed.

Lemma cells_beyond (rows : list Row) (j : nat) :
  Forall (fun r => (length r <= j)%nat) rows ->
  columnCells rows j = replicate (length rows) VUndefined.
Proof.
  induction 1 as [|r rows Hr _ IH]; [done|]. cbn [columnCells map length replicate].
  fold (columnCells rows j). rewrite IH. f_equal. by apply nth_overflow.
Qed.

Lemma maxLength_undefined (n : nat) : maxLength (replicate (S n) VUndefined) = 10%nat.
Proof.
  rewrite maxLength_list_max. induction n as [|n IH]; [done|].
  change (list_max (map columnLength (replicate (S (S n)) VUndefined)))
    with (Nat.max (columnLength VUndefined)
                  (list_max (map columnLength (replicate (S n) VUndefined)))).
  by rewrite IH.
Qed.

Lemma width_blank (cells : list value) :
  Exists (fun v => Val.truthy v = false) cells -> (12 <= columnWidth cells)%nat.
Proof.
  intros H. apply maxLength_blank in H. unfold columnWidth.
  destruct (Nat.ltb_spec (maxLength cells) 10); lia.
Qed.

Lemma width_beyond (rows : list Row) (j : nat) :
  rows <> [] ->
  Forall (fun r => (length r <= j)%nat) rows ->
  columnWidth (columnCells rows j) = 12%nat.
Proof.
  intros Hne H. rewrite cells_beyond by done. unfold columnWidth.
  destruct rows as [|r rows]; [done|]. cbn [length].
  by rewrite maxLength_undefined.
Qed.

Lemma written_rows_short nicknames nameMapping jsonData :
  Forall (fun r => (length r <= 12)%nat)
         (combinedData (sortedPositive nicknames nameMapping jsonData)
                       (sortedNegative nicknames nameMapping jsonData)).
Proof.
  rewrite combinedData_layout. apply Forall_app. split.
  - eapply Forall_impl; [apply mainTable_rows|]. cbn. intros r [->| ->]; cbn; lia.
  - repeat (constructor; [cbn; lia|]). constructor.
Qed.

(** X18: the sheet the filter wrote is given twenty column widths,
    none below 12; the eight columns to the right of the twelve used
    ones have the width 12. *)
Theorem written_widths
    (workbook : WorkBook) (nicknames : list NicknameWithLine)
    (nameMapping : gmap string string) :
  In targetSheetName (SheetNames workbook) ->
  nicknames <> [] ->
  exists out,
    filterWorkbookByNicknames workbook nicknames nameMapping = Ok out /\
    length (columnWidths (data out)) = 20%nat /\
    forall j w, columnWidths (data out) !! j = Some w ->
                (12 <= w)%nat /\ ((12 <= j)%nat -> w = 12%nat).
Proof.
  intros Hin Hne. eexists. split; [by apply filter_returns|].
  rewrite data_written.
  set (pos := sortedPositive _ _ _). set (neg := sortedNegative _ _ _).
  pose proof (written_rows_short nicknames nameMapping
                (sheet_to_json workbook targetSheetName)) as Hshort.
  fold pos neg in Hshort.
  assert (columnCount (combinedData pos neg) = 20%nat) as Hc.
  { rewrite columnCount_short; [done|].
    eapply Forall_impl; [exact Hshort|]. cbn. lia. }
  unfold columnWidths. rewrite Hc, length_map, length_seq. split; [done|].
  intros j w Hj. rewrite list_lookup_fmap in Hj.
  destruct (seq 0 20 !! j) as [k|] eqn:Hk; [|done].
  apply lookup_seq in Hk as [-> Hlt]. cbv [fmap option_fmap option_map] in Hj.
  injection Hj as <-. change (0 + j)%nat with j. split.
  - apply (width_blank (columnCells (combinedData pos neg) j)), combinedData_blank_cell.
  - intros Hge. apply (width_beyond (combinedData pos neg) j).
    + by rewrite combinedData_layout.
    + eapply Forall_impl; [exact Hshort|]. cbn. lia.
Qed.

Lemma written_widths_witness :
  exists out,
    filterWorkbookByNicknames
      (bookOf [rowKL (VString "Gus") (VNumber (Finite (7 # 1)))])
      [mkNickname "gus" None] ∅ = Ok out /\
    length (columnWidths (data out)) = 20%nat.
Proof.
  destruct (written_widths
              (bookOf [rowKL (VString "Gus") (VNumber (Finite (7 # 1)))])
              [mkNickname "gus" None] ∅) as (out & H1 & H2 & _).
  - left. reflexivity.
  - discriminate.
  - exists out. split; [exact H1|exact H2].
Defined.

End Widths.

(* ===================================================================== *)
(** ** The application state *)
(* ===================================================================== *)

Section Application.

Import App.









Lemma filter_sheet_names workbook nicknames nameMapping out :
  filterWorkbookByNicknames workbook nicknames nameMapping = Ok out ->
  SheetNames out = [targetSheetName].
Proof.
  unfold filterWorkbookByNicknames. cbv zeta. destruct (negb _); [done|].
  destruct nicknames; by intros [= <-].
Qed.

Lemma consistent_initial : consistent initial.
Proof.
  repeat split; try done; cbn; try (by intros [out H]); constructor.
Qed.

Lemma consistent_step (s : State) (a : action) : consistent s -> consistent (step s a).
Proof.
  intros (Hp & Hf & Hs & Hn). destruct a as [f|read|read|text| |]; cbn [step].
  - split; [done|]. split; [|split; [|done]]; cbn.
    + split; [done|]. by intros [out H].
    + done.
  - by destruct read.
  - unfold handleNameFile. destruct read as [wb|]; [|done].
    by destruct (readNameFile wb).
  - split; [done|]. split; [done|]. split; [done|]. cbn. apply parsed_shape.
  - unfold handleFilter. destruct (workbook s) as [wb|]; [|done].
    cbv zeta. cbn [nicknames nameMapping setIsProcessing].
    destruct (filterWorkbookByNicknames wb (nicknames s) (nameMapping s)) as [out|] eqn:E.
    + split; [done|]. split; [|split; [|done]]; cbn.
      * split; [by eexists|done].
      * intros out' [= <-]. by eapply filter_sheet_names.
    + done.
  - split; [done|]. split; [|split; [|done]]; cbn.
    + split; [done|]. by intros [out H].
    + done.
Qed.

Lemma consistent_fold (events : list action) (s : State) :
  consistent s -> consistent (fold_left step events s).
Proof.
  revert s. induction events as [|a events IH]; intros s H; [done|].
  cbn [fold_left]. by apply IH, consistent_step.
Qed.

(** X20: after any sequence of events the state of the application is
    consistent: nothing is being processed, the filtered flag is set
    exactly when there is a filtered workbook, that workbook has the one
    sheet Club Member Balance, every nickname is as the parser
    produces them, and the download button has something to download
    exactly when it is shown. *)
Theorem app_consistent (events : list action) :
  consistent (run events) /\
  (isFiltered (run events) = true <-> is_Some (handleDownload (run events))).
Proof.
  pose proof (consistent_fold events initial consistent_initial) as H.
  split; [exact H|]. destruct H as (_ & Hf & _). fold (run events) in Hf.
  rewrite Hf. unfold handleDownload.
  destruct (filteredWorkbook (run events)) as [wb|].
  - split; intros _; by eexists.
  - split; intros [x Hx]; done.
Qed.

Lemma setIsProcessing_same (s : State) :
  isProcessing s = false -> setIsProcessing false s = s.
Proof. destruct s. cbn. by intros ->. Qed.

(** X21: a click on Filter without a workbook, or with a workbook that
    lacks the sheet Club Member Balance, leaves the state as it
    was; with the sheet present it stores the filtered workbook and sets
    the filtered flag, and changes nothing else. *)
Theorem filter_click (s : State) :
  isProcessing s = false ->
  match workbook s with
  | None => handleFilter s = s
  | Some wb =>
      (~ In targetSheetName (SheetNames wb) -> handleFilter s = s) /\
      (In targetSheetName (SheetNames wb) ->
       exists out,
         filterWorkbookByNicknames wb (nicknames s) (nameMapping s) = Ok out /\
         handleFilter s = setIsFiltered true (setFilteredWorkbook (Some out) s))
  end.
Proof.
  intros Hp. unfold handleFilter. destruct (workbook s) as [wb|] eqn:Hw; [|done].
  cbv zeta. cbn [nicknames nameMapping setIsProcessing].
  destruct (filter_outcome wb (nicknames s) (nameMapping s)) as [[Hno ->]|[Hin [out ->]]].
  - split; [|done]. intros _. destruct s. cbn in *. by subst.
  - split; [done|]. intros _. exists out. split; [done|].
    destruct s. cbn in *. by subst.
Qed.

Lemma filter_click_witness :
  exists out,
    filterWorkbookByNicknames
      (bookOf [rowKL (VString "Gus") (VNumber (Finite (7 # 1)))])
      (nicknames loadedState) (nameMapping loadedState) = Ok out /\
    handleFilter loadedState = setIsFiltered true (setFilteredWorkbook (Some out) loadedState).
Proof.
  pose proof (filter_click loadedState eq_refl) as H.
  apply H. left. reflexivity.
Defined.

Lemma download_outcome workbook nicknames nameMapping out (name : string) :
  filterWorkbookByNicknames workbook nicknames nameMapping = Ok out ->
  Download.downloadExcelFile out name =
  match nicknames with
  | [] => Throw Download.columnsNull
  | _ => Ok (Download.mkFile name (Download.data out) (columnWidths (Download.data out)))
  end.
Proof.
  intros Hout. unfold Download.downloadExcelFile.
  rewrite (filter_written _ _ _ _ Hout).
  destruct nicknames as [|n nicknames]; [done|].
  by rewrite combinedData_layout.
Qed.

(** X22: when a new file is chosen and reading it fails, the workbook
    read before stays in place: a click on Filter then filters the old
    workbook, and a click on Download hands that result to
    [downloadExcelFile] under the name of the new file.  With at least
    one nickname the file offered holds the filtered sheet of the old
    workbook; with no nickname the sheet has no column, the download
    throws and no file is offered. *)
Theorem failed_read_keeps_workbook (s : State) (wb : WorkBook) (uploadedFile msg : string) :
  workbook s = Some wb ->
  In targetSheetName (SheetNames wb) ->
  let s' := handleFilter (handleFileUploadDone (Throw msg)
                            (handleFileUploadStart uploadedFile s)) in
  let name := originalName (Some uploadedFile) +:+ "_filtered.xlsx" in
  exists out,
    filterWorkbookByNicknames wb (nicknames s) (nameMapping s) = Ok out /\
    filteredWorkbook s' = Some out /\
    handleDownload s' = Some (Download.downloadExcelFile out name) /\
    (nicknames s <> [] ->
     handleDownload s' =
       Some (Ok (Download.mkFile name (Download.data out)
                                 (columnWidths (Download.data out)))) /\
     Download.data out <> []) /\
    (nicknames s = [] -> handleDownload s' = Some (Throw Download.columnsNull)).
Proof.
  intros Hw Hin s' name. subst s'.
  destruct (filter_outcome wb (nicknames s) (nameMapping s)) as [[Hno _]|[_ [out Hout]]];
    [done|].
  exists out. split; [done|].
  assert (handleDownload
            (handleFilter (handleFileUploadDone (Throw msg)
                             (handleFileUploadStart uploadedFile s)))
          = Some (Download.downloadExcelFile out name)) as Hd.
  { unfold handleFilter, handleFileUploadDone, handleFileUploadStart, handleDownload.
    cbn. rewrite Hw. cbn. rewrite Hout. reflexivity. }
  split.
  { unfold handleFilter, handleFileUploadDone, handleFileUploadStart.
    cbn. rewrite Hw. cbn. by rewrite Hout. }
  split; [exact Hd|]. rewrite Hd, (download_outcome _ _ _ _ name Hout). split.
  - intros Hne. destruct (nicknames s) as [|n ns] eqn:E; [done|]. split; [done|].
    rewrite (filter_written _ _ _ _ Hout). by rewrite combinedData_layout.
  - by intros ->.
Qed.

Lemma failed_read_keeps_workbook_witness :
  exists out,
    handleDownload
      (handleFilter (handleFileUploadDone (Throw "unreadable")
                       (handleFileUploadStart "b.xls" loadedState)))
    = Some (Ok (Download.mkFile "b_filtered.xlsx" (Download.data out)
                                (columnWidths (Download.data out)))) /\
    length (Download.data out) = 52%nat.
Proof.
  destruct (failed_read_keeps_workbook loadedState
              (bookOf [rowKL (VString "Gus") (VNumber (Finite (7 # 1)))])
              "b.xls" "unreadable") as (out & Hout & _ & _ & H & _).
  - reflexivity.
  - left. reflexivity.
  - exists out. split; [apply H; discriminate|].
    vm_compute in Hout. injection Hout as <-. reflexivity.
Defined.

(** X23: the usual course of events: the name file is read, a file is
    chosen and read, the text is typed, Filter and then Download are
    clicked.  When the workbook has the sheet Club Member Balance,
    [downloadExcelFile] is called with the result of the filter on that
    workbook, the parsed text and the names read (no names when the name
    file has no sheet Player overview), under the name of the chosen
    file.  When the text has an entry the file offered holds the
    filtered sheet; when it has none the download throws and no file is
    offered. *)
Theorem usual_course (names wb : WorkBook) (uploadedFile text : string) :
  In targetSheetName (SheetNames wb) ->
  let mapping := match readNameFile names with Ok m => m | Throw _ => ∅ end in
  let s := run [NameFileRead (Ok names); FileChosen uploadedFile; FileRead (Ok wb);
                TextChanged text; FilterClicked] in
  let name := originalName (Some uploadedFile) +:+ "_filtered.xlsx" in
  exists out,
    filterWorkbookByNicknames wb (parseNicknameText text) mapping = Ok out /\
    filteredWorkbook s = Some out /\
    handleDownload s = Some (Download.downloadExcelFile out name) /\
    (parseNicknameText text <> [] ->
     handleDownload s =
       Some (Ok (Download.mkFile name (Download.data out)
                                 (columnWidths (Download.data out)))) /\
     Download.data out <> []) /\
    (parseNicknameText text = [] -> handleDownload s = Some (Throw Download.columnsNull)).
Proof.
  intros Hin mapping s name.
  destruct (filter_outcome wb (parseNicknameText text) mapping)
    as [[Hno _]|[_ [out Hout]]]; [done|].
  exists out. split; [done|].
  assert (filteredWorkbook s = Some out) as Hf.
  { subst s mapping. unfold run. cbn [fold_left step]. unfold handleNameFile.
    destruct (readNameFile names) as [m|e]; unfold handleFilter; cbn; by rewrite Hout. }
  assert (handleDownload s = Some (Download.downloadExcelFile out name)) as Hd.
  { unfold handleDownload. rewrite Hf. subst s name. unfold run. cbn [fold_left step].
    unfold handleNameFile.
    destruct (readNameFile names) as [m|e]; unfold handleFilter; cbn;
      by destruct (filterWorkbookByNicknames _ _ _). }
  split; [exact Hf|]. split; [exact Hd|].
  rewrite Hd, (download_outcome _ _ _ _ name Hout). split.
  - intros Hne. destruct (parseNicknameText text) as [|n ns] eqn:E; [done|]. split; [done|].
    rewrite (filter_written _ _ _ _ Hout). by rewrite combinedData_layout.
  - by intros ->.
Qed.

Lemma usual_course_witness :
  exists out,
    handleDownload
      (run [NameFileRead (Ok nameBook); FileChosen "Balance.XLSX";
            FileRead (Ok (bookOf [rowKL (VString "Gus") (VNumber (Finite (7 # 1)))]));
            TextChanged "gus/5"; FilterClicked])
    = Some (Ok (Download.mkFile "Balance_filtered.xlsx" (Download.data out)
                                (columnWidths (Download.data out)))).
Proof.
  destruct (usual_course nameBook
              (bookOf [rowKL (VString "Gus") (VNumber (Finite (7 # 1)))])
              "Balance.XLSX" "gus/5") as (out & _ & _ & _ & H & _).
  - left. reflexivity.
  - exists out. apply H. by vm_compute.
Defined.

End Application.
